(** * Archivematica Storage Service: the AIP import command and its utilities

    A shallow embedding of
    - [storage_service/common/utils.py]: [uuid_to_path], [mets_event],
      [mets_ss_agent], [mets_add_event], [get_compression], [removedirs],
      [download_file_stream];
    - [storage_service/common/management/commands/import_aip.py]: the whole
      import pipeline.

    Python 2 byte strings are [string]; Python exceptions are values of
    [exn]; code that touches the file system, the record store or the
    terminal is a function of an explicit [World].

    The file system is a tree of directories and regular files. Paths are
    resolved as POSIX resolves them ([.], [..], relative paths from the
    current directory of the process, a slash at the end), the system
    calls answer with their error numbers, and [os.makedirs],
    [shutil.rmtree], [os.walk] and [os.removedirs] follow the text of the
    Python 2.7 library, partial effects of a failed call included. *)

From Stdlib Require Import Bool Arith ZArith List String Ascii DecimalString Lia.
Set Warnings "-register-all".
Import ListNotations.
Open Scope string_scope.

(* ================================================================= *)
(** ** Exceptions and results *)

Inductive exn : Type :=
| TypeError                              (* call with a missing argument *)
| ImportAIPException (msg : string)      (* import_aip.py:81 *)
| OSError                                (* os / shutil failures *)
| IOError                                (* tarfile / open failures *)
| IntegrityError                         (* django.db.utils *)
| DoesNotExist (model : string)          (* Model.DoesNotExist *)
| MultipleObjectsReturned (model : string)
| KeyError                               (* pwd.getpwnam *)
| AttributeError                         (* a name the module does not define *)
| EOFError                               (* raw_input at end of input *)
| BagError.                              (* bagit.Bag constructor *)

Inductive res (A : Type) : Type :=
| Ok (a : A)
| Raise (e : exn).
Arguments Ok {A} a.
Arguments Raise {A} e.

(* ================================================================= *)
(** ** Python string primitives *)

Module Py.

(** [s.replace(c, empty)] for a one-character [c]. *)
Fixpoint remove_char (c : ascii) (s : string) : string :=
  match s with
  | EmptyString => EmptyString
  | String a s' =>
      if Ascii.eqb a c then remove_char c s' else String a (remove_char c s')
  end.

(** [range(0, n, step)] for a positive [step], by the number of elements
    still to produce. *)
Fixpoint range_from (start step count : nat) : list nat :=
  match count with
  | O => []
  | S k => start :: range_from (start + step) step k
  end.

Definition range_step (n step : nat) : list nat :=
  range_from 0 step ((n + (step - 1)) / step).

(** [s[i:j]] for [0 <= i <= j]. *)
Definition slice (i j : nat) (s : string) : string := substring i (j - i) s.

(** [s[i:]]. *)
Fixpoint drop (n : nat) (s : string) : string :=
  match n, s with
  | O, _ => s
  | S _, EmptyString => EmptyString
  | S k, String _ s' => drop k s'
  end.

Fixpoint startswith (s p : string) : bool :=
  match p, s with
  | EmptyString, _ => true
  | String _ _, EmptyString => false
  | String a p', String b s' => Ascii.eqb b a && startswith s' p'
  end.

Definition endswith (s suf : string) : bool :=
  (length suf <=? length s)%nat
  && String.eqb (drop (length s - length suf) s) suf.

Fixpoint contains_char (c : ascii) (s : string) : bool :=
  match s with
  | EmptyString => false
  | String a s' => Ascii.eqb a c || contains_char c s'
  end.

(** Concatenation of a list of strings. *)
Fixpoint concat_all (l : list string) : string :=
  match l with
  | [] => EmptyString
  | x :: r => x ++ concat_all r
  end.

(** ASCII [str.lower()]. *)
Definition lower_char (c : ascii) : ascii :=
  let n := nat_of_ascii c in
  if ((65 <=? n) && (n <=? 90))%nat then ascii_of_nat (n + 32) else c.

Fixpoint lower (s : string) : string :=
  match s with
  | EmptyString => EmptyString
  | String c s' => String (lower_char c) (lower s')
  end.

End Py.

(* ================================================================= *)
(** ** posixpath *)

Module PosixPath.

Definition sep : ascii := "/"%char.

(** One round of the loop of [posixpath.join]. *)
Definition join_step (path b : string) : string :=
  if Py.startswith b "/" then b
  else if String.eqb path "" || Py.endswith path "/" then path ++ b
  else path ++ "/" ++ b.

Definition join2 (a : string) (p : list string) : string :=
  fold_left join_step p a.

(** [os.path.join] applied to the unpacked list [l]: the first argument
    is mandatory. *)
Definition join (l : list string) : res string :=
  match l with
  | [] => Raise TypeError
  | a :: p => Ok (join2 a p)
  end.

End PosixPath.

(* ================================================================= *)
(** ** common/utils.py: uuid_to_path *)

(** [[uuid[i:i + 4] for i in range(0, len(uuid), 4)]] *)
Definition segments (uuid : string) : list string :=
  map (fun i => Py.slice i (i + 4) uuid) (Py.range_step (length uuid) 4).

Definition uuid_to_path (uuid : string) : res string :=
  let uuid := Py.remove_char "-" uuid in
  let path := segments uuid in
  PosixPath.join path.


(* ================================================================= *)
(** ** common/utils.py: PREMIS events and agents in a METS amdSec *)

Module Xml.

(** An lxml element: namespace, local name, attributes, leading text,
    children and the text that follows the closing tag. *)
Inductive element : Type :=
| Element (ns tag : string) (attrib : list (string * string))
          (text : string) (children : list element) (tail : string).

Definition ns_of (e : element) : string :=
  match e with Element ns _ _ _ _ _ => ns end.
Definition tag_of (e : element) : string :=
  match e with Element _ tag _ _ _ _ => tag end.
Definition children_of (e : element) : list element :=
  match e with Element _ _ _ _ ch _ => ch end.
Definition tail_of (e : element) : string :=
  match e with Element _ _ _ _ _ tl => tl end.

(** [len(e)] *)
Definition len (e : element) : nat := List.length (children_of e).

(** [e.append(c)] *)
Definition append (e c : element) : element :=
  match e with
  | Element ns tag attrib text ch tl => Element ns tag attrib text (ch ++ [c]) tl
  end.

(** [e.set(k, v)] *)
Fixpoint set_assoc (k v : string) (l : list (string * string)) :=
  match l with
  | [] => [(k, v)]
  | (k', v') :: r =>
      if String.eqb k' k then (k, v) :: r else (k', v') :: set_assoc k v r
  end.

Definition set (e : element) (k v : string) : element :=
  match e with
  | Element ns tag attrib text ch tl => Element ns tag (set_assoc k v attrib) text ch tl
  end.

(** XPath string-value of an element: its text nodes in document order. *)
Fixpoint string_value (e : element) : string :=
  match e with
  | Element _ _ _ text ch _ =>
      text ++ (fix over (l : list element) : string :=
                 match l with
                 | [] => EmptyString
                 | c :: r => string_value c ++ tail_of c ++ over r
                 end) ch
  end.

(** The element nodes selected by [.//*] from [e], in document order. *)
Fixpoint descendants (e : element) : list element :=
  match e with
  | Element _ _ _ _ ch _ =>
      (fix over (l : list element) : list element :=
         match l with
         | [] => []
         | c :: r => c :: descendants c ++ over r
         end) ch
  end.

Definition named (ns tag : string) (e : element) : bool :=
  String.eqb (ns_of e) ns && String.eqb (tag_of e) tag.

(** The XPath comparison [ns:tag = 'v'] inside a predicate on [e]: some
    child of that name has string-value [v]. *)
Definition child_equals (ns tag v : string) (e : element) : bool :=
  existsb (fun c => named ns tag c && String.eqb (string_value c) v)
          (children_of e).

(** lxml.builder: [E.tag(children..., key=value...)], and the form with a
    single text argument. *)
Definition E (ns tag : string) (attrib : list (string * string))
           (children : list element) : element :=
  Element ns tag attrib EmptyString children EmptyString.

Definition Etext (ns tag : string) (text : string) : element :=
  Element ns tag [] text [] EmptyString.

End Xml.

Module Mets.
Import Xml.

(** utils.py:25 [NSMAP] *)
Definition NS_mets : string := "http://www.loc.gov/METS/".
Definition NS_premis : string := "info:lc/xmlns/premis-v2".
Definition NS_xsi : string := "http://www.w3.org/2001/XMLSchema-instance".

Definition decimal (n : nat) : string :=
  DecimalString.NilEmpty.string_of_uint (Nat.to_uint n).

Definition digiprov_id_for (amdsec : element) : string :=
  "digiprovMD_" ++ decimal (len amdsec).

Section WithVersion.

(** [storage_service.__version__], declared in the package's
    [__init__.py]. *)
Variable ss_version : string.

Definition _storage_service_agent : string :=
  "Archivematica Storage Service-" ++ ss_version.

(** [mets_event] with its defaults [agent_type='storage service'] and
    [agent_value=None]. The clock reading [now] and the value of
    [uuid.uuid4()] are inputs. *)
Definition mets_event (now fresh_uuid : string)
           (digiprov_id event_type event_detail event_outcome_detail_note : string)
  : element :=
  let agent_type := "storage service" in
  let agent_value := _storage_service_agent in
  let EP := E NS_premis in
  let EPt := Etext NS_premis in
  let EM := E NS_mets in
  let premis_event :=
    EP "event" [("version", "2.2")]
       [ EP "eventIdentifier" []
            [ EPt "eventIdentifierType" "UUID";
              EPt "eventIdentifierValue" fresh_uuid ];
         EPt "eventType" event_type;
         EPt "eventDateTime" now;
         EPt "eventDetail" event_detail;
         EP "eventOutcomeInformation" []
            [ EP "eventOutcome" [] [];
              EP "eventOutcomeDetail" []
                 [ EPt "eventOutcomeDetailNote" event_outcome_detail_note ] ];
         EP "linkingAgentIdentifier" []
            [ EPt "linkingAgentIdentifierType" agent_type;
              EPt "linkingAgentIdentifierValue" agent_value ] ] in
  let premis_event :=
    set premis_event ("{" ++ NS_xsi ++ "}schemaLocation")
        "info:lc/xmlns/premis-v2 http://www.loc.gov/standards/premis/v2/premis-v2-2.xsd" in
  EM "digiprovMD" [("ID", digiprov_id)]
     [ EM "mdWrap" [("MDTYPE", "PREMIS:EVENT")]
          [ EM "xmlData" [] [premis_event] ] ].

(** The query of [mets_ss_agent],
    [.//mets:agentIdentifier[mets:agentIdentifierType='T' and
    mets:agentIdentifierValue='V']] with the prefix [mets] bound by
    [NSMAP]. The literals are spliced in with [format]; the model reads
    them as literals, which is what XPath does when neither holds a
    quote character. *)
Definition existing_agent_query (xml : element) (agent_type agent_value : string)
  : list element :=
  filter (fun e => named NS_mets "agentIdentifier" e
                   && child_equals NS_mets "agentIdentifierType" agent_type e
                   && child_equals NS_mets "agentIdentifierValue" agent_value e)
         (descendants xml).

(** [mets_ss_agent] with its defaults; [None] is Python's [None]. *)
Definition mets_ss_agent (xml : element) (digiprov_id : string) : option element :=
  let agent_type := "storage service" in
  let agent_value := _storage_service_agent in
  let existing_agent := existing_agent_query xml agent_type agent_value in
  match existing_agent with
  | _ :: _ => None
  | [] =>
      let EP := E NS_premis in
      let EPt := Etext NS_premis in
      let EM := E NS_mets in
      Some
        (EM "digiprovMD" [("ID", digiprov_id)]
            [ EM "mdWrap" [("MDTYPE", "PREMIS:AGENT")]
                 [ EM "xmlData" []
                      [ EP "agent" []
                           [ EP "agentIdentifier" []
                                [ EPt "agentIdentifierType" agent_type;
                                  EPt "agentIdentifierValue" agent_value ];
                             EPt "agentName" "Archivematica Storage Service";
                             EPt "agentType" "software" ] ] ] ])
  end.

(** [mets_add_event]: the amdSec is mutated in place; the mutated
    element is returned here. *)
Definition mets_add_event (now fresh_uuid : string) (amdsec : element)
           (event_type event_detail event_outcome_detail_note : string) : element :=
  let digiprov_id := digiprov_id_for amdsec in
  let event := mets_event now fresh_uuid digiprov_id event_type event_detail
                          event_outcome_detail_note in
  let amdsec := append amdsec event in
  let digiprov_id := digiprov_id_for amdsec in
  let digiprov_agent := mets_ss_agent amdsec digiprov_id in
  match digiprov_agent with
  | Some agent => append amdsec agent
  | None => amdsec
  end.

End WithVersion.

(** The agent entries of a document: every PREMIS [agent] element's
    identifiers, as (type, value) pairs. *)
Definition identifier_pairs (agent : element) : list (string * string) :=
  map (fun i =>
         (Py.concat_all (map string_value
            (filter (named NS_premis "agentIdentifierType") (children_of i))),
          Py.concat_all (map string_value
            (filter (named NS_premis "agentIdentifierValue") (children_of i)))))
      (filter (named NS_premis "agentIdentifier") (children_of agent)).

Definition agent_entries (doc : element) : list (string * string) :=
  flat_map identifier_pairs (filter (named NS_premis "agent") (descendants doc)).

Definition empty_amdsec : element := E NS_mets "amdSec" [] [].

End Mets.

(* ================================================================= *)
(** ** More of posixpath: basename, normpath, commonprefix *)

Module PosixPath2.

(** [s.split(c)] *)
Fixpoint split (c : ascii) (s : string) : list string :=
  match s with
  | EmptyString => [EmptyString]
  | String a r =>
      if Ascii.eqb a c then EmptyString :: split c r
      else match split c r with
           | h :: t => String a h :: t
           | [] => [String a EmptyString]
           end
  end.

(** [sep.join(l)] *)
Fixpoint str_join (sep : string) (l : list string) : string :=
  match l with
  | [] => EmptyString
  | [x] => x
  | x :: r => x ++ sep ++ str_join sep r
  end.

(** [posixpath.basename]: what follows the last slash. *)
Fixpoint basename (p : string) : string :=
  match p with
  | EmptyString => EmptyString
  | String c r =>
      if Py.contains_char "/" r then basename r
      else if Ascii.eqb c "/" then r
      else p
  end.

(** The loop body of [posixpath.normpath]. *)
Definition normpath_step (initial_slashes : nat) (new_comps : list string)
           (comp : string) : list string :=
  if String.eqb comp "" || String.eqb comp "." then new_comps
  else if negb (String.eqb comp "..")
          || (Nat.eqb initial_slashes 0 && Nat.eqb (List.length new_comps) 0)
          || (negb (Nat.eqb (List.length new_comps) 0)
              && String.eqb (List.last new_comps "") "..")
       then new_comps ++ [comp]
       else List.removelast new_comps.

Definition normpath (path : string) : string :=
  if String.eqb path "" then "."
  else
    let initial_slashes :=
      if Py.startswith path "/" then
        if Py.startswith path "//" && negb (Py.startswith path "///") then 2 else 1
      else 0 in
    let comps := split "/" path in
    let comps := fold_left (normpath_step initial_slashes) comps [] in
    let path := str_join "/" comps in
    let path :=
      match initial_slashes with
      | 0 => path
      | 1 => "/" ++ path
      | _ => "//" ++ path
      end in
    if String.eqb path "" then "." else path.

(** [os.path.commonprefix]: the longest string every member starts with. *)
Fixpoint common2 (a b : string) : string :=
  match a, b with
  | String x a', String y b' =>
      if Ascii.eqb x y then String x (common2 a' b') else EmptyString
  | _, _ => EmptyString
  end.

Definition commonprefix (m : list string) : string :=
  match m with
  | [] => EmptyString
  | x :: r => fold_left common2 r x
  end.

End PosixPath2.

(* ================================================================= *)
(** ** posixpath.split *)

Module OsPath.

(** [p.rfind('/') + 1]: the length of [p] up to and including its last
    slash, 0 without one. *)
Fixpoint slash_end (p : string) : nat :=
  match p with
  | EmptyString => 0
  | String c r =>
      if Py.contains_char "/" r then S (slash_end r)
      else if Ascii.eqb c "/" then 1 else 0
  end.

(** [s == '/' * len(s)] *)
Fixpoint all_slashes (s : string) : bool :=
  match s with
  | EmptyString => true
  | String c r => Ascii.eqb c "/" && all_slashes r
  end.

(** [s.rstrip('/')] *)
Fixpoint rstrip_slashes (s : string) : string :=
  match s with
  | EmptyString => EmptyString
  | String c r =>
      match rstrip_slashes r with
      | EmptyString => if Ascii.eqb c "/" then EmptyString else String c EmptyString
      | r' => String c r'
      end
  end.

(** [posixpath.split] *)
Definition split (p : string) : string * string :=
  let i := slash_end p in
  let head := Py.slice 0 i p in
  let tail := Py.drop i p in
  let head :=
    if negb (String.eqb head "") && negb (all_slashes head)
    then rstrip_slashes head else head in
  (head, tail).

End OsPath.

(** [head, tail = split(name); if not tail: head, tail = split(head)], the
    opening of [os.makedirs] and of [os.removedirs]. *)
Definition split_twice (name : string) : string * string :=
  let '(head, tail) := OsPath.split name in
  if String.eqb tail "" then OsPath.split head else (head, tail).

(* ================================================================= *)
(** ** The file system *)

Module Fs.

(** A node is a regular file (owner, group, bytes) or a directory (owner,
    group, named entries in listing order). No links, no permission bits:
    a call fails for the shape of the tree only. *)
Inductive node : Type :=
| File (uid gid : Z) (data : string)
| Dir (uid gid : Z) (entries : list (string * node)).

(** Why a call failed. *)
Inductive errno : Type :=
| ENOENT | ENOTDIR | EEXIST | ENOTEMPTY | EINVAL | EISDIR | EBUSY.

Inductive answer (A : Type) : Type :=
| Got (a : A)
| Err (e : errno).
Arguments Got {A} a.
Arguments Err {A} e.

(** Where a node is: the names that lead to it from the root. *)
Definition position : Type := list string.

Fixpoint find_entry (name : string) (l : list (string * node)) : option node :=
  match l with
  | [] => None
  | (k, v) :: r => if String.eqb k name then Some v else find_entry name r
  end.

Fixpoint replace_entry (name : string) (v : node) (l : list (string * node)) :=
  match l with
  | [] => []
  | (k, v') :: r =>
      if String.eqb k name then (k, v) :: r else (k, v') :: replace_entry name v r
  end.

Fixpoint remove_first (name : string) (l : list (string * node)) :=
  match l with
  | [] => []
  | (k, v) :: r =>
      if String.eqb k name then r else (k, v) :: remove_first name r
  end.

Fixpoint get (n : node) (q : position) : option node :=
  match q with
  | [] => Some n
  | c :: r =>
      match n with
      | File _ _ _ => None
      | Dir _ _ es =>
          match find_entry c es with
          | Some ch => get ch r
          | None => None
          end
      end
  end.

(** The tree with [f] applied to the node at [q]. *)
Fixpoint update (f : node -> node) (n : node) (q : position) : node :=
  match q with
  | [] => f n
  | c :: r =>
      match n with
      | File _ _ _ => n
      | Dir u g es =>
          match find_entry c es with
          | Some ch => Dir u g (replace_entry c (update f ch r) es)
          | None => n
          end
      end
  end.

Definition set_entries (es : list (string * node)) (n : node) : node :=
  match n with
  | Dir u g _ => Dir u g es
  | File _ _ _ => n
  end.

Definition add_entry (name : string) (v : node) (n : node) : node :=
  match n with
  | Dir u g es => Dir u g (es ++ [(name, v)])
  | File _ _ _ => n
  end.

Definition drop_entry (name : string) (n : node) : node :=
  match n with
  | Dir u g es => Dir u g (remove_first name es)
  | File _ _ _ => n
  end.

Definition set_owner (uid gid : Z) (n : node) : node :=
  match n with
  | File _ _ d => File uid gid d
  | Dir _ _ es => Dir uid gid es
  end.

(** *** Path resolution *)

(** The components of a path as written: what stands between its
    slashes. *)
Definition parts (p : string) : list string :=
  filter (fun c => negb (String.eqb c "")) (PosixPath2.split "/" p).

(** An absolute path is walked from the root, any other from the current
    directory of the process. *)
Definition start (cwd : position) (p : string) : position :=
  if Py.startswith p "/" then [] else cwd.

Definition entries_at (root : node) (q : position)
  : answer (list (string * node)) :=
  match get root q with
  | Some (Dir _ _ es) => Got es
  | Some (File _ _ _) => Err ENOTDIR
  | None => Err ENOENT
  end.

(** One component, looked up in the directory at [q]: [.] is the directory
    itself, [..] its parent (the root is its own parent). *)
Definition step (root : node) (q : position) (c : string) : answer position :=
  match entries_at root q with
  | Got es =>
      if String.eqb c "." then Got q
      else if String.eqb c ".." then Got (List.removelast q)
      else match find_entry c es with
           | Some _ => Got (q ++ [c])%list
           | None => Err ENOENT
           end
  | Err e => Err e
  end.

Fixpoint walk_from (root : node) (q : position) (comps : list string)
  : answer position :=
  match comps with
  | [] => Got q
  | c :: r =>
      match step root q c with
      | Got q' => walk_from root q' r
      | Err e => Err e
      end
  end.

(** The node a path names. The empty path names nothing; a path that ends
    in a slash names a directory or nothing. *)
Definition resolve (cwd : position) (root : node) (p : string)
  : answer position :=
  if String.eqb p "" then Err ENOENT
  else
    match walk_from root (start cwd p) (parts p) with
    | Got q =>
        match get root q with
        | Some (Dir _ _ _) => Got q
        | Some (File _ _ _) => if Py.endswith p "/" then Err ENOTDIR else Got q
        | None => Err ENOENT
        end
    | Err e => Err e
    end.

(** [os.stat] *)
Definition stat (cwd : position) (root : node) (p : string) : answer node :=
  match resolve cwd root p with
  | Got q =>
      match get root q with
      | Some n => Got n
      | None => Err ENOENT
      end
  | Err e => Err e
  end.

(** [os.path.exists], [os.path.isfile], [os.path.isdir] *)
Definition exists_ (cwd : position) (root : node) (p : string) : bool :=
  match stat cwd root p with Got _ => true | Err _ => false end.

Definition isfile (cwd : position) (root : node) (p : string) : bool :=
  match stat cwd root p with Got (File _ _ _) => true | _ => false end.

Definition isdir (cwd : position) (root : node) (p : string) : bool :=
  match stat cwd root p with Got (Dir _ _ _) => true | _ => false end.

(** For the calls that make or remove a name: the directory that all
    components but the last lead to, with its entries. *)
Definition lookup_parent (cwd : position) (root : node) (p : string)
  : answer (position * list (string * node)) :=
  match walk_from root (start cwd p) (List.removelast (parts p)) with
  | Got q =>
      match entries_at root q with
      | Got es => Got (q, es)
      | Err e => Err e
      end
  | Err e => Err e
  end.

Definition last_part (p : string) : string := List.last (parts p) EmptyString.

Definition is_dot (c : string) : bool := String.eqb c "." || String.eqb c "..".

(** *** System calls *)

(** [os.mkdir]: one new, empty directory of the caller; trailing slashes
    are allowed. *)
Definition mkdir (uid gid : Z) (cwd : position) (root : node) (p : string)
  : answer node :=
  if String.eqb p "" then Err ENOENT
  else
    match parts p with
    | [] => Err EEXIST
    | _ :: _ =>
        match lookup_parent cwd root p with
        | Got (q, es) =>
            if is_dot (last_part p) then Err EEXIST
            else match find_entry (last_part p) es with
                 | Some _ => Err EEXIST
                 | None =>
                     Got (update (add_entry (last_part p) (Dir uid gid [])) root q)
                 end
        | Err e => Err e
        end
    end.

(** [os.rmdir]: an empty directory, named by a path whose last component
    is neither [.] nor [..]; never the root. *)
Definition rmdir (cwd : position) (root : node) (p : string) : answer node :=
  if String.eqb p "" then Err ENOENT
  else
    match parts p with
    | [] => Err EBUSY
    | _ :: _ =>
        match lookup_parent cwd root p with
        | Got (q, es) =>
            if String.eqb (last_part p) "." then Err EINVAL
            else if String.eqb (last_part p) ".." then Err ENOTEMPTY
            else match find_entry (last_part p) es with
                 | None => Err ENOENT
                 | Some (File _ _ _) => Err ENOTDIR
                 | Some (Dir _ _ (_ :: _)) => Err ENOTEMPTY
                 | Some (Dir _ _ []) => Got (update (drop_entry (last_part p)) root q)
                 end
        | Err e => Err e
        end
    end.

(** [os.remove]: a regular file. *)
Definition remove (cwd : position) (root : node) (p : string) : answer node :=
  if String.eqb p "" then Err ENOENT
  else
    match parts p with
    | [] => Err EISDIR
    | _ :: _ =>
        match lookup_parent cwd root p with
        | Got (q, es) =>
            if is_dot (last_part p) then Err EISDIR
            else match find_entry (last_part p) es with
                 | None => Err ENOENT
                 | Some (Dir _ _ _) => Err EISDIR
                 | Some (File _ _ _) =>
                     if Py.endswith p "/" then Err ENOTDIR
                     else Got (update (drop_entry (last_part p)) root q)
                 end
        | Err e => Err e
        end
    end.

(** [os.listdir], in listing order. *)
Definition listdir (cwd : position) (root : node) (p : string)
  : answer (list string) :=
  match stat cwd root p with
  | Got (Dir _ _ es) => Got (map fst es)
  | Got (File _ _ _) => Err ENOTDIR
  | Err e => Err e
  end.

(** [os.chown] *)
Definition chown (cwd : position) (root : node) (p : string) (uid gid : Z)
  : answer node :=
  match resolve cwd root p with
  | Got q => Got (update (set_owner uid gid) root q)
  | Err e => Err e
  end.

(** *** Library functions *)

(** [os.makedirs] (Python 2.7):
    [[
    head, tail = path.split(name)
    if not tail:
        head, tail = path.split(head)
    if head and tail and not path.exists(head):
        try:
            makedirs(head, mode)
        except OSError, e:
            if e.errno != errno.EEXIST:
                raise
        if tail == curdir:
            return
    mkdir(name, mode)
    ]]
    The recursion is on [head], which is shorter than [name]: the length
    of [name] is fuel enough, and with no fuel left [name] is empty and the
    last line is all that runs. The result is the outcome and the tree as
    it is left, directories made before a failure included. *)
Fixpoint makedirs_rec (fuel : nat) (uid gid : Z) (cwd : position)
         (root : node) (name : string) : answer unit * node :=
  let create (root : node) : answer unit * node :=
    match mkdir uid gid cwd root name with
    | Got f => (Got tt, f)
    | Err e => (Err e, root)
    end in
  match fuel with
  | O => create root
  | S fuel' =>
      let '(head, tail) := split_twice name in
      if negb (String.eqb head "") && negb (String.eqb tail "")
         && negb (exists_ cwd root head)
      then
        match makedirs_rec fuel' uid gid cwd root head with
        | (Got _, root') | (Err EEXIST, root') =>
            if String.eqb tail "." then (Got tt, root') else create root'
        | (Err e, root') => (Err e, root')
        end
      else create root
  end.

Definition makedirs (uid gid : Z) (cwd : position) (root : node) (name : string)
  : answer unit * node :=
  makedirs_rec (String.length name) uid gid cwd root name.

(** [shutil.rmtree] (Python 2.7):
    [[
    names = []
    try:
        names = os.listdir(path)
    except os.error, err:
        onerror(os.listdir, path, sys.exc_info())
    for name in names:
        fullname = os.path.join(path, name)
        try:
            mode = os.lstat(fullname).st_mode
        except os.error:
            mode = 0
        if stat.S_ISDIR(mode):
            rmtree(fullname, ignore_errors, onerror)
        else:
            try:
                os.remove(fullname)
            except os.error, err:
                onerror(os.remove, fullname, sys.exc_info())
    try:
        os.rmdir(path)
    except os.error:
        onerror(os.rmdir, path, sys.exc_info())
    ]]
    [onerror] raises, or does nothing under [ignore_errors]. The function
    recurses on the node that [os.listdir] read at [path]; the nested call
    for [fullname] is given the entry of that name, which is the node at
    [fullname] while the loop has not yet come to it. Every call and every
    test inside is made on the tree as it then is. *)
Definition on_error (ignore_errors : bool) (e : errno) (root : node)
  : answer unit * node :=
  if ignore_errors then (Got tt, root) else (Err e, root).

Fixpoint rmtree_node (ignore_errors : bool) (cwd : position) (path : string)
         (listed : node) (root : node) {struct listed} : answer unit * node :=
  let finish (root : node) : answer unit * node :=
    match rmdir cwd root path with
    | Got f => (Got tt, f)
    | Err e => on_error ignore_errors e root
    end in
  match listed with
  | File _ _ _ =>
      match on_error ignore_errors ENOTDIR root with
      | (Got _, root') => finish root'
      | raised => raised
      end
  | Dir _ _ es =>
      match
        (fix loop (l : list (string * node)) (root : node)
           : answer unit * node :=
           match l with
           | [] => (Got tt, root)
           | (name, child) :: r =>
               let fullname := PosixPath.join2 path [name] in
               match
                 match stat cwd root fullname with
                 | Got (Dir _ _ _) =>
                     rmtree_node ignore_errors cwd fullname child root
                 | _ =>
                     match remove cwd root fullname with
                     | Got f => (Got tt, f)
                     | Err e => on_error ignore_errors e root
                     end
                 end
               with
               | (Got _, root') => loop r root'
               | raised => raised
               end
           end) es root
      with
      | (Got _, root') => finish root'
      | raised => raised
      end
  end.

(** The loop of [rmtree_node], by name. *)
Definition rmtree_entries (ignore_errors : bool) (cwd : position)
           (path : string)
  : list (string * node) -> node -> answer unit * node :=
  fix loop (l : list (string * node)) (root : node) : answer unit * node :=
    match l with
    | [] => (Got tt, root)
    | (name, child) :: r =>
        let fullname := PosixPath.join2 path [name] in
        match
          match stat cwd root fullname with
          | Got (Dir _ _ _) =>
              rmtree_node ignore_errors cwd fullname child root
          | _ =>
              match remove cwd root fullname with
              | Got f => (Got tt, f)
              | Err e => on_error ignore_errors e root
              end
          end
        with
        | (Got _, root') => loop r root'
        | raised => raised
        end
    end.

(** The last step of [rmtree]: the directory itself. *)
Definition rmtree_finish (ignore_errors : bool) (cwd : position)
           (path : string) (root : node) : answer unit * node :=
  match rmdir cwd root path with
  | Got f => (Got tt, f)
  | Err e => on_error ignore_errors e root
  end.

Definition rmtree (ignore_errors : bool) (cwd : position) (root : node)
           (path : string) : answer unit * node :=
  match stat cwd root path with
  | Got listed => rmtree_node ignore_errors cwd path listed root
  | Err e =>
      match on_error ignore_errors e root with
      | (Got _, root') =>
          match rmdir cwd root' path with
          | Got f => (Got tt, f)
          | Err e' => on_error ignore_errors e' root'
          end
      | raised => raised
      end
  end.

Definition is_dir_node (n : node) : bool :=
  match n with Dir _ _ _ => true | File _ _ _ => false end.

Definition dirnames (es : list (string * node)) : list string :=
  map fst (filter (fun e => is_dir_node (snd e)) es).

Definition filenames (es : list (string * node)) : list string :=
  map fst (filter (fun e => negb (is_dir_node (snd e))) es).

(** [os.walk(top)], top-down: one triple [(root, dirs, files)] per
    directory; nothing when [top] is not a directory. *)
Fixpoint walk_node (top : string) (n : node)
  : list (string * list string * list string) :=
  match n with
  | File _ _ _ => []
  | Dir _ _ es =>
      (top, dirnames es, filenames es)
        :: (fix below (l : list (string * node))
                : list (string * list string * list string) :=
              match l with
              | [] => []
              | (name, ch) :: r =>
                  (walk_node (PosixPath.join2 top [name]) ch ++ below r)%list
              end) es
  end.

Definition walk (cwd : position) (root : node) (top : string)
  : list (string * list string * list string) :=
  match stat cwd root top with
  | Got n => walk_node top n
  | Err _ => []
  end.

(** *** Well-formed trees *)

(** What a directory entry can be called. *)
Definition is_name (c : string) : bool :=
  negb (String.eqb c "") && negb (is_dot c) && negb (Py.contains_char "/" c).

(** Every entry of the tree bears a name, and no two entries of a
    directory the same. *)
Fixpoint wf (n : node) : bool :=
  match n with
  | File _ _ _ => true
  | Dir _ _ es =>
      (fix all (l : list (string * node)) : bool :=
         match l with
         | [] => true
         | (k, ch) :: r =>
             is_name k && negb (existsb (String.eqb k) (map fst r))
             && wf ch && all r
         end) es
  end.

(** A path written with names only: no [.], no [..], and at least one
    component. *)
Definition proper (p : string) : bool :=
  match parts p with
  | [] => false
  | l => forallb (fun c => negb (is_dot c)) l
  end.

(** No component of the path is [..]. *)
Definition no_dotdot (p : string) : bool :=
  forallb (fun c => negb (String.eqb c "..")) (parts p).

(** Where such a path leads: from its starting directory through its
    components other than [.]. *)
Definition undot (comps : list string) : list string :=
  filter (fun c => negb (String.eqb c ".")) comps.

Definition place (cwd : position) (p : string) : position :=
  (start cwd p ++ undot (parts p))%list.

(** The stages of replacing the directory at [p]: the directory it lies
    in, the tree with the directory emptied, then removed, then made
    again. *)
Definition parent_place (cwd : position) (p : string) : position :=
  (start cwd p ++ List.removelast (parts p))%list.

Definition emptied (cwd : position) (root : node) (p : string) : node :=
  update (set_entries []) root (place cwd p).

Definition removed (cwd : position) (root : node) (p : string) : node :=
  update (drop_entry (last_part p)) (emptied cwd root p) (parent_place cwd p).

Definition made (uid gid : Z) (cwd : position) (root : node) (p : string)
  : node :=
  update (add_entry (last_part p) (Dir uid gid [])) (removed cwd root p)
         (parent_place cwd p).

(** What [rmtree] does to a directory reached without [..]: it empties
    it, then tries to remove it. *)
Definition empties_then_removes (i : bool) (cwd : position) (n : node)
  : Prop :=
  forall p root,
    p <> "" -> no_dotdot p = true -> wf n = true ->
    is_dir_node n = true ->
    get root (place cwd p) = Some n ->
    rmtree_node i cwd p n root
    = rmtree_finish i cwd p (update (set_entries []) root (place cwd p)).

End Fs.

(* ================================================================= *)
(** ** The record store *)

Module Store.

(** [locations.models.Location], [Pipeline] and [Package], by the fields
    the import command reads and writes. *)
Record Location : Type := mkLocation {
  location_uuid : string;
  full_path : string
}.

Record Pipeline : Type := mkPipeline {
  pipeline_uuid : string
}.

Record Package : Type := mkPackage {
  uuid : string;
  package_type : string;
  status : string;
  size : Z;
  origin_pipeline : option Pipeline;
  current_location : Location;
  current_path : string
}.

Definition set_current_path (p : Package) (path : string) : Package :=
  mkPackage (uuid p) (package_type p) (status p) (size p)
            (origin_pipeline p) (current_location p) path.

Definition has_uuid (u : string) (p : Package) : bool := String.eqb (uuid p) u.

(** [Package.objects.filter(uuid=u)] *)
Definition filter_uuid (u : string) (rows : list Package) : list Package :=
  filter (has_uuid u) rows.

(** [Package.objects.filter(uuid=u).delete()] *)
Definition delete_uuid (u : string) (rows : list Package) : list Package :=
  filter (fun p => negb (has_uuid u p)) rows.

(** Modelled from the spec: [Package.save()] of [locations/models], which
    is not among the sources. The record store raises a
    uniqueness-violation signal on a duplicate identifier and [uuid] is
    unique across packages: saving a new record inserts a row unless a row
    with its [uuid] is there. *)
Definition insert (p : Package) (rows : list Package) : res (list Package) :=
  match filter_uuid (uuid p) rows with
  | [] => Ok (rows ++ [p])%list
  | _ :: _ => Raise IntegrityError
  end.

End Store.

(* ================================================================= *)
(** ** The world the command runs in *)

Inductive event : Type :=
| EvSave (p : Store.Package) (stored : bool)
| EvDelete (uuid : string)
| EvMakedirs (path : string)
| EvRmtree (path : string)
| EvRsync (source destination : string) (returncode : Z)
| EvChown (path : string) (uid gid : Z).

Record World : Type := mkWorld {
  fs : Fs.node;
  packages : list Store.Package;
  locations : list Store.Location;
  pipelines : list Store.Pipeline;
  settings : list (string * string);
  stdin : list string;              (* lines still to be read by raw_input *)
  stdout : list string;             (* what was printed, oldest first *)
  others : list (list Store.Package);
    (* rows other importers commit just before our 1st, 2nd, ... save *)
  trace : list event                (* oldest first *)
}.

(** What lies outside the repository: archive and bag libraries, the rsync
    program, the password database, the identity of the process and its
    current directory (which the code never changes). *)
Record Env : Type := mkEnv {
  mkdtemp : Fs.node -> res (string * Fs.node);
  tar_getnames : Fs.node -> string -> res (list string);
  tar_extractall : Fs.node -> string -> string -> res Fs.node;
  bag_is_valid : Fs.node -> string -> res bool;
  glob : Fs.node -> string -> list string;
  rsync : Fs.node -> string -> string -> Z * Fs.node;
  getpwnam : string -> option (Z * Z);
  euid : Z;
  egid : Z;
  cwd : Fs.position
}.

(** State and exceptions: a computation maps a world to a result and the
    world it leaves behind, also when it raises. *)
Definition M (A : Type) : Type := World -> res A * World.

Definition ret {A} (a : A) : M A := fun w => (Ok a, w).
Definition raise {A} (e : exn) : M A := fun w => (Raise e, w).

Definition bind {A B} (m : M A) (k : A -> M B) : M B :=
  fun w =>
    match m w with
    | (Ok a, w') => k a w'
    | (Raise e, w') => (Raise e, w')
    end.

(** [try: m except E: h], for the exceptions [E] that [catches] accepts. *)
Definition try_except {A} (m : M A) (catches : exn -> bool) (h : M A) : M A :=
  fun w =>
    match m w with
    | (Raise e, w') => if catches e then h w' else (Raise e, w')
    | r => r
    end.

Definition is_IntegrityError (e : exn) : bool :=
  match e with IntegrityError => true | _ => false end.
Definition is_OSError (e : exn) : bool :=
  match e with OSError => true | _ => false end.
Definition is_DoesNotExist (model : string) (e : exn) : bool :=
  match e with DoesNotExist m => String.eqb m model | _ => false end.
Definition is_ImportAIPException (e : exn) : bool :=
  match e with ImportAIPException _ => true | _ => false end.

(** A pure computation that may raise, run inside [M]. *)
Definition lift {A} (r : res A) : M A := fun w => (r, w).

Declare Scope py_scope.
Delimit Scope py_scope with py.
Notation "x <- m ;; k" := (bind m (fun x => k))
  (at level 61, m at next level, right associativity) : py_scope.
Notation "m ;; k" := (bind m (fun _ => k))
  (at level 61, right associativity) : py_scope.
Open Scope py_scope.

Definition set_fs (w : World) (f : Fs.node) : World :=
  mkWorld f (packages w) (locations w) (pipelines w) (settings w)
          (stdin w) (stdout w) (others w) (trace w).
Definition set_packages (w : World) (rows : list Store.Package) : World :=
  mkWorld (fs w) rows (locations w) (pipelines w) (settings w)
          (stdin w) (stdout w) (others w) (trace w).
Definition set_stdin (w : World) (l : list string) : World :=
  mkWorld (fs w) (packages w) (locations w) (pipelines w) (settings w)
          l (stdout w) (others w) (trace w).
Definition set_others (w : World) (o : list (list Store.Package)) : World :=
  mkWorld (fs w) (packages w) (locations w) (pipelines w) (settings w)
          (stdin w) (stdout w) o (trace w).
Definition emit (w : World) (s : string) : World :=
  mkWorld (fs w) (packages w) (locations w) (pipelines w) (settings w)
          (stdin w) (stdout w ++ [s])%list (others w) (trace w).
Definition log (w : World) (e : event) : World :=
  mkWorld (fs w) (packages w) (locations w) (pipelines w) (settings w)
          (stdin w) (stdout w) (others w) (trace w ++ [e])%list.

Definition is_store_write (e : event) : bool :=
  match e with
  | EvSave _ _ | EvDelete _ => true
  | _ => false
  end.

(* ================================================================= *)
(** ** Library calls, as steps on the world *)

Section Primitives.

Variable env : Env.

Definition os_path_exists (p : string) : M bool :=
  fun w => (Ok (Fs.exists_ (cwd env) (fs w) p), w).

Definition os_path_isfile (p : string) : M bool :=
  fun w => (Ok (Fs.isfile (cwd env) (fs w) p), w).

(** Every failure of a file-system call reaches Python as [OSError]. A
    system call that fails leaves the tree alone; a library function may
    have changed it before it fails. *)
Definition os_call (a : Fs.answer Fs.node) (w : World) : res unit * World :=
  match a with
  | Fs.Got f => (Ok tt, set_fs w f)
  | Fs.Err _ => (Raise OSError, w)
  end.

Definition os_library_call (a : Fs.answer unit * Fs.node) (w : World)
  : res unit * World :=
  match a with
  | (Fs.Got _, f) => (Ok tt, set_fs w f)
  | (Fs.Err _, f) => (Raise OSError, set_fs w f)
  end.

Definition os_makedirs (p : string) : M unit :=
  fun w =>
    let w := log w (EvMakedirs p) in
    os_library_call (Fs.makedirs (euid env) (egid env) (cwd env) (fs w) p) w.

Definition shutil_rmtree (p : string) : M unit :=
  fun w =>
    let w := log w (EvRmtree p) in
    os_library_call (Fs.rmtree false (cwd env) (fs w) p) w.

(** [shutil.rmtree(path, ignore_errors=True)] *)
Definition shutil_rmtree_ignore_errors (p : string) : M unit :=
  fun w => os_library_call (Fs.rmtree true (cwd env) (fs w) p) w.

Definition os_rmdir (p : string) : M unit :=
  fun w => os_call (Fs.rmdir (cwd env) (fs w) p) w.

Definition os_chown (p : string) (uid gid : Z) : M unit :=
  fun w =>
    let w := log w (EvChown p uid gid) in
    os_call (Fs.chown (cwd env) (fs w) p uid gid) w.

(** [os.walk], listed when the loop starts: the loop of [fix_ownership]
    changes owners only, never the shape of the tree. *)
Definition os_walk (top : string)
  : M (list (string * list string * list string)) :=
  fun w => (Ok (Fs.walk (cwd env) (fs w) top), w).

Definition print (s : string) : M unit :=
  fun w => (Ok tt, emit w s).

(** [raw_input(prompt)]: the prompt goes to the terminal and one line is
    read; end of input raises [EOFError]. *)
Definition raw_input (prompt : string) : M string :=
  fun w =>
    let w := emit w prompt in
    match stdin w with
    | [] => (Raise EOFError, w)
    | line :: r => (Ok line, set_stdin w r)
    end.

Definition tempfile_mkdtemp : M string :=
  fun w =>
    match mkdtemp env (fs w) with
    | Ok (d, f) => (Ok d, set_fs w f)
    | Raise e => (Raise e, w)
    end.

Definition tarfile_getnames (archive : string) : M (list string) :=
  fun w => (tar_getnames env (fs w) archive, w).

Definition tarfile_extractall (archive path : string) : M unit :=
  fun w =>
    match tar_extractall env (fs w) archive path with
    | Ok f => (Ok tt, set_fs w f)
    | Raise e => (Raise e, w)
    end.

(** [bagit.Bag(path).is_valid()] *)
Definition bagit_is_valid (path : string) : M bool :=
  fun w => (bag_is_valid env (fs w) path, w).

Definition glob_glob (pattern : string) : M (list string) :=
  fun w => (Ok (glob env (fs w) pattern), w).

(** [subprocess.Popen(['rsync', ...]).communicate()], then [returncode]. *)
Definition run_rsync (source destination : string) : M Z :=
  fun w =>
    let '(rc, f) := rsync env (fs w) source destination in
    (Ok rc, log (set_fs w f) (EvRsync source destination rc)).

Definition pwd_getpwnam (name : string) : M (Z * Z) :=
  match getpwnam env name with
  | Some ids => ret ids
  | None => raise KeyError
  end.

(** [Model.objects.get(...)] on the rows a filter selects. *)
Definition objects_get {A} (model : string) (selected : list A) : M A :=
  match selected with
  | [] => raise (DoesNotExist model)
  | [x] => ret x
  | _ :: _ :: _ => raise (MultipleObjectsReturned model)
  end.

Definition Settings_get_value (name : string) : M string :=
  fun w =>
    objects_get "Settings"
      (map snd (filter (fun kv => String.eqb (fst kv) name) (settings w))) w.

Definition Location_get (u : string) : M Store.Location :=
  fun w =>
    objects_get "Location"
      (filter (fun l => String.eqb (Store.location_uuid l) u) (locations w)) w.

Definition Pipeline_get (u : string) : M Store.Pipeline :=
  fun w =>
    objects_get "Pipeline"
      (filter (fun p => String.eqb (Store.pipeline_uuid p) u) (pipelines w)) w.

(** [Pipeline.objects.first()] *)
Definition Pipeline_first : M (option Store.Pipeline) :=
  fun w => (Ok (List.hd_error (pipelines w)), w).

Definition Package_filter (u : string) : M (list Store.Package) :=
  fun w => (Ok (Store.filter_uuid u (packages w)), w).

Definition Package_filter_delete (u : string) : M unit :=
  fun w => (Ok tt, log (set_packages w (Store.delete_uuid u (packages w)))
                       (EvDelete u)).

(** Rows committed by other importers take effect under the same
    uniqueness rule. *)
Definition commit_others (new rows : list Store.Package) : list Store.Package :=
  fold_left (fun acc p => match Store.insert p acc with
                          | Ok acc' => acc'
                          | Raise _ => acc
                          end) new rows.

(** Modelled from the spec: [Package.save()] of [locations/models], which
    is not among the sources: the save of a new record, atomic in the
    record store, after whatever other importers committed in the
    meantime (the head of [others]). *)
Definition rows_at_save (w : World) : list Store.Package :=
  commit_others (match others w with [] => [] | o :: _ => o end) (packages w).

Definition Package_save (inst : Store.Package) : M unit :=
  fun w =>
    let rows := rows_at_save w in
    let w := set_others (set_packages w rows) (List.tl (others w)) in
    match Store.insert inst rows with
    | Ok rows' => (Ok tt, log (set_packages w rows') (EvSave inst true))
    | Raise e => (Raise e, log w (EvSave inst false))
    end.

Fixpoint for_each {A} (l : list A) (body : A -> M unit) : M unit :=
  match l with
  | [] => ret tt
  | x :: r => body x ;; for_each r body
  end.

(** [utils.recalculate_size(aip_path)], as [import_aip] calls it.
    [common/utils.py] defines no [recalculate_size] and imports none: the
    lookup of the name in the module raises [AttributeError] before
    anything is computed. *)
Definition recalculate_size (aip_path : string) : M Z :=
  raise AttributeError.

End Primitives.

(* ================================================================= *)
(** ** common/management/commands/import_aip.py *)

Section ImportAip.

Variable env : Env.

Import Store.

Definition DEFAULT_AS_LOCATION : string := "default_AS_location".
Definition ESC : string := String (ascii_of_nat 27) EmptyString.
Definition ANSI_HEADER : string := ESC ++ "[95m".
Definition ANSI_OKGREEN : string := ESC ++ "[92m".
Definition ANSI_WARNING : string := ESC ++ "[93m".
Definition ANSI_FAIL : string := ESC ++ "[91m".
Definition ANSI_ENDC : string := ESC ++ "[0m".

Definition header (s : string) : string := ANSI_HEADER ++ s ++ ANSI_ENDC.
Definition okgreen (s : string) : string := ANSI_OKGREEN ++ s ++ ANSI_ENDC.
Definition warning (s : string) : string := ANSI_WARNING ++ s ++ ANSI_ENDC.
Definition fail (s : string) : string := ANSI_FAIL ++ s ++ ANSI_ENDC.

Definition is_compressed (aip_path : string) : M bool :=
  os_path_isfile env aip_path.

Definition decompress (aip_path : string) : M string :=
  if negb (Py.endswith aip_path ".tar.gz") then
    raise (ImportAIPException ("Unable to decompress the AIP at " ++ aip_path))
  else
    temp_dir <- tempfile_mkdtemp env ;;
    names <- tarfile_getnames env aip_path ;;
    let aip_root_dir := PosixPath2.commonprefix names in
    tarfile_extractall env aip_path temp_dir ;;
    ret (PosixPath.join2 temp_dir [aip_root_dir]).

Definition confirm_aip_exists (aip_path : string) : M unit :=
  found <- os_path_exists env aip_path ;;
  if negb found then
    raise (ImportAIPException ("There is nothing at " ++ aip_path))
  else ret tt.

Definition decompress_aip (aip_path : string) : M string :=
  compressed <- is_compressed aip_path ;;
  if compressed then decompress aip_path
  else ret aip_path.

Definition validate (aip_path : string) : M unit :=
  valid <- bagit_is_valid env aip_path ;;
  if negb valid then
    raise (ImportAIPException
             ("The AIP at " ++ aip_path ++ " is not a valid Bag; aborting."))
  else ret tt.

Definition get_aip_mets_path (aip_path : string) : M string :=
  aip_mets_path <- glob_glob env (PosixPath.join2 aip_path ["data"; "METS*xml"]) ;;
  match aip_mets_path with
  | [] => raise (ImportAIPException
                   ("Unable to find a METS file in " ++ aip_path ++ "."))
  | first :: _ => ret first
  end.

Definition get_aip_uuid (aip_mets_path : string) : string :=
  Py.slice 5 41 (PosixPath2.basename aip_mets_path).

Definition get_aip_storage_location_path (aip_storage_location_uuid : string)
  : M string :=
  aip_storage_location_uuid <-
    (if String.eqb aip_storage_location_uuid DEFAULT_AS_LOCATION
     then Settings_get_value aip_storage_location_uuid
     else ret aip_storage_location_uuid) ;;
  try_except (l <- Location_get aip_storage_location_uuid ;; ret (full_path l))
    (is_DoesNotExist "Location")
    (raise (ImportAIPException
              ("Unable to find an AIP storage location matching "
                 ++ aip_storage_location_uuid ++ "."))).

Definition get_aip_storage_location (aip_storage_location_uuid : string)
  : M Location :=
  aip_storage_location_uuid <-
    (if String.eqb aip_storage_location_uuid DEFAULT_AS_LOCATION
     then Settings_get_value aip_storage_location_uuid
     else ret aip_storage_location_uuid) ;;
  try_except (Location_get aip_storage_location_uuid)
    (is_DoesNotExist "Location")
    (raise (ImportAIPException
              ("Unable to find an AIP storage location matching "
                 ++ aip_storage_location_uuid ++ "."))).

Definition mkdir (aip_new_home : string) : M unit :=
  try_except (os_makedirs env aip_new_home)
    is_OSError
    (shutil_rmtree env aip_new_home ;;
     os_makedirs env aip_new_home).

Definition fix_ownership (aip_model_inst : Package)
           (aip_storage_location_path : string) : M unit :=
  let first_uuid_dir := Py.slice 0 4 (uuid aip_model_inst) in
  am <- pwd_getpwnam env "archivematica" ;;
  let am_uid := fst am in
  am <- pwd_getpwnam env "archivematica" ;;
  let am_gid := snd am in
  listing <- os_walk env (PosixPath.join2 aip_storage_location_path [first_uuid_dir]) ;;
  for_each listing
    (fun '(root, dirs, files) =>
       os_chown env root am_uid am_gid ;;
       for_each dirs
         (fun dir_ => os_chown env (PosixPath.join2 root [dir_]) am_uid am_gid) ;;
       for_each files
         (fun file_ => os_chown env (PosixPath.join2 root [file_]) am_uid am_uid)).

Definition copy_rsync (source destination : string) : M unit :=
  let source := PosixPath.join2 source [EmptyString] in
  returncode <- run_rsync env source destination ;;
  if negb (Z.eqb returncode 0) then
    raise (ImportAIPException
             ("Unable to move the AIP from " ++ source ++ " to "
                ++ destination ++ "."))
  else ret tt.

(** The function assigns [current_path] on the instance it is given; the
    instance so changed is returned. *)
Definition copy_aip_to_aip_storage_location (aip_model_inst : Package)
           (aip_path : string) (aip_storage_location : Location) : M Package :=
  let aip_storage_location_path := full_path aip_storage_location in
  aip_uuid_path <- lift (uuid_to_path (uuid aip_model_inst)) ;;
  let aip_new_home := PosixPath.join2 aip_storage_location_path [aip_uuid_path] in
  mkdir aip_new_home ;;
  let aip_model_inst :=
    set_current_path aip_model_inst
      (PosixPath.join2 aip_uuid_path
         [PosixPath2.basename (PosixPath2.normpath aip_path)]) in
  copy_rsync aip_path
    (PosixPath.join2 aip_storage_location_path [current_path aip_model_inst]) ;;
  fix_ownership aip_model_inst aip_storage_location_path ;;
  ret aip_model_inst.

(** An absent or empty [--pipeline] is false in Python. *)
Definition get_pipeline (adoptive_pipeline_uuid : option string)
  : M (option Pipeline) :=
  match adoptive_pipeline_uuid with
  | Some u =>
      if negb (String.eqb u "") then
        try_except (p <- Pipeline_get u ;; ret (Some p))
          (is_DoesNotExist "Pipeline")
          (raise (ImportAIPException ("There is no pipeline with uuid " ++ u)))
      else Pipeline_first
  | None => Pipeline_first
  end.

Definition save_aip_model_instance (aip_model_inst : Package) : M unit :=
  try_except (Package_save aip_model_inst)
    is_IntegrityError
    (Package_filter_delete (uuid aip_model_inst) ;;
     Package_save aip_model_inst).

Definition confirms (user_response : string) : bool :=
  let r := Py.lower user_response in
  String.eqb r "y" || String.eqb r "yes".

Definition duplicate_prompt (aip_uuid : string) : string :=
  warning ("An AIP with UUID " ++ aip_uuid
             ++ " already exists in this Storage Service? If you"
             ++ " want to import this AIP anyway (and destroy the existing one),"
             ++ " then enter " ++ String (ascii_of_nat 34) "y"
             ++ String (ascii_of_nat 34) " or "
             ++ String (ascii_of_nat 34) "yes"
             ++ String (ascii_of_nat 34) ": ").

Definition check_if_aip_already_exists (aip_uuid : string) : M unit :=
  duplicates <- Package_filter aip_uuid ;;
  match duplicates with
  | _ :: _ =>
      let prompt := duplicate_prompt aip_uuid in
      user_response <- raw_input prompt ;;
      if negb (confirms user_response) then
        raise (ImportAIPException
                 "Aborting importation of an already existing AIP")
      else ret tt
  | [] => ret tt
  end.

Definition import_aip (aip_path aip_storage_location_uuid : string)
           (adoptive_pipeline_uuid : option string) : M unit :=
  confirm_aip_exists aip_path ;;
  aip_path <- decompress_aip aip_path ;;
  validate aip_path ;;
  aip_mets_path <- get_aip_mets_path aip_path ;;
  let aip_uuid := get_aip_uuid aip_mets_path in
  check_if_aip_already_exists aip_uuid ;;
  aip_storage_location <- get_aip_storage_location aip_storage_location_uuid ;;
  size_ <- recalculate_size aip_path ;;
  origin <- get_pipeline adoptive_pipeline_uuid ;;
  let aip_model_inst :=
    mkPackage aip_uuid "AIP" "UPLOADED" size_ origin aip_storage_location
              EmptyString in
  aip_model_inst <- copy_aip_to_aip_storage_location aip_model_inst aip_path
                                                     aip_storage_location ;;
  save_aip_model_instance aip_model_inst ;;
  print (okgreen ("Successfully imported AIP " ++ aip_uuid ++ ".")).

(** [Command.handle]: an [ImportAIPException] is printed, anything else
    propagates. *)
Definition handle (aip_path aip_storage_location : string)
           (pipeline : option string) : M unit :=
  print (header ("Attempting to import the AIP at " ++ aip_path ++ ".")) ;;
  fun w =>
    match import_aip aip_path aip_storage_location pipeline w with
    | (Raise (ImportAIPException err), w') => print (fail err) w'
    | r => r
    end.

(** The steps of [import_aip] up to the extraction of the identifier: the
    decompressed path and the UUID read off the METS file name. *)
Definition identify_aip (aip_path : string) : M (string * string) :=
  confirm_aip_exists aip_path ;;
  aip_path <- decompress_aip aip_path ;;
  validate aip_path ;;
  aip_mets_path <- get_aip_mets_path aip_path ;;
  ret (aip_path, get_aip_uuid aip_mets_path).

(** The steps between the duplicate check and the save: the record as it
    is handed to [save_aip_model_instance]. *)
Definition place_aip (aip_path aip_uuid aip_storage_location_uuid : string)
           (adoptive_pipeline_uuid : option string) : M Package :=
  aip_storage_location <- get_aip_storage_location aip_storage_location_uuid ;;
  size_ <- recalculate_size aip_path ;;
  origin <- get_pipeline adoptive_pipeline_uuid ;;
  let aip_model_inst :=
    mkPackage aip_uuid "AIP" "UPLOADED" size_ origin aip_storage_location
              EmptyString in
  copy_aip_to_aip_storage_location aip_model_inst aip_path aip_storage_location.

(** Everything [import_aip] does before it saves. *)
Definition prepare_aip (aip_path aip_storage_location_uuid : string)
           (adoptive_pipeline_uuid : option string) : M Package :=
  ident <- identify_aip aip_path ;;
  check_if_aip_already_exists (snd ident) ;;
  place_aip (fst ident) (snd ident) aip_storage_location_uuid
            adoptive_pipeline_uuid.

End ImportAip.

(* ================================================================= *)
(** ** Vocabulary of the properties *)

(** The textual form of a UUID: 36 characters, hexadecimal digits in five
    groups of 8, 4, 4, 4 and 12 separated by dashes. *)
Definition is_hexdigit (c : ascii) : bool :=
  let n := nat_of_ascii c in
  ((48 <=? n) && (n <=? 57) || (97 <=? n) && (n <=? 102)
   || (65 <=? n) && (n <=? 70))%nat.

Definition dash_position (i : nat) : bool :=
  ((i =? 8) || (i =? 13) || (i =? 18) || (i =? 23))%nat.

Fixpoint uuid_chars (i : nat) (s : string) : bool :=
  match s with
  | EmptyString => (i =? 36)%nat
  | String c r =>
      (if dash_position i then Ascii.eqb c "-" else is_hexdigit c)
      && uuid_chars (S i) r
  end.

Definition is_uuid (s : string) : bool := uuid_chars 0 s.

(** A string of dashes only, the empty string included. *)
Fixpoint only_dashes (s : string) : bool :=
  match s with
  | EmptyString => true
  | String c r => Ascii.eqb c "-" && only_dashes r
  end.

(** The events of a trace that write to the record store. *)
Definition store_writes (t : list event) : list event := filter is_store_write t.

(** The record store as the command sees it. *)
Definition store_view (w : World) :=
  (packages w, others w, store_writes (trace w)).

(** Store and trace together: nothing was written, moved or removed. *)
Definition quiet_view (w : World) := (packages w, others w, trace w).

(** [m] leaves a view of the world as it found it, whatever its outcome. *)
Definition keeps_view {X A : Type} (view : World -> X) (m : M A) : Prop :=
  forall w r w', m w = (r, w') -> view w' = view w.

(** The list comprehension of [uuid_to_path], unrolled: [k] slices of four
    characters. *)
Fixpoint chunks (k : nat) (s : string) : list string :=
  match k with
  | O => []
  | S k' => substring 0 4 s :: chunks k' (Py.drop 4 s)
  end.

(* ================================================================= *)
(** ** A small installation to run the command on *)

Module Demo.
Import Store.

Definition aip_uuid : string := "e0a41934-c1d7-45ba-9a95-a7531c063ed1".

(** The bag inside [/tmp/archive.tar.gz]. *)
Definition bag : Fs.node :=
  Fs.Dir 0 0
    [ ("bagit.txt", Fs.File 0 0 "BagIt-Version: 0.97");
      ("manifest-md5.txt", Fs.File 0 0 "5d41402abc4b2a76b9719d911017c592  data/objects/a.txt");
      ("data", Fs.Dir 0 0
         [ ("METS.e0a41934-c1d7-45ba-9a95-a7531c063ed1.xml", Fs.File 0 0 "<mets/>");
           ("objects", Fs.Dir 0 0 [("a.txt", Fs.File 0 0 "hello")]) ]) ].

Definition root0 : Fs.node :=
  Fs.Dir 0 0
    [ ("tmp", Fs.Dir 0 0 [("archive.tar.gz", Fs.File 0 0 "gzip");
                          ("archive.zip", Fs.File 0 0 "PK")]);
      ("var", Fs.Dir 0 0 [("store", Fs.Dir 0 0 [])]) ].

Definition dirname (p : string) : string :=
  PosixPath2.str_join "/" (List.removelast (PosixPath2.split "/" p)).

(** The process runs in [/tmp]. *)
Definition cwd : Fs.position := ["tmp"].

(** A node put under the last name of a path, in place of what bears the
    name. *)
Definition put_entry (name : string) (v : Fs.node) (n : Fs.node) : Fs.node :=
  match n with
  | Fs.Dir u g es =>
      Fs.Dir u g (match Fs.find_entry name es with
                  | Some _ => Fs.replace_entry name v es
                  | None => (es ++ [(name, v)])%list
                  end)
  | Fs.File _ _ _ => n
  end.

Definition install (f : Fs.node) (p : string) (n : Fs.node) : res Fs.node :=
  match Fs.lookup_parent cwd f p with
  | Fs.Got (q, _) => Ok (Fs.update (put_entry (Fs.last_part p) n) f q)
  | Fs.Err _ => Raise IOError
  end.

Definition demo_mkdtemp (f : Fs.node) : res (string * Fs.node) :=
  match Fs.mkdir 0 0 cwd f "/tmp/tmpAIP" with
  | Fs.Got f' => Ok ("/tmp/tmpAIP", f')
  | Fs.Err _ => Raise OSError
  end.

Definition demo_getnames (f : Fs.node) (archive : string) : res (list string) :=
  if Fs.isfile cwd f archive
  then Ok ["archive"; "archive/bagit.txt"; "archive/manifest-md5.txt";
           "archive/data"; "archive/data/objects"; "archive/data/objects/a.txt"]
  else Raise IOError.

Definition demo_extractall (f : Fs.node) (archive path : string) : res Fs.node :=
  install f (PosixPath.join2 path ["archive"]) bag.

Definition demo_bag_is_valid (f : Fs.node) (path : string) : res bool :=
  if Fs.exists_ cwd f (PosixPath.join2 path ["bagit.txt"])
  then Ok (Fs.exists_ cwd f (PosixPath.join2 path ["manifest-md5.txt"]))
  else Raise BagError.

Definition demo_glob (f : Fs.node) (pattern : string) : list string :=
  let d := dirname pattern in
  match Fs.stat cwd f d with
  | Fs.Got (Fs.Dir _ _ es) =>
      map (fun n => PosixPath.join2 d [n])
          (filter (fun n => Py.startswith n "METS" && Py.endswith n "xml")
                  (map fst es))
  | _ => []
  end.

Definition demo_rsync (f : Fs.node) (source destination : string) : Z * Fs.node :=
  match Fs.stat cwd f source with
  | Fs.Got n =>
      match install f destination n with
      | Ok f' => (0%Z, f')
      | Raise _ => (23%Z, f)
      end
  | Fs.Err _ => (23%Z, f)
  end.

Definition rsync_interrupted (f : Fs.node) (source destination : string)
  : Z * Fs.node := (20%Z, f).

Definition demo_getpwnam (name : string) : option (Z * Z) :=
  if String.eqb name "archivematica" then Some (333%Z, 334%Z) else None.

Definition env : Env :=
  mkEnv demo_mkdtemp demo_getnames demo_extractall demo_bag_is_valid
        demo_glob demo_rsync demo_getpwnam 0 0 cwd.

Definition env_rsync_fails : Env :=
  mkEnv demo_mkdtemp demo_getnames demo_extractall demo_bag_is_valid
        demo_glob rsync_interrupted demo_getpwnam 0 0 cwd.

Definition L1 : Location := mkLocation "L1" "/var/store".
Definition P1 : Pipeline := mkPipeline "b25f6b71-3ebf-4fcc-823c-1feb0a2553dd".

Definition world0 : World :=
  mkWorld root0 [] [L1] [P1] [(DEFAULT_AS_LOCATION, "L1")] [] [] [] [].

(** An earlier import of the same UUID is on record. *)
Definition earlier : Package :=
  mkPackage aip_uuid "AIP" "UPLOADED" 7 None L1 "e0a4/1934/old_name".

Definition world_with_earlier (answers : list string) : World :=
  mkWorld root0 [earlier] [L1] [P1] [(DEFAULT_AS_LOCATION, "L1")] answers [] [] [].

Definition destination : string :=
  "/var/store/e0a4/1934/c1d7/45ba/9a95/a753/1c06/3ed1".

(** The archive is unpacked already, and the destination directory is
    there and holds a file. *)
Definition root_extracted : Fs.node :=
  match demo_mkdtemp root0 with
  | Ok (d, f) =>
      match demo_extractall f "/tmp/archive.tar.gz" d with
      | Ok f' => f'
      | Raise _ => f
      end
  | Raise _ => root0
  end.

Definition root_occupied : Fs.node :=
  match Fs.makedirs 0 0 cwd root_extracted destination with
  | (Fs.Got _, f) =>
      match install f (PosixPath.join2 destination ["keep.txt"])
                    (Fs.File 0 0 "precious") with
      | Ok f' => f'
      | Raise _ => f
      end
  | (Fs.Err _, _) => root_extracted
  end.

Definition new_record : Package :=
  mkPackage aip_uuid "AIP" "UPLOADED" 12 (Some P1) L1 EmptyString.

(** The archive is unpacked already; nothing is placed yet. *)
Definition world_extracted : World :=
  mkWorld root_extracted [] [L1] [P1] [(DEFAULT_AS_LOCATION, "L1")] [] [] [] [].

(** The bag is copied to its destination, every node still owned by the
    importing process. *)
Definition world_copied : World :=
  snd ((mkdir env destination ;;
        copy_rsync env "/tmp/tmpAIP/archive"
                   (PosixPath.join2 destination ["archive"])) world_extracted).

Definition world_occupied : World :=
  mkWorld root_occupied [] [L1] [P1] [(DEFAULT_AS_LOCATION, "L1")] [] [] [] [].

End Demo.

(* ================================================================= *)
(** ** Views of a tree *)

Module FsMore.
Import Fs.

(** The regular files at or below a node: where they are and what they
    hold. *)
Fixpoint file_list (n : node) : list (list string * string) :=
  match n with
  | File _ _ d => [([], d)]
  | Dir _ _ es =>
      (fix below (l : list (string * node)) : list (list string * string) :=
         match l with
         | [] => []
         | (k, ch) :: r =>
             (map (fun f => (k :: fst f, snd f)) (file_list ch) ++ below r)%list
         end) es
  end.

(** A tree without its owners: names, nesting and data. *)
Fixpoint shape (n : node) : node :=
  match n with
  | File _ _ d => File 0 0 d
  | Dir _ _ es => Dir 0 0 (map (fun e => (fst e, shape (snd e))) es)
  end.

End FsMore.

(* ================================================================= *)
(** ** common/utils.py: removedirs *)

Section Removedirs.

Variable env : Env.

(** The loop shared by [os.removedirs] and [utils.removedirs]:
    [while head and tail: try: rmdir(locate(head)) except error: break;
    head, tail = split(head)]. [None] when the fuel runs out before the
    loop ends. *)
Fixpoint prune_loop (fuel : nat) (locate : string -> string)
         (head tail : string) (w : World) : option (res unit * World) :=
  match fuel with
  | O => None
  | S fuel' =>
      if negb (String.eqb head "") && negb (String.eqb tail "") then
        match os_rmdir env (locate head) w with
        | (Ok _, w') =>
            let '(head', tail') := OsPath.split head in
            prune_loop fuel' locate head' tail' w'
        | (Raise OSError, w') => Some (Ok tt, w')
        | (Raise e, w') => Some (Raise e, w')
        end
      else Some (Ok tt, w)
  end.

(** [os.removedirs] *)
Definition os_removedirs (name : string) (w : World) : option (res unit * World) :=
  match os_rmdir env name w with
  | (Ok _, w') =>
      let '(head, tail) := split_twice name in
      prune_loop (S (String.length name)) (fun h => h) head tail w'
  | (Raise e, w') => Some (Raise e, w')
  end.

(** [utils.removedirs]; [base] absent or empty is false in Python. *)
Definition removedirs (relative_path : string) (base : option string) (w : World)
  : option (res unit * World) :=
  match base with
  | None | Some EmptyString => os_removedirs relative_path w
  | Some b =>
      let w := snd (try_except (os_rmdir env (PosixPath.join2 b [relative_path]))
                               is_OSError (ret tt) w) in
      let '(head, tail) := split_twice relative_path in
      prune_loop (S (String.length relative_path))
                 (fun h => PosixPath.join2 b [h]) head tail w
  end.

End Removedirs.

(* ================================================================= *)
(** ** common/utils.py: get_compression *)

Module Compression.
Import Xml.

Definition COMPRESSION_7Z_BZIP : string := "7z with bzip".
Definition COMPRESSION_7Z_LZMA : string := "7z with lzma".
Definition COMPRESSION_TAR : string := "tar".
Definition COMPRESSION_TAR_BZIP2 : string := "tar bz2".
Definition COMPRESSION_ALGORITHMS : list string :=
  [COMPRESSION_7Z_BZIP; COMPRESSION_7Z_LZMA; COMPRESSION_TAR; COMPRESSION_TAR_BZIP2].

(** The outcome of a call that may fail on [None.get]. *)
Inductive outcome (A : Type) : Type :=
| Returned (a : A)
| AttributeError.
Arguments Returned {A} a.
Arguments AttributeError {A}.

Definition text_of (e : element) : string :=
  match e with Element _ _ _ text _ _ => text end.
Definition attrib_of (e : element) : list (string * string) :=
  match e with Element _ _ attrib _ _ _ => attrib end.

(** [doc.find('.//ns:tag')]: the first match in document order. *)
Definition find (doc : element) (ns tag : string) : option element :=
  List.hd_error (filter (named ns tag) (descendants doc)).

(** [doc.findtext('.//ns:tag')]: the text of the first match, [None]
    without a match. *)
Definition findtext (doc : element) (ns tag : string) : option string :=
  option_map text_of (find doc ns tag).

(** [e.get(key)] *)
Fixpoint get (l : list (string * string)) (key : string) : option string :=
  match l with
  | [] => None
  | (k, v) :: r => if String.eqb k key then Some v else get r key
  end.

Definition is_text (o : option string) (s : string) : bool :=
  match o with
  | Some t => String.eqb t s
  | None => false
  end.

(** [get_compression] on the parsed pointer file. *)
Definition get_compression (doc : element) : outcome string :=
  let puid := findtext doc Mets.NS_premis "formatRegistryKey" in
  if is_text puid "fmt/484" then
    match find doc Mets.NS_mets "transformFile" with
    | None => AttributeError
    | Some transform_file =>
        let algo := get (attrib_of transform_file) "TRANSFORMALGORITHM" in
        if is_text algo "bzip2" then Returned COMPRESSION_7Z_BZIP
        else if is_text algo "lzma" then Returned COMPRESSION_7Z_LZMA
        else Returned COMPRESSION_7Z_BZIP
    end
  else if is_text puid "x-fmt/268" then Returned COMPRESSION_TAR_BZIP2
  else Returned COMPRESSION_7Z_BZIP.

End Compression.

(* ================================================================= *)
(** ** common/utils.py: download_file_stream *)

Module Download.

(** A Django response: the 404 with its message, or the file response with
    the bytes of the opened file and the headers set on it. A header holds
    text. *)
Inductive HttpResponse : Type :=
| HttpResponseNotFound (content : string)
| FileResponse (content : string) (content_type : string)
               (content_disposition : string) (content_length : string).

(** [response[header] = value]: text is stored as it is, any other value
    as [str(value)]. *)
Definition header_of_guess (mimetype : option string) : string :=
  match mimetype with
  | Some t => t
  | None => "None"
  end.

Definition header_of_size (n : nat) : string := Mets.decimal n.

Section WithMimetypes.

Variable env : Env.

(** [mimetypes.guess_type(filename)[0]] *)
Variable guess_type : string -> option string.

(** [open(filepath, 'rb')]: the bytes of a regular file. *)
Definition open_rb (filepath : string) : M string :=
  fun w =>
    match Fs.stat (cwd env) (fs w) filepath with
    | Fs.Got (Fs.File _ _ d) => (Ok d, w)
    | _ => (Raise IOError, w)
    end.

Definition download_file_stream (filepath : string) (temp_dir : option string)
  : M HttpResponse :=
  found <- os_path_exists env filepath ;;
  if negb found then ret (HttpResponseNotFound "File not found")
  else
    let filename := PosixPath2.basename filepath in
    content <- open_rb filepath ;;
    let mimetype := guess_type filename in
    let disposition :=
      "attachment; filename=" ++ String (ascii_of_nat 34) filename
        ++ String (ascii_of_nat 34) EmptyString in
    let response :=
      FileResponse content (header_of_guess mimetype) disposition
                   (header_of_size (String.length content)) in
    (match temp_dir with
     | Some d =>
         if negb (String.eqb d "") then
           there <- os_path_exists env d ;;
           if there then shutil_rmtree_ignore_errors env d else ret tt
         else ret tt
     | None => ret tt
     end) ;;
    ret response.

End WithMimetypes.

End Download.

(* ================================================================= *)
(** ** More vocabulary *)

(** No two rows of the package table share a UUID. *)
Definition unique_uuids (rows : list Store.Package) : Prop :=
  forall u, (List.length (Store.filter_uuid u rows) <= 1)%nat.

(** What was typed and what was printed. *)
Definition terminal_view (w : World) := (stdin w, stdout w).

(** The regular files of the world, and the tree without its owners. *)
Definition files_view (w : World) := FsMore.file_list (fs w).
Definition shape_view (w : World) := FsMore.shape (fs w).

(** The outcomes of [save_aip_model_instance], as store operations. *)
Definition save_patterns (inst : Store.Package) : list (list event) :=
  [ [EvSave inst true];
    [EvSave inst false; EvDelete (Store.uuid inst); EvSave inst true];
    [EvSave inst false; EvDelete (Store.uuid inst); EvSave inst false] ].

(** [p] is an initial part of [s]. *)
Definition is_prefix (p s : string) : Prop := exists t, s = p ++ t.

(** A series of [mets_add_event] calls on one amdSec; each call comes with
    its clock reading, its fresh UUID, and the event's type, detail and
    outcome note. *)
Definition add_events (ss_version : string)
           (calls : list (string * string * (string * string * string)))
           (amdsec : Xml.element) : Xml.element :=
  fold_left
    (fun doc c =>
       Mets.mets_add_event ss_version (fst (fst c)) (snd (fst c)) doc
                           (fst (fst (snd c))) (snd (fst (snd c))) (snd (snd c)))
    calls amdsec.

(** No element below [doc] is an [agentIdentifier] of the METS namespace. *)
Definition no_mets_agent_identifier (doc : Xml.element) : bool :=
  forallb (fun e => negb (Xml.named Mets.NS_mets "agentIdentifier" e))
          (Xml.descendants doc).

(** Sample documents. *)
Module Samples.
Import Xml.

(** An [agentIdentifier] written in the METS namespace. *)
Definition mets_agent_identifier (ss_version : string) : element :=
  E Mets.NS_mets "agentIdentifier" []
    [ Etext Mets.NS_mets "agentIdentifierType" "storage service";
      Etext Mets.NS_mets "agentIdentifierValue"
            (Mets._storage_service_agent ss_version) ].

Definition amdsec_with_mets_agent (ss_version : string) : element :=
  E Mets.NS_mets "amdSec" []
    [ E Mets.NS_mets "digiprovMD" [("ID", "digiprovMD_0")]
        [ mets_agent_identifier ss_version ] ].

(** Pointer files: a 7-Zip package compressed with lzma, one whose
    [transformFile] is missing, and a bzipped tar. *)
Definition format_key (puid : string) : element :=
  E Mets.NS_premis "format" []
    [ E Mets.NS_premis "formatRegistry" []
        [ Etext Mets.NS_premis "formatRegistryName" "PRONOM";
          Etext Mets.NS_premis "formatRegistryKey" puid ] ].

Definition pointer_7z_lzma : element :=
  E Mets.NS_mets "mets" []
    [ format_key "fmt/484";
      E Mets.NS_mets "transformFile"
        [("TRANSFORMORDER", "1"); ("TRANSFORMTYPE", "decompression");
         ("TRANSFORMALGORITHM", "lzma")] [] ].

Definition pointer_7z_bare : element :=
  E Mets.NS_mets "mets" [] [ format_key "fmt/484" ].

Definition pointer_tar_bz2 : element :=
  E Mets.NS_mets "mets" [] [ format_key "x-fmt/268" ].

End Samples.

(** The settings, locations and pipelines the command consults. *)
Definition config_view (w : World) := (settings w, locations w, pipelines w).

(** An installation without the [archivematica] account. *)
Definition env_without_account : Env :=
  mkEnv Demo.demo_mkdtemp Demo.demo_getnames Demo.demo_extractall
        Demo.demo_bag_is_valid Demo.demo_glob Demo.demo_rsync
        (fun _ => None) 0 0 Demo.cwd.

(** An installation whose default location was never set. *)
Definition world_without_default : World :=
  mkWorld Demo.root0 [] [Demo.L1] [Demo.P1] [] [] [] [] [].

(** Two directories that are not importable: a bag without its manifest,
    and a bag without a METS file. *)
Definition world_with_bad_bags : World :=
  mkWorld
    (Fs.Dir 0 0
       [ ("tmp", Fs.Dir 0 0
            [ ("broken", Fs.Dir 0 0
                 [("bagit.txt", Fs.File 0 0 "BagIt-Version: 0.97")]);
              ("nomets", Fs.Dir 0 0
                 [ ("bagit.txt", Fs.File 0 0 "BagIt-Version: 0.97");
                   ("manifest-md5.txt", Fs.File 0 0 "");
                   ("data", Fs.Dir 0 0 []) ]) ]);
         ("var", Fs.Dir 0 0 [("store", Fs.Dir 0 0 [])]) ])
    [] [Demo.L1] [Demo.P1] [(DEFAULT_AS_LOCATION, "L1")] [] [] [] [].

(* ================================================================= *)
(** * Properties *)

(** ** Strings *)

Module PyFacts.

Lemma append_nil_r s : s ++ "" = s.
Proof. induction s as [|a s IH]; simpl; [reflexivity | now rewrite IH]. Qed.

Lemma append_assoc s t u : (s ++ t) ++ u = s ++ (t ++ u).
Proof. induction s as [|a s IH]; simpl; [reflexivity | now rewrite IH]. Qed.

Lemma length_append s t : length (s ++ t) = length s + length t.
Proof. induction s as [|a s IH]; simpl; [reflexivity | now rewrite IH]. Qed.

Lemma remove_char_app c s t :
  Py.remove_char c (s ++ t) = Py.remove_char c s ++ Py.remove_char c t.
Proof.
  induction s as [|a s IH]; simpl; [reflexivity|].
  destruct (Ascii.eqb a c); simpl; now rewrite IH.
Qed.

Lemma remove_char_absent c s :
  Py.contains_char c s = false -> Py.remove_char c s = s.
Proof.
  induction s as [|a s IH]; simpl; [reflexivity|].
  destruct (Ascii.eqb a c); simpl; [discriminate|].
  intros H. now rewrite IH.
Qed.

Lemma contains_char_app c s t :
  Py.contains_char c (s ++ t) = Py.contains_char c s || Py.contains_char c t.
Proof.
  induction s as [|a s IH]; simpl; [reflexivity|].
  now rewrite IH, orb_assoc.
Qed.

Lemma contains_char_remove_other c d s :
  Py.contains_char c s = false -> Py.contains_char c (Py.remove_char d s) = false.
Proof.
  induction s as [|a s IH]; simpl; [reflexivity|].
  intros H. apply orb_false_iff in H as [Ha Hs].
  destruct (Ascii.eqb a d); simpl; [auto|].
  rewrite Ha. simpl. auto.
Qed.

Lemma contains_char_substring c s : forall i m,
  Py.contains_char c s = false -> Py.contains_char c (substring i m s) = false.
Proof.
  induction s as [|a s IH]; intros i m H.
  - destruct i, m; reflexivity.
  - simpl in H. apply orb_false_iff in H as [Ha Hs].
    destruct i as [|i].
    + destruct m as [|m]; simpl; [reflexivity|].
      rewrite Ha. simpl. now apply IH.
    + simpl. now apply IH.
Qed.

Lemma substring_drop s : forall a i m,
  substring (a + i) m s = substring i m (Py.drop a s).
Proof.
  induction s as [|c s IH]; intros a i m.
  - destruct a; simpl; [reflexivity|].
    destruct i, m; reflexivity.
  - destruct a as [|a]; simpl; [reflexivity|]. apply IH.
Qed.

Lemma take_drop s : forall m, substring 0 m s ++ Py.drop m s = s.
Proof.
  induction s as [|c s IH]; intros [|m]; simpl; try reflexivity.
  now rewrite IH.
Qed.

Lemma length_drop s : forall m, length (Py.drop m s) = length s - m.
Proof.
  induction s as [|c s IH]; intros [|m]; simpl; try reflexivity. apply IH.
Qed.

Lemma prefix_slash_absent b :
  Py.contains_char "/" b = false -> Py.startswith b "/" = false.
Proof.
  destruct b as [|c b]; simpl; [reflexivity|].
  intros H. apply orb_false_iff in H as [Hc _].
  now rewrite Hc.
Qed.

End PyFacts.

(** ** posixpath.join on components without a slash *)

Module JoinFacts.
Import PyFacts.

Lemma join_step_unslash path b :
  Py.contains_char "/" b = false ->
  Py.remove_char "/" (PosixPath.join_step path b)
  = Py.remove_char "/" path ++ b.
Proof.
  intros Hb. unfold PosixPath.join_step.
  rewrite (prefix_slash_absent _ Hb).
  destruct (String.eqb path "" || Py.endswith path "/").
  - now rewrite remove_char_app, (remove_char_absent _ _ Hb).
  - rewrite !remove_char_app, (remove_char_absent _ _ Hb). reflexivity.
Qed.

Lemma join2_unslash p : forall a,
  Forall (fun b => Py.contains_char "/" b = false) p ->
  Py.remove_char "/" (PosixPath.join2 a p)
  = Py.remove_char "/" a ++ Py.concat_all p.
Proof.
  unfold PosixPath.join2.
  induction p as [|b p IH]; intros a Hp; simpl.
  - now rewrite append_nil_r.
  - inversion Hp as [|? ? Hb Hp']; subst.
    rewrite IH by assumption.
    rewrite join_step_unslash by assumption.
    now rewrite append_assoc.
Qed.

End JoinFacts.

(** ** uuid_to_path *)

Example uuid_to_path_sample :
  uuid_to_path "e0a41934-c1d7-45ba-9a95-a7531c063ed1"
  = Ok "e0a4/1934/c1d7/45ba/9a95/a753/1c06/3ed1".
Proof. reflexivity. Qed.

Example uuid_to_path_short : uuid_to_path "abcde" = Ok "abcd/e".
Proof. reflexivity. Qed.

Example uuid_to_path_empty : uuid_to_path "" = Raise TypeError.
Proof. reflexivity. Qed.

Example join_resets_on_absolute :
  PosixPath.join ["/var/store"; "e0a4"; "/tmp"; "x"] = Ok "/tmp/x".
Proof. reflexivity. Qed.

Example normpath_sample :
  PosixPath2.normpath "/tmp//tmpAIP/./archive/../bag/" = "/tmp/tmpAIP/bag".
Proof. reflexivity. Qed.

Example basename_sample :
  PosixPath2.basename "/tmp/x/METS.e0a41934-c1d7-45ba-9a95-a7531c063ed1.xml"
  = "METS.e0a41934-c1d7-45ba-9a95-a7531c063ed1.xml".
Proof. reflexivity. Qed.

Example get_aip_uuid_sample :
  get_aip_uuid "/tmp/x/data/METS.e0a41934-c1d7-45ba-9a95-a7531c063ed1.xml"
  = "e0a41934-c1d7-45ba-9a95-a7531c063ed1".
Proof. reflexivity. Qed.

Module UuidPath.
Import PyFacts JoinFacts.

Lemma drop_drop s : forall a b, Py.drop (a + b) s = Py.drop b (Py.drop a s).
Proof.
  induction s as [|c s IH]; intros [|a] b; simpl; try reflexivity.
  - destruct b; reflexivity.
  - apply IH.
Qed.

Lemma comprehension_chunks s : forall k a,
  map (fun i => Py.slice i (i + 4) s) (Py.range_from a 4 k)
  = chunks k (Py.drop a s).
Proof.
  induction k as [|k IH]; intros a; simpl; [reflexivity|].
  f_equal.
  - unfold Py.slice. replace (a + 4 - a) with 4 by lia.
    rewrite <- (substring_drop s a 0 4). now rewrite Nat.add_0_r.
  - rewrite IH. now rewrite drop_drop.
Qed.

Lemma segments_chunks s : segments s = chunks ((length s + 3) / 4) s.
Proof.
  unfold segments, Py.range_step. simpl (4 - 1).
  now rewrite comprehension_chunks.
Qed.

Lemma concat_chunks : forall k s,
  length s <= 4 * k -> Py.concat_all (chunks k s) = s.
Proof.
  induction k as [|k IH]; intros s H; cbn [chunks Py.concat_all].
  - destruct s; [reflexivity | simpl in H; lia].
  - rewrite IH; [apply take_drop|]. rewrite length_drop. lia.
Qed.

Lemma chunks_unslashed : forall k s,
  Py.contains_char "/" s = false ->
  Forall (fun b => Py.contains_char "/" b = false) (chunks k s).
Proof.
  induction k as [|k IH]; intros s H; cbn [chunks]; constructor.
  - now apply contains_char_substring.
  - apply IH. rewrite <- (take_drop s 4), contains_char_app in H.
    now apply orb_false_iff in H.
Qed.

Lemma quarters n : n <= 4 * ((n + 3) / 4).
Proof.
  pose proof (Nat.div_mod_eq (n + 3) 4) as E.
  pose proof (Nat.mod_upper_bound (n + 3) 4 ltac:(lia)). lia.
Qed.

Lemma segments_concat s : Py.concat_all (segments s) = s.
Proof. rewrite segments_chunks. apply concat_chunks, quarters. Qed.

Lemma segments_nil s : segments s = [] <-> s = "".
Proof.
  split.
  - intros E. rewrite <- (segments_concat s), E. reflexivity.
  - intros ->. reflexivity.
Qed.

(** Without a slash in the identifier, the path read without its slashes
    is the identifier read without its dashes. *)
Lemma uuid_to_path_unslash uuid p :
  Py.contains_char "/" uuid = false ->
  uuid_to_path uuid = Ok p ->
  Py.remove_char "/" p = Py.remove_char "-" uuid.
Proof.
  intros Hs. unfold uuid_to_path.
  set (u := Py.remove_char "-" uuid).
  assert (Hu : Py.contains_char "/" u = false)
    by now apply contains_char_remove_other.
  pose proof (segments_concat u) as Hc.
  pose proof (chunks_unslashed ((length u + 3) / 4) u Hu) as Hf.
  rewrite <- segments_chunks in Hf.
  destruct (segments u) as [|a l]; simpl; [discriminate|].
  intros E. injection E as <-.
  inversion Hf as [|? ? Ha Hl]; subst.
  rewrite join2_unslash by assumption.
  rewrite (remove_char_absent _ _ Ha). exact Hc.
Qed.

Lemma uuid_to_path_raises uuid e :
  uuid_to_path uuid = Raise e ->
  e = TypeError /\ Py.remove_char "-" uuid = "".
Proof.
  unfold uuid_to_path.
  destruct (segments (Py.remove_char "-" uuid)) as [|a l] eqn:E; simpl.
  - intros H. injection H as <-. split; [reflexivity|].
    now apply segments_nil.
  - discriminate.
Qed.

Lemma only_dashes_stripped s :
  only_dashes s = true <-> Py.remove_char "-" s = "".
Proof.
  induction s as [|c s IH]; simpl; [tauto|].
  destruct (Ascii.eqb c "-"); simpl; [exact IH|].
  split; discriminate.
Qed.

(** Two slash-free identifiers go to the same place exactly when they
    agree up to their dashes. *)
Lemma uuid_to_path_eq_iff x y :
  Py.contains_char "/" x = false ->
  Py.contains_char "/" y = false ->
  uuid_to_path x = uuid_to_path y
  <-> Py.remove_char "-" x = Py.remove_char "-" y.
Proof.
  intros Hx Hy. split.
  - intros E. destruct (uuid_to_path x) as [p|e] eqn:Ex.
    + symmetry in E.
      rewrite <- (uuid_to_path_unslash x p Hx Ex).
      now rewrite <- (uuid_to_path_unslash y p Hy E).
    + symmetry in E.
      destruct (uuid_to_path_raises x e Ex) as [_ ->].
      destruct (uuid_to_path_raises y e E) as [_ ->]. reflexivity.
  - intros E. unfold uuid_to_path. now rewrite E.
Qed.

(** *** Identifiers in the textual form of a UUID *)

Lemma hexdigit_not_dash c : is_hexdigit c = true -> Ascii.eqb c "-" = false.
Proof.
  destruct c as [[] [] [] [] [] [] [] []]; try reflexivity; discriminate.
Qed.

Lemma hexdigit_not_slash c : is_hexdigit c = true -> Ascii.eqb c "/" = false.
Proof.
  destruct c as [[] [] [] [] [] [] [] []]; try reflexivity; discriminate.
Qed.

Lemma uuid_chars_length s : forall i,
  uuid_chars i s = true -> i + length s = 36.
Proof.
  induction s as [|c s IH]; intros i; simpl.
  - intros H. apply Nat.eqb_eq in H. lia.
  - intros H. apply andb_true_iff in H as [_ H]. apply IH in H. lia.
Qed.

Lemma uuid_chars_unslashed s : forall i,
  uuid_chars i s = true -> Py.contains_char "/" s = false.
Proof.
  induction s as [|c s IH]; intros i; simpl; [reflexivity|].
  intros H. apply andb_true_iff in H as [Hc H].
  rewrite (IH _ H), orb_false_r.
  destruct (dash_position i).
  - apply Ascii.eqb_eq in Hc. now subst c.
  - now apply hexdigit_not_slash.
Qed.

Lemma uuid_chars_stripped_inj x : forall i y,
  uuid_chars i x = true -> uuid_chars i y = true ->
  Py.remove_char "-" x = Py.remove_char "-" y -> x = y.
Proof.
  induction x as [|c x IH]; intros i y Hx Hy E.
  - pose proof (uuid_chars_length _ _ Hx) as Lx.
    pose proof (uuid_chars_length _ _ Hy) as Ly.
    destruct y; [reflexivity | simpl in *; lia].
  - pose proof (uuid_chars_length _ _ Hx) as Lx.
    pose proof (uuid_chars_length _ _ Hy) as Ly.
    destruct y as [|d y]; [simpl in *; lia|].
    simpl in Hx, Hy.
    apply andb_true_iff in Hx as [Hc Hx].
    apply andb_true_iff in Hy as [Hd Hy].
    simpl in E.
    destruct (dash_position i).
    + rewrite Hc, Hd in E.
      apply Ascii.eqb_eq in Hc, Hd. subst c d.
      f_equal. exact (IH _ _ Hx Hy E).
    + rewrite (hexdigit_not_dash _ Hc), (hexdigit_not_dash _ Hd) in E.
      injection E as -> E. f_equal. exact (IH _ _ Hx Hy E).
Qed.

End UuidPath.

(** C1. On identifiers in the textual form of a UUID the sharding function
    is injective: [uuid_to_path X == uuid_to_path Y] exactly when
    [X == Y]. *)
Theorem uuid_to_path_injective (X Y : string) :
  is_uuid X = true -> is_uuid Y = true ->
  (uuid_to_path X = uuid_to_path Y <-> X = Y).
Proof.
  intros HX HY. split; [|now intros ->].
  intros E.
  apply (UuidPath.uuid_chars_stripped_inj X 0 Y HX HY).
  apply UuidPath.uuid_to_path_eq_iff; [| |exact E].
  - exact (UuidPath.uuid_chars_unslashed _ _ HX).
  - exact (UuidPath.uuid_chars_unslashed _ _ HY).
Qed.

Lemma uuid_to_path_injective_witness :
  uuid_to_path "e0a41934-c1d7-45ba-9a95-a7531c063ed1"
  = uuid_to_path "6aebdb24-1b6b-41ab-b4a3-df9a73726a34"
  <-> "e0a41934-c1d7-45ba-9a95-a7531c063ed1"
      = "6aebdb24-1b6b-41ab-b4a3-df9a73726a34".
Proof.
  apply (uuid_to_path_injective "e0a41934-c1d7-45ba-9a95-a7531c063ed1"
                                "6aebdb24-1b6b-41ab-b4a3-df9a73726a34");
    reflexivity.
Defined.

(** C10. [uuid_to_path] is partial: on the empty string and on any string
    of dashes only, [os.path.join] is called with no argument and raises;
    on every other string a path is returned. *)
Theorem uuid_to_path_partial (uuid : string) :
  (only_dashes uuid = true -> uuid_to_path uuid = Raise TypeError)
  /\ (only_dashes uuid = false -> exists path, uuid_to_path uuid = Ok path).
Proof.
  split; intros H.
  - apply UuidPath.only_dashes_stripped in H.
    unfold uuid_to_path. now rewrite H.
  - destruct (uuid_to_path uuid) as [p|e] eqn:E; [now exists p|].
    apply UuidPath.uuid_to_path_raises in E as [_ E].
    apply UuidPath.only_dashes_stripped in E. congruence.
Qed.

Lemma uuid_to_path_partial_witness :
  uuid_to_path "" = Raise TypeError
  /\ uuid_to_path "---" = Raise TypeError
  /\ exists path, uuid_to_path "e0a41934-c1d7" = Ok path.
Proof.
  split; [|split].
  - apply (proj1 (uuid_to_path_partial "")). reflexivity.
  - apply (proj1 (uuid_to_path_partial "---")). reflexivity.
  - apply (proj2 (uuid_to_path_partial "e0a41934-c1d7")). reflexivity.
Defined.

(** ** Provenance agents *)

(** C9. Recording two events on an empty amdSec leaves two agent entries
    with the same (identifier type, identifier value): the search of
    [mets_ss_agent] asks for [agentIdentifier] elements in the METS
    namespace, the agents it creates are in the PREMIS namespace, so the
    search never finds them. *)
Theorem mets_add_event_duplicates_agent
        (ss_version now1 uuid1 now2 uuid2 : string)
        (type1 detail1 note1 type2 detail2 note2 : string) :
  let amdsec1 :=
    Mets.mets_add_event ss_version now1 uuid1 Mets.empty_amdsec
                        type1 detail1 note1 in
  let amdsec2 :=
    Mets.mets_add_event ss_version now2 uuid2 amdsec1 type2 detail2 note2 in
  Mets.agent_entries amdsec2
  = [ ("storage service", Mets._storage_service_agent ss_version);
      ("storage service", Mets._storage_service_agent ss_version) ]
  /\ Mets.mets_ss_agent ss_version amdsec1 "digiprovMD_3" <> None.
Proof.
  split.
  - cbv -[String.append]. simpl.
    now rewrite !PyFacts.append_nil_r.
  - cbv -[String.append]. discriminate.
Qed.
(** ** Paths as written *)

Module PartsFacts.
Import PyFacts.

Lemma split_nonempty c s : PosixPath2.split c s <> [].
Proof.
  destruct s as [|x s]; simpl; [discriminate|].
  destruct (Ascii.eqb x c); [discriminate|].
  destruct (PosixPath2.split c s); discriminate.
Qed.

Lemma split_app_slash a : forall b,
  PosixPath2.split "/" (a ++ "/" ++ b)
  = (PosixPath2.split "/" a ++ PosixPath2.split "/" b)%list.
Proof.
  induction a as [|c a IH]; intros b.
  - reflexivity.
  - change ((String c a) ++ "/" ++ b) with (String c (a ++ "/" ++ b)).
    cbn [PosixPath2.split]. rewrite IH.
    destruct (Ascii.eqb c "/"); [reflexivity|].
    pose proof (split_nonempty "/" a) as N.
    destruct (PosixPath2.split "/" a) as [|h t]; [congruence | reflexivity].
Qed.

Lemma split_unslashed s :
  Py.contains_char "/" s = false -> PosixPath2.split "/" s = [s].
Proof.
  induction s as [|c s IH]; simpl; [reflexivity|].
  intros H. apply orb_false_iff in H as [Hc Hs].
  rewrite Hc, (IH Hs). reflexivity.
Qed.

Lemma parts_app_slash a b :
  Fs.parts (a ++ "/" ++ b) = (Fs.parts a ++ Fs.parts b)%list.
Proof. unfold Fs.parts. now rewrite split_app_slash, filter_app. Qed.

Lemma parts_unslashed t :
  Py.contains_char "/" t = false ->
  Fs.parts t = if String.eqb t "" then [] else [t].
Proof.
  intros H. unfold Fs.parts. rewrite (split_unslashed _ H). simpl.
  now destruct (String.eqb t "").
Qed.

Lemma parts_empty : Fs.parts "" = [].
Proof. reflexivity. Qed.

Lemma parts_slash_end a : Fs.parts (a ++ "/") = Fs.parts a.
Proof.
  change (a ++ "/") with (a ++ "/" ++ "").
  rewrite parts_app_slash. simpl. apply app_nil_r.
Qed.

Lemma parts_name a t :
  t <> "" -> Py.contains_char "/" t = false ->
  Fs.parts (a ++ "/" ++ t) = (Fs.parts a ++ [t])%list.
Proof.
  intros Ht Hs. rewrite parts_app_slash, (parts_unslashed _ Hs).
  apply String.eqb_neq in Ht. now rewrite Ht.
Qed.

Lemma endswith_slash_inv s :
  Py.endswith s "/" = true -> exists a, s = a ++ "/".
Proof.
  unfold Py.endswith. change (length "/") with 1.
  intros H. apply andb_true_iff in H as [_ H]. apply String.eqb_eq in H.
  exists (substring 0 (length s - 1) s).
  pose proof (take_drop s (length s - 1)) as T. rewrite H in T. now symmetry.
Qed.

Lemma startswith_nil s : Py.startswith s "" = true.
Proof. now destruct s. Qed.

Lemma startswith_app a b p :
  a <> "" -> Py.startswith (a ++ b) (String p "") = Py.startswith a (String p "").
Proof.
  destruct a as [|c a]; [congruence|]. intros _. simpl.
  now rewrite !startswith_nil.
Qed.

Lemma endswith_app_unslashed x b :
  b <> "" -> Py.contains_char "/" b = false ->
  Py.endswith (x ++ b) "/" = false.
Proof.
  intros Hne Hb. unfold Py.endswith.
  apply andb_false_iff. right.
  rewrite length_append. change (length "/") with 1.
  assert (L : 1 <= length b) by (destruct b; [congruence | simpl; lia]).
  assert (E : Py.drop (length x + length b - 1) (x ++ b)
              = Py.drop (length b - 1) b).
  { clear Hne Hb. induction x as [|c x IH]; simpl.
    - reflexivity.
    - replace (length x + length b - 0) with (S (length x + length b - 1)) by lia.
      exact IH. }
  rewrite E.
  apply String.eqb_neq. intros E'.
  assert (C : forall n s, Py.contains_char "/" s = false ->
                          Py.contains_char "/" (Py.drop n s) = false).
  { clear. intros n s. revert n.
    induction s as [|a s IH]; intros [|n] H; simpl in *; auto.
    apply orb_false_iff in H as [_ H]. now apply IH. }
  pose proof (C (length b - 1) b Hb) as K. rewrite E' in K. discriminate.
Qed.

(** A name joined to a path is one more component. *)
Lemma join_name p name :
  p <> "" -> Fs.is_name name = true ->
  let full := PosixPath.join2 p [name] in
  Fs.parts full = (Fs.parts p ++ [name])%list
  /\ Py.startswith full "/" = Py.startswith p "/"
  /\ Py.endswith full "/" = false
  /\ full <> "".
Proof.
  intros Hp Hn. cbv zeta. unfold PosixPath.join2. cbn [fold_left].
  unfold Fs.is_name in Hn.
  apply andb_true_iff in Hn as [Hn Hs]. apply andb_true_iff in Hn as [He _].
  apply negb_true_iff in He, Hs. apply String.eqb_neq in He.
  unfold PosixPath.join_step. rewrite (prefix_slash_absent _ Hs).
  apply String.eqb_neq in Hp. rewrite Hp. apply String.eqb_neq in Hp.
  cbn [orb].
  destruct (Py.endswith p "/") eqn:E.
  - apply endswith_slash_inv in E as [a ->].
    rewrite append_assoc. change ("/" ++ name) with ("/" ++ name).
    repeat split.
    + rewrite parts_name, parts_slash_end by assumption. reflexivity.
    + rewrite <- append_assoc. now apply startswith_app.
    + rewrite <- append_assoc. now apply endswith_app_unslashed.
    + destruct a; discriminate.
  - repeat split.
    + now apply parts_name.
    + now apply startswith_app.
    + rewrite <- append_assoc. now apply endswith_app_unslashed.
    + destruct p; [congruence | discriminate].
Qed.

End PartsFacts.
(** ** posixpath.split, in components *)

Module SplitFacts.
Import PyFacts PartsFacts.

Lemma endswith_cons c s :
  s <> "" -> Py.endswith (String c s) "/" = Py.endswith s "/".
Proof.
  intros H. unfold Py.endswith. change (length "/") with 1.
  destruct s as [|d s]; [congruence|]. simpl. now rewrite Nat.sub_0_r.
Qed.

Lemma endswith_snoc a : Py.endswith (a ++ "/") "/" = true.
Proof.
  induction a as [|c a IH]; [reflexivity|].
  simpl. rewrite endswith_cons; [exact IH | destruct a; discriminate].
Qed.

Lemma all_slashes_app a b :
  OsPath.all_slashes (a ++ b) = OsPath.all_slashes a && OsPath.all_slashes b.
Proof.
  induction a as [|c a IH]; simpl; [reflexivity|].
  now rewrite IH, andb_assoc.
Qed.

Lemma parts_all_slashes z : OsPath.all_slashes z = true -> Fs.parts z = [].
Proof.
  induction z as [|c z IH]; [reflexivity|]. simpl.
  intros H. apply andb_true_iff in H as [Hc Hz].
  apply Ascii.eqb_eq in Hc. subst c.
  change (String "/" z) with ("" ++ "/" ++ z).
  rewrite parts_app_slash. simpl. auto.
Qed.

Lemma parts_app_slashes y z :
  OsPath.all_slashes z = true -> Fs.parts (y ++ z) = Fs.parts y.
Proof.
  destruct z as [|c z]; [intros _; now rewrite append_nil_r|].
  simpl. intros H. apply andb_true_iff in H as [Hc Hz].
  apply Ascii.eqb_eq in Hc. subst c.
  change (y ++ String "/" z) with (y ++ "/" ++ z).
  rewrite parts_app_slash, (parts_all_slashes _ Hz). apply app_nil_r.
Qed.

(** [rstrip('/')] takes slashes off the end and nothing else. *)
Lemma rstrip_spec x :
  exists z,
    x = OsPath.rstrip_slashes x ++ z
    /\ OsPath.all_slashes z = true
    /\ Py.endswith (OsPath.rstrip_slashes x) "/" = false.
Proof.
  induction x as [|c x (z & E & A & N)]; [now exists ""|].
  simpl. destruct (OsPath.rstrip_slashes x) as [|d r] eqn:R.
  - destruct (Ascii.eqb c "/") eqn:C.
    + apply Ascii.eqb_eq in C. subst c. exists (String "/" z).
      simpl in E. subst x. simpl. now rewrite A.
    + exists z. simpl in E |- *. subst x.
      repeat split; [assumption|].
      unfold Py.endswith. simpl. now rewrite C.
  - exists z. simpl in E |- *. rewrite <- E. repeat split; [assumption|].
    rewrite endswith_cons; [assumption | discriminate].
Qed.

Lemma rstrip_empty x :
  OsPath.rstrip_slashes x = "" <-> OsPath.all_slashes x = true.
Proof.
  induction x as [|c x IH]; [simpl; tauto|].
  simpl. destruct (OsPath.rstrip_slashes x) as [|d r].
  - destruct (Ascii.eqb c "/"); simpl; [tauto|].
    split; discriminate.
  - split; [discriminate|].
    intros H. apply andb_true_iff in H as [_ H].
    apply IH in H. discriminate.
Qed.

Lemma substring_zero s : substring 0 0 s = "".
Proof. now destruct s. Qed.

(** Where the last slash is. *)
Lemma slash_end_spec s :
  Py.contains_char "/" (Py.drop (OsPath.slash_end s) s) = false
  /\ (Py.contains_char "/" s = false -> OsPath.slash_end s = 0)
  /\ (Py.contains_char "/" s = true ->
      exists a, substring 0 (OsPath.slash_end s) s = a ++ "/").
Proof.
  induction s as [|c s (I1 & I2 & I3)]; simpl.
  - repeat split; auto. discriminate.
  - destruct (Py.contains_char "/" s) eqn:Cs.
    + rewrite orb_true_r. repeat split; [exact I1 | discriminate |].
      intros _. destruct (I3 eq_refl) as [a E].
      exists (String c a). simpl. now rewrite E.
    + rewrite orb_false_r. destruct (Ascii.eqb c "/") eqn:C.
      * repeat split; [exact Cs | discriminate |].
        intros _. apply Ascii.eqb_eq in C. subst c.
        exists "". simpl. now rewrite substring_zero.
      * repeat split; [simpl; now rewrite C, Cs | discriminate].
Qed.

(** [posixpath.split], read off the components. *)
Lemma split_parts p head tail :
  OsPath.split p = (head, tail) ->
  Py.contains_char "/" tail = false
  /\ Fs.parts p = (Fs.parts head ++ if String.eqb tail "" then [] else [tail])%list
  /\ (head <> "" -> Py.startswith head "/" = Py.startswith p "/")
  /\ (head = "" -> p = tail)
  /\ (Py.endswith head "/" = true -> OsPath.all_slashes head = true)
  /\ (tail = "" -> p = "" \/ Py.endswith p "/" = true).
Proof.
  unfold OsPath.split, Py.slice. rewrite Nat.sub_0_r.
  destruct (slash_end_spec p) as (T & Z & A).
  pose proof (take_drop p (OsPath.slash_end p)) as E.
  set (head0 := substring 0 (OsPath.slash_end p) p) in *.
  set (tail0 := Py.drop (OsPath.slash_end p) p) in *.
  intros H. injection H as Hh <-.
  split; [exact T|].
  destruct (Py.contains_char "/" p) eqn:C.
  - destruct (A eq_refl) as [a Ea]. rewrite Ea in *.
    assert (Pp : Fs.parts p
                 = (Fs.parts a ++ if String.eqb tail0 "" then [] else [tail0])%list).
    { rewrite <- E, append_assoc, parts_app_slash, (parts_unslashed _ T).
      reflexivity. }
    assert (Hne : String.eqb (a ++ "/") "" = false) by (now destruct a).
    rewrite Hne in Hh. cbn [negb andb] in Hh.
    destruct (OsPath.all_slashes (a ++ "/")) eqn:AS; cbn [negb] in Hh; subst head.
    + repeat split.
      * now rewrite parts_slash_end.
      * intros _. rewrite <- E, append_assoc, <- append_assoc.
        symmetry. apply startswith_app. now destruct a.
      * intros K. destruct a; discriminate.
      * intros _. exact AS.
      * intros K. right. rewrite <- E, K, append_nil_r. apply endswith_snoc.
    + destruct (rstrip_spec (a ++ "/")) as (z & Ez & Az & Nz).
      assert (Rne : OsPath.rstrip_slashes (a ++ "/") <> "").
      { intros K. apply rstrip_empty in K. congruence. }
      repeat split.
      * rewrite Pp. f_equal.
        rewrite <- (parts_slash_end a).
        pattern (a ++ "/") at 1. rewrite Ez.
        now rewrite parts_app_slashes.
      * intros _. rewrite <- E.
        pattern (a ++ "/") at 2. rewrite Ez. rewrite !append_assoc.
        symmetry. now apply startswith_app.
      * intros K. contradiction.
      * intros K. congruence.
      * intros K. right. rewrite <- E, K, append_nil_r. apply endswith_snoc.
  - pose proof (Z eq_refl) as Z0. unfold head0, tail0 in *. clear head0 tail0.
    rewrite Z0 in *. rewrite substring_zero in Hh. simpl in Hh |- *.
    subst head.
    repeat split; try congruence.
    + rewrite (parts_unslashed _ C). reflexivity.
    + intros K. left. exact K.
Qed.

Lemma parts_nil_slashes p : Fs.parts p = [] -> OsPath.all_slashes p = true.
Proof.
  induction p as [|c p IH]; [reflexivity|].
  destruct (Ascii.eqb c "/") eqn:C.
  - apply Ascii.eqb_eq in C. subst c.
    change (String "/" p) with ("" ++ "/" ++ p).
    rewrite parts_app_slash. simpl. auto.
  - unfold Fs.parts. simpl. rewrite C.
    pose proof (split_nonempty "/" p) as N.
    destruct (PosixPath2.split "/" p) as [|h t]; [congruence|]. simpl.
    discriminate.
Qed.

(** The opening of [os.makedirs] and [os.removedirs]: the last component
    and the path of the others. *)
Lemma split_twice_parts p head tail :
  split_twice p = (head, tail) ->
  Fs.parts p <> [] ->
  tail = Fs.last_part p
  /\ Fs.parts head = List.removelast (Fs.parts p)
  /\ tail <> ""
  /\ (head <> "" -> Py.startswith head "/" = Py.startswith p "/")
  /\ (head = "" -> Py.startswith p "/" = false)
  /\ (Py.endswith head "/" = true -> OsPath.all_slashes head = true).
Proof.
  unfold split_twice, Fs.last_part.
  destruct (OsPath.split p) as [h1 t1] eqn:S1.
  destruct (split_parts _ _ _ S1) as (T1 & P1 & A1 & E1 & N1 & Z1).
  assert (Final : forall q h t,
    OsPath.split q = (h, t) -> t <> "" -> Fs.parts q = Fs.parts p ->
    (q <> "" -> Py.startswith q "/" = Py.startswith p "/") ->
    t = List.last (Fs.parts p) ""
    /\ Fs.parts h = List.removelast (Fs.parts p)
    /\ t <> ""
    /\ (h <> "" -> Py.startswith h "/" = Py.startswith p "/")
    /\ (h = "" -> Py.startswith p "/" = false)
    /\ (Py.endswith h "/" = true -> OsPath.all_slashes h = true)).
  { intros q h t Sq Ht Pq Aq.
    destruct (split_parts _ _ _ Sq) as (T & P & A & E & N & _).
    apply String.eqb_neq in Ht. rewrite Ht in P. apply String.eqb_neq in Ht.
    rewrite Pq in P. rewrite P, last_last, removelast_last.
    repeat split; auto.
    - intros Hh. rewrite (A Hh). apply Aq. intros ->.
      unfold OsPath.split in Sq. simpl in Sq. congruence.
    - intros Hh. rewrite <- Aq.
      + rewrite (E Hh). now apply prefix_slash_absent.
      + intros ->. unfold OsPath.split in Sq. simpl in Sq. congruence. }
  destruct (String.eqb t1 "") eqn:Et.
  - intros S2 Hp. rewrite app_nil_r in P1.
    destruct (OsPath.split h1) as [h2 t2] eqn:Sh. injection S2 as <- <-.
    assert (Hh1 : h1 <> "") by (intros ->; now rewrite P1 in Hp).
    apply (Final h1 h2 t2 Sh); auto.
    destruct (split_parts _ _ _ Sh) as (_ & _ & _ & _ & _ & Z).
    intros K. destruct (Z K) as [K' | K']; [contradiction|].
    apply N1 in K'. apply parts_all_slashes in K'. congruence.
  - intros H Hp. injection H as <- <-.
    apply (Final p h1 t1 S1); auto.
    now apply String.eqb_neq.
Qed.

Lemma rstrip_length s : length (OsPath.rstrip_slashes s) <= length s.
Proof.
  induction s as [|c s IH]; simpl; [lia|].
  destruct (OsPath.rstrip_slashes s); [destruct (Ascii.eqb c "/")|];
    simpl in *; lia.
Qed.

Lemma split_lengths p h t :
  OsPath.split p = (h, t) -> length h + length t <= length p.
Proof.
  unfold OsPath.split, Py.slice. rewrite Nat.sub_0_r.
  intros H. injection H as <- <-.
  pose proof (PyFacts.take_drop p (OsPath.slash_end p)) as E.
  apply (f_equal length) in E. rewrite PyFacts.length_append in E.
  destruct (negb _ && negb _); [|lia].
  pose proof (rstrip_length (substring 0 (OsPath.slash_end p) p)). lia.
Qed.

Lemma split_twice_lengths p h t :
  split_twice p = (h, t) -> length h + length t <= length p.
Proof.
  unfold split_twice. destruct (OsPath.split p) as [h1 t1] eqn:E1.
  apply split_lengths in E1.
  destruct (String.eqb t1 "").
  - intros E2. apply split_lengths in E2. lia.
  - intros H. injection H as <- <-. lia.
Qed.

End SplitFacts.
(** ** The file system *)

Module FsFacts.
Import Fs.
Local Open Scope list_scope.

(** *** Entries of a directory *)

Lemma find_entry_replace c v es :
  find_entry c es <> None -> find_entry c (replace_entry c v es) = Some v.
Proof.
  induction es as [|[k x] es IH]; simpl; [congruence|].
  destruct (String.eqb k c) eqn:E; simpl; rewrite E; auto.
Qed.

Lemma find_entry_replace_other c k v es :
  k <> c -> find_entry k (replace_entry c v es) = find_entry k es.
Proof.
  intros N. induction es as [|[k' x] es IH]; simpl; [reflexivity|].
  destruct (String.eqb k' c) eqn:E; simpl.
  - apply String.eqb_eq in E. subst k'.
    destruct (String.eqb c k) eqn:E'; [|reflexivity].
    apply String.eqb_eq in E'. congruence.
  - now rewrite IH.
Qed.

Lemma find_entry_snoc c v es :
  find_entry c es = None -> find_entry c (es ++ [(c, v)]) = Some v.
Proof.
  induction es as [|[k x] es IH]; simpl.
  - now rewrite String.eqb_refl.
  - destruct (String.eqb k c); [discriminate | assumption].
Qed.

Lemma find_entry_app_some c v es l :
  find_entry c es = Some v -> find_entry c (es ++ l) = Some v.
Proof.
  induction es as [|[k x] es IH]; simpl; [discriminate|].
  destruct (String.eqb k c); auto.
Qed.

Lemma replace_entry_same c v es :
  find_entry c es = Some v -> replace_entry c v es = es.
Proof.
  induction es as [|[k x] es IH]; simpl; [reflexivity|].
  destruct (String.eqb k c) eqn:E.
  - intros H. injection H as ->. reflexivity.
  - intros H. now rewrite IH.
Qed.

Lemma replace_entry_twice c v v' es :
  replace_entry c v (replace_entry c v' es) = replace_entry c v es.
Proof.
  induction es as [|[k x] es IH]; simpl; [reflexivity|].
  destruct (String.eqb k c) eqn:E; simpl; rewrite E; [reflexivity|].
  now rewrite IH.
Qed.

(** *** Nodes at positions *)

Lemma get_app n : forall a b,
  get n (a ++ b) = match get n a with
                   | Some m => get m b
                   | None => None
                   end.
Proof.
  intros a. revert n.
  induction a as [|c a IH]; intros n b; simpl; [reflexivity|].
  destruct n as [|u g es]; [reflexivity|].
  destruct (find_entry c es); [apply IH | reflexivity].
Qed.

Lemma get_snoc n a c x :
  get n (a ++ [c]) = Some x ->
  exists u g es, get n a = Some (Dir u g es) /\ find_entry c es = Some x.
Proof.
  rewrite get_app. destruct (get n a) as [[|u g es]|]; simpl; try discriminate.
  destruct (find_entry c es) as [ch|] eqn:F; [|discriminate].
  intros H. injection H as ->. eauto.
Qed.

(** Whatever has something below it is a directory. *)
Lemma get_above n : forall a b x,
  get n (a ++ b) = Some x -> b <> [] ->
  exists u g es, get n a = Some (Dir u g es).
Proof.
  intros a b x. rewrite get_app.
  destruct (get n a) as [[|u g es]|]; try discriminate.
  - destruct b; [congruence | discriminate].
  - eauto.
Qed.

Lemma get_update f n : forall q m,
  get n q = Some m -> get (update f n q) q = Some (f m).
Proof.
  intros q. revert n.
  induction q as [|c q IH]; intros n m; simpl.
  - intros H. now injection H as ->.
  - destruct n as [|u g es]; [discriminate|].
    destruct (find_entry c es) as [ch|] eqn:F; [|discriminate].
    intros H. simpl. rewrite find_entry_replace by congruence. now apply IH.
Qed.

Lemma update_update f h n : forall q,
  update f (update h n q) q = update (fun x => f (h x)) n q.
Proof.
  intros q. revert n.
  induction q as [|c q IH]; intros n; simpl; [reflexivity|].
  destruct n as [|u g es]; [reflexivity|].
  destruct (find_entry c es) as [ch|] eqn:F; simpl; [|now rewrite F].
  rewrite find_entry_replace by congruence.
  now rewrite replace_entry_twice, IH.
Qed.

Lemma update_same f n : forall q m,
  get n q = Some m -> f m = m -> update f n q = n.
Proof.
  intros q. revert n.
  induction q as [|c q IH]; intros n m; simpl.
  - intros H E. injection H as ->. exact E.
  - destruct n as [|u g es]; [reflexivity|].
    destruct (find_entry c es) as [ch|] eqn:F; [|reflexivity].
    intros H E. rewrite (IH _ _ H E). now rewrite replace_entry_same.
Qed.

Lemma update_ext f h n : forall q,
  (forall m, get n q = Some m -> f m = h m) -> update f n q = update h n q.
Proof.
  intros q. revert n.
  induction q as [|c q IH]; intros n H; simpl.
  - now apply H.
  - destruct n as [|u g es]; [reflexivity|].
    destruct (find_entry c es) as [ch|] eqn:F; [|reflexivity].
    f_equal. f_equal. apply IH. intros m Hm. apply H. simpl. now rewrite F.
Qed.

(** An update below [a ++ b] is an update of the node at [a]. *)
Lemma update_app f n : forall a b,
  update f n (a ++ b) = update (fun m => update f m b) n a.
Proof.
  intros a. revert n.
  induction a as [|c a IH]; intros n b; simpl; [reflexivity|].
  destruct n as [|u g es]; [reflexivity|].
  destruct (find_entry c es); [|reflexivity]. now rewrite IH.
Qed.

(** A change at a position is not seen from above it, kinds aside. *)
Lemma get_update_above f n : forall a b u g es,
  b <> [] ->
  get n a = Some (Dir u g es) ->
  exists es', get (update f n (a ++ b)) a = Some (Dir u g es')
              /\ forall c, find_entry c es <> None -> find_entry c es' <> None.
Proof.
  intros a b u g es Hb H. rewrite update_app.
  rewrite (get_update _ _ _ _ H).
  destruct b as [|c b]; [congruence|]. simpl.
  destruct (find_entry c es) as [ch|] eqn:F.
  - eexists. split; [reflexivity|]. intros k Hk.
    destruct (String.eqb k c) eqn:E.
    + apply String.eqb_eq in E. subst k.
      rewrite find_entry_replace by congruence. discriminate.
    + apply String.eqb_neq in E. now rewrite find_entry_replace_other.
  - exists es. auto.
Qed.

(** *** Walking a path *)

Lemma walk_from_app root : forall a q b,
  walk_from root q (a ++ b)
  = match walk_from root q a with
    | Got q' => walk_from root q' b
    | Err e => Err e
    end.
Proof.
  induction a as [|c a IH]; intros q b; simpl; [reflexivity|].
  destruct (step root q c); [apply IH | reflexivity].
Qed.

Lemma step_from_dir root q c q' :
  step root q c = Got q' -> exists es, entries_at root q = Got es.
Proof.
  unfold step. destruct (entries_at root q) as [es|e]; [eauto | discriminate].
Qed.

Lemma entries_at_dir root q u g es :
  get root q = Some (Dir u g es) -> entries_at root q = Got es.
Proof. unfold entries_at. now intros ->. Qed.

Lemma entries_at_inv root q es :
  entries_at root q = Got es -> exists u g, get root q = Some (Dir u g es).
Proof.
  unfold entries_at. destruct (get root q) as [[|u g es']|]; try discriminate.
  intros H. injection H as ->. eauto.
Qed.

Lemma step_dot root q es :
  entries_at root q = Got es -> step root q "." = Got q.
Proof. unfold step. now intros ->. Qed.

Lemma step_name root q c es :
  entries_at root q = Got es -> is_dot c = false ->
  step root q c = match find_entry c es with
                  | Some _ => Got (q ++ [c])
                  | None => Err ENOENT
                  end.
Proof.
  unfold step, is_dot. intros -> D. apply orb_false_iff in D as [D1 D2].
  now rewrite D1, D2.
Qed.

(** A walk comes to something that is there. *)
Lemma step_exists root q c q' :
  step root q c = Got q' -> exists n, get root q' = Some n.
Proof.
  unfold step. destruct (entries_at root q) as [es|e] eqn:E; [|discriminate].
  apply entries_at_inv in E as (u & g & E).
  destruct (String.eqb c "."); [intros H; injection H as <-; eauto|].
  destruct (String.eqb c "..").
  - intros H. injection H as <-.
    destruct q as [|x q] using rev_ind; [eauto|].
    rewrite removelast_last.
    destruct (get_above root q [x] _ E ltac:(discriminate)) as (u' & g' & es' & G).
    eauto.
  - destruct (find_entry c es) as [ch|] eqn:F; [|discriminate].
    intros H. injection H as <-. exists ch.
    rewrite get_app, E. simpl. now rewrite F.
Qed.

Lemma undot_app a b : undot (a ++ b) = undot a ++ undot b.
Proof. apply filter_app. Qed.

Lemma no_dotdot_not_dot c :
  negb (String.eqb c "..") = true -> String.eqb c "." = false ->
  is_dot c = false.
Proof.
  unfold is_dot. intros A B. apply negb_true_iff in A. now rewrite A, B.
Qed.

(** Without [..] a walk only ever descends. *)
Lemma walk_place root : forall comps q q',
  forallb (fun c => negb (String.eqb c "..")) comps = true ->
  walk_from root q comps = Got q' -> q' = q ++ undot comps.
Proof.
  induction comps as [|c comps IH]; intros q q' N; simpl.
  - intros H. injection H as <-. now rewrite app_nil_r.
  - simpl in N. apply andb_true_iff in N as [Nc N].
    destruct (step root q c) as [q1|e] eqn:S1; [|discriminate].
    intros H. apply (IH _ _ N) in H. subst q'.
    destruct (step_from_dir _ _ _ _ S1) as [es E].
    destruct (String.eqb c ".") eqn:D.
    + apply String.eqb_eq in D. subst c.
      rewrite (step_dot _ _ _ E) in S1. now injection S1 as <-.
    + rewrite (step_name _ _ _ _ E (no_dotdot_not_dot _ Nc D)) in S1.
      destruct (find_entry c es); [|discriminate].
      injection S1 as <-. simpl. now rewrite <- app_assoc.
Qed.

(** And it reaches every directory that is there. *)
Lemma walk_dir root : forall comps q u g es,
  forallb (fun c => negb (String.eqb c "..")) comps = true ->
  get root (q ++ undot comps) = Some (Dir u g es) ->
  walk_from root q comps = Got (q ++ undot comps).
Proof.
  induction comps as [|c comps IH]; intros q u g es N H; simpl.
  - now rewrite app_nil_r.
  - simpl in N. apply andb_true_iff in N as [Nc N].
    assert (Hq : exists u' g' es', get root q = Some (Dir u' g' es')).
    { destruct (undot (c :: comps)) as [|x l] eqn:U.
      - rewrite app_nil_r in H. eauto.
      - eapply get_above; [exact H | discriminate]. }
    destruct Hq as (u' & g' & es' & Hq).
    pose proof (entries_at_dir _ _ _ _ _ Hq) as E.
    unfold undot in *. simpl in H |- *.
    destruct (String.eqb c ".") eqn:D; simpl in H |- *.
    + apply String.eqb_eq in D. subst c.
      rewrite (step_dot _ _ _ E). eapply IH; eauto.
    + rewrite (step_name _ _ _ _ E (no_dotdot_not_dot _ Nc D)).
      replace (q ++ c :: filter (fun c0 => negb (String.eqb c0 ".")) comps)
        with ((q ++ [c]) ++ filter (fun c0 => negb (String.eqb c0 ".")) comps)
        in H |- * by now rewrite <- app_assoc.
      assert (F : find_entry c es' <> None).
      { destruct (filter _ comps) as [|x l] eqn:U.
        - rewrite app_nil_r in H. apply get_snoc in H as (? & ? & ? & G & F).
          rewrite Hq in G. injection G as <- <- <-. congruence.
        - destruct (get_above root (q ++ [c]) (x :: l) _ H ltac:(discriminate))
            as (? & ? & ? & G).
          apply get_snoc in G as (? & ? & ? & G & F).
          rewrite Hq in G. injection G as <- <- <-. congruence. }
      destruct (find_entry c es'); [|congruence].
      eapply IH; eauto.
Qed.

(** The last step to a name that is there. *)
Lemma walk_name root init c q n :
  forallb (fun c => negb (String.eqb c "..")) init = true ->
  is_dot c = false ->
  get root (q ++ undot init ++ [c]) = Some n ->
  walk_from root q (init ++ [c]) = Got (q ++ undot init ++ [c]).
Proof.
  intros N D H. rewrite app_assoc in H |- *.
  destruct (get_snoc _ _ _ _ H) as (u & g & es & G & F).
  rewrite walk_from_app, (walk_dir _ _ _ _ _ _ N G). simpl.
  rewrite (step_name _ _ _ _ (entries_at_dir _ _ _ _ _ G) D). now rewrite F.
Qed.

End FsFacts.
(** *** Paths without [..] *)

Module PlaceFacts.
Import Fs FsFacts PartsFacts.
Local Open Scope list_scope.

Lemma is_name_inv name :
  is_name name = true ->
  name <> "" /\ is_dot name = false /\ String.eqb name "." = false
  /\ String.eqb name ".." = false /\ Py.contains_char "/" name = false.
Proof.
  unfold is_name, is_dot. intros H.
  apply andb_true_iff in H as [H Hs]. apply andb_true_iff in H as [He Hd].
  apply negb_true_iff in He, Hd, Hs. apply String.eqb_neq in He.
  pose proof Hd as Hd'. apply orb_false_iff in Hd' as [D1 D2]. auto.
Qed.

Lemma resolve_dir cwd root p u g es :
  p <> "" -> no_dotdot p = true ->
  get root (place cwd p) = Some (Dir u g es) ->
  resolve cwd root p = Got (place cwd p).
Proof.
  intros Hp N H. unfold resolve, place in *.
  apply String.eqb_neq in Hp. rewrite Hp.
  now rewrite (walk_dir _ _ _ _ _ _ N H), H.
Qed.

Lemma stat_dir cwd root p u g es :
  p <> "" -> no_dotdot p = true ->
  get root (place cwd p) = Some (Dir u g es) ->
  stat cwd root p = Got (Dir u g es).
Proof.
  intros Hp N H. unfold stat. now rewrite (resolve_dir _ _ _ _ _ _ Hp N H), H.
Qed.

Lemma stat_place cwd root p n :
  no_dotdot p = true -> stat cwd root p = Got n ->
  p <> "" /\ get root (place cwd p) = Some n.
Proof.
  intros N. unfold stat, resolve, place.
  destruct (String.eqb p "") eqn:E; [discriminate|].
  apply String.eqb_neq in E.
  destruct (walk_from root (start cwd p) (parts p)) as [q|e] eqn:W;
    [|discriminate].
  rewrite (walk_place _ _ _ _ N W) in *.
  destruct (get root _) as [[|]|] eqn:G; try discriminate.
  - destruct (Py.endswith p "/"); [discriminate|].
    rewrite G. intros H. now injection H as <-.
  - rewrite G. intros H. now injection H as <-.
Qed.

Lemma place_joined cwd p name :
  p <> "" -> is_name name = true ->
  place cwd (PosixPath.join2 p [name]) = place cwd p ++ [name].
Proof.
  intros Hp Hn. destruct (join_name p name Hp Hn) as (P & S & _ & _).
  destruct (is_name_inv _ Hn) as (_ & _ & D & _).
  unfold place, start. rewrite P, S, undot_app. simpl. rewrite D. simpl.
  now rewrite app_assoc.
Qed.

Lemma no_dotdot_joined p name :
  p <> "" -> is_name name = true -> no_dotdot p = true ->
  no_dotdot (PosixPath.join2 p [name]) = true.
Proof.
  intros Hp Hn N. destruct (join_name p name Hp Hn) as (P & _).
  destruct (is_name_inv _ Hn) as (_ & _ & _ & D & _).
  unfold no_dotdot in *. rewrite P, forallb_app, N. simpl. now rewrite D.
Qed.

Lemma stat_of_walk cwd root p q n :
  p <> "" -> Py.endswith p "/" = false ->
  walk_from root (start cwd p) (parts p) = Got q ->
  get root q = Some n ->
  stat cwd root p = Got n.
Proof.
  intros Hp E W G. unfold stat, resolve.
  apply String.eqb_neq in Hp. rewrite Hp, W, G, E.
  destruct n; now rewrite G.
Qed.

Section Joined.

Variables (cwd : position) (root : node) (p name : string).
Variables (u g : Z) (es : list (string * node)) (child : node).
Hypothesis Hp : p <> "".
Hypothesis Hn : is_name name = true.
Hypothesis Hdd : no_dotdot p = true.
Hypothesis Hdir : get root (place cwd p) = Some (Dir u g es).
Hypothesis Hchild : find_entry name es = Some child.

Lemma get_joined : get root (place cwd (PosixPath.join2 p [name])) = Some child.
Proof.
  rewrite place_joined, get_app, Hdir by assumption.
  simpl. now rewrite Hchild.
Qed.

Lemma walk_joined :
  walk_from root (start cwd (PosixPath.join2 p [name])) (parts (PosixPath.join2 p [name])) = Got (place cwd (PosixPath.join2 p [name])).
Proof.
  destruct (join_name p name Hp Hn) as (P & S & _ & _). cbv zeta in P, S.
  destruct (is_name_inv _ Hn) as (_ & D & D1 & _).
  pose proof get_joined as G. unfold place in G |- *.
  rewrite P in *. unfold start in *. rewrite S in *.
  rewrite undot_app in *. simpl in *. rewrite D1 in *. simpl in *.
  apply (walk_name _ _ _ _ child); assumption.
Qed.

(** [os.lstat(fullname)] in the loop of [rmtree] *)
Lemma stat_joined : stat cwd root (PosixPath.join2 p [name]) = Got child.
Proof.
  destruct (join_name p name Hp Hn) as (_ & _ & E & Hf). cbv zeta in E, Hf.
  exact (stat_of_walk _ _ _ _ _ Hf E walk_joined get_joined).
Qed.

Lemma lookup_parent_joined :
  lookup_parent cwd root (PosixPath.join2 p [name]) = Got (place cwd p, es)
  /\ last_part (PosixPath.join2 p [name]) = name.
Proof.
  destruct (join_name p name Hp Hn) as (P & S & _ & _). cbv zeta in P, S.
  unfold lookup_parent, last_part, start. rewrite P, S.
  rewrite removelast_last, last_last. split; [|reflexivity].
  fold (start cwd p).
  change (start cwd p ++ undot (parts p)) with (place cwd p).
  unfold place in Hdir.
  rewrite (walk_dir _ _ _ _ _ _ Hdd Hdir).
  now rewrite (entries_at_dir _ _ _ _ _ Hdir).
Qed.

Lemma parts_joined_cons : exists c l, parts (PosixPath.join2 p [name]) = c :: l.
Proof.
  destruct (join_name p name Hp Hn) as (P & _). cbv zeta in P. rewrite P.
  destruct (parts p); simpl; eauto.
Qed.

(** [os.remove(fullname)] on a regular file *)
Lemma remove_joined fu fg d :
  child = File fu fg d ->
  remove cwd root (PosixPath.join2 p [name]) = Got (update (drop_entry name) root (place cwd p)).
Proof.
  intros ->.
  destruct (join_name p name Hp Hn) as (_ & _ & E & Hf). cbv zeta in E, Hf.
  destruct lookup_parent_joined as [L N].
  destruct parts_joined_cons as (c & l & Pc).
  destruct (is_name_inv _ Hn) as (_ & D & _).
  unfold remove. apply String.eqb_neq in Hf. rewrite Hf, Pc, L, N, D, Hchild.
  now rewrite E.
Qed.

(** [os.rmdir(fullname)] on an empty directory *)
Lemma rmdir_joined du dg :
  child = Dir du dg [] ->
  rmdir cwd root (PosixPath.join2 p [name]) = Got (update (drop_entry name) root (place cwd p)).
Proof.
  intros ->.
  destruct (join_name p name Hp Hn) as (_ & _ & E & Hf). cbv zeta in E, Hf.
  destruct lookup_parent_joined as [L N].
  destruct parts_joined_cons as (c & l & Pc).
  destruct (is_name_inv _ Hn) as (_ & _ & D1 & D2 & _).
  unfold rmdir. apply String.eqb_neq in Hf.
  now rewrite Hf, Pc, L, N, D1, D2, Hchild.
Qed.

End Joined.

End PlaceFacts.
(** *** Removing a tree *)

Module TreeFacts.
Import Fs FsFacts PartsFacts PlaceFacts.
Local Open Scope list_scope.

Lemma node_nested_ind (P : node -> Prop) :
  (forall u g d, P (File u g d)) ->
  (forall u g es, Forall (fun e => P (snd e)) es -> P (Dir u g es)) ->
  forall n, P n.
Proof.
  intros HF HD. fix IH 1. intros [u g d|u g es]; [apply HF|].
  apply HD. induction es as [|[k ch] es IHes]; constructor;
    [apply IH | exact IHes].
Qed.

Lemma wf_entries u g es :
  wf (Dir u g es) = true ->
  Forall (fun e => is_name (fst e) = true /\ wf (snd e) = true) es.
Proof.
  simpl. induction es as [|[k ch] es IH]; [constructor|].
  intros H. apply andb_true_iff in H as [H Hr].
  apply andb_true_iff in H as [H Hc]. apply andb_true_iff in H as [Hk _].
  constructor; [split; assumption | exact (IH Hr)].
Qed.

Lemma wf_distinct u g es name :
  wf (Dir u g es) = true -> find_entry name (remove_first name es) = None.
Proof.
  simpl. induction es as [|[k ch] es IH]; [reflexivity|].
  intros H. apply andb_true_iff in H as [H Hr].
  apply andb_true_iff in H as [H _]. apply andb_true_iff in H as [_ Hd].
  apply negb_true_iff in Hd. simpl.
  destruct (String.eqb k name) eqn:E.
  - apply String.eqb_eq in E. subst k.
    clear IH Hr. induction es as [|[k' ch'] es IH]; [reflexivity|].
    simpl in *. apply orb_false_iff in Hd as [D1 D2].
    rewrite String.eqb_sym, D1. auto.
  - simpl. rewrite E. exact (IH Hr).
Qed.

Lemma wf_get root : forall q n,
  wf root = true -> get root q = Some n -> wf n = true.
Proof.
  intros q. revert root.
  induction q as [|c q IH]; intros root n W; simpl.
  - intros H. now injection H as <-.
  - destruct root as [|u g es]; [discriminate|].
    destruct (find_entry c es) as [ch|] eqn:F; [|discriminate].
    apply IH. apply wf_entries in W. clear IH.
    induction es as [|[k x] es IHes]; [discriminate|].
    inversion W as [|? ? [_ Wx] W']; subst. simpl in F.
    destruct (String.eqb k c); [now injection F as <- | auto].
Qed.

Lemma rmtree_node_dir i cwd p u g es root :
  rmtree_node i cwd p (Dir u g es) root
  = match rmtree_entries i cwd p es root with
    | (Got _, root') => rmtree_finish i cwd p root'
    | raised => raised
    end.
Proof. reflexivity. Qed.

Lemma rmtree_entries_cons i cwd p name child l root :
  rmtree_entries i cwd p ((name, child) :: l) root
  = match
      match stat cwd root (PosixPath.join2 p [name]) with
      | Got (Dir _ _ _) =>
          rmtree_node i cwd (PosixPath.join2 p [name]) child root
      | _ =>
          match remove cwd root (PosixPath.join2 p [name]) with
          | Got f => (Got tt, f)
          | Err e => on_error i e root
          end
      end
    with
    | (Got _, root') => rmtree_entries i cwd p l root'
    | raised => raised
    end.
Proof. reflexivity. Qed.

Section Rmtree.

Variables (i : bool) (cwd : position).

Lemma rmtree_entries_spec p u g : forall l root,
  p <> "" -> no_dotdot p = true ->
  Forall (fun e => is_name (fst e) = true /\ wf (snd e) = true) l ->
  Forall (fun e => empties_then_removes i cwd (snd e)) l ->
  get root (place cwd p) = Some (Dir u g l) ->
  rmtree_entries i cwd p l root
  = (Got tt, update (set_entries []) root (place cwd p)).
Proof.
  intros l root Hp N. revert root.
  induction l as [|[name ch] l IH]; intros root W A G.
  - simpl. now rewrite (update_same _ _ _ _ G).
  - inversion W as [|? ? [Wn Wc] W']; subst.
    inversion A as [|? ? Ac A']; subst. simpl in Wn, Wc, Ac.
    assert (F : find_entry name ((name, ch) :: l) = Some ch)
      by (simpl; now rewrite String.eqb_refl).
    rewrite rmtree_entries_cons.
    rewrite (stat_joined cwd root p name u g _ ch Hp Wn N G F).
    destruct ch as [fu fg d|cu cg ces].
    + rewrite (remove_joined cwd root p name u g _ _ Hp Wn N G F fu fg d eq_refl).
      rewrite IH; try assumption.
      * rewrite update_update. f_equal. apply update_ext.
        intros m _. now destruct m.
      * rewrite (get_update _ _ _ _ G). simpl. now rewrite String.eqb_refl.
    + rewrite (Ac (PosixPath.join2 p [name]) root).
      * rewrite place_joined by assumption.
        set (root_e := update (set_entries []) root (place cwd p ++ [name])).
        assert (Ge : get root_e (place cwd p)
                     = Some (Dir u g ((name, Dir cu cg []) :: l))).
        { unfold root_e. rewrite update_app, (get_update _ _ _ _ G).
          simpl. now rewrite String.eqb_refl. }
        assert (Fe : find_entry name ((name, Dir cu cg []) :: l)
                     = Some (Dir cu cg []))
          by (simpl; now rewrite String.eqb_refl).
        unfold rmtree_finish.
        rewrite (rmdir_joined cwd root_e p name u g _ _ Hp Wn N Ge Fe cu cg eq_refl).
        rewrite IH; try assumption.
        -- rewrite update_update. unfold root_e.
           rewrite update_app, update_update. f_equal. apply update_ext.
           intros m Hm. rewrite G in Hm. injection Hm as <-.
           simpl. now rewrite String.eqb_refl.
        -- rewrite (get_update _ _ _ _ Ge). simpl. now rewrite String.eqb_refl.
      * destruct (join_name p name Hp Wn) as (_ & _ & _ & Hf). exact Hf.
      * now apply no_dotdot_joined.
      * exact Wc.
      * reflexivity.
      * exact (get_joined cwd root p name u g _ _ Hp Wn G F).
Qed.

Lemma rmtree_node_spec : forall n, empties_then_removes i cwd n.
Proof.
  induction n as [u g d|u g es IH] using node_nested_ind;
    intros p root Hp N W D G; [discriminate|].
  rewrite rmtree_node_dir.
  now rewrite (rmtree_entries_spec p u g es root Hp N (wf_entries _ _ _ W) IH G).
Qed.

End Rmtree.

End TreeFacts.
(** *** Making directories *)

Module MakedirsFacts.
Import Fs FsFacts PartsFacts SplitFacts PlaceFacts TreeFacts.
Local Open Scope list_scope.

Lemma makedirs_rec_step fuel uid gid cwd root name :
  makedirs_rec (S fuel) uid gid cwd root name
  = let create (root : node) :=
      match mkdir uid gid cwd root name with
      | Got f => (Got tt, f)
      | Err e => (Err e, root)
      end in
    let '(head, tail) := split_twice name in
    if negb (String.eqb head "") && negb (String.eqb tail "")
       && negb (exists_ cwd root head)
    then
      match makedirs_rec fuel uid gid cwd root head with
      | (Got _, root') | (Err EEXIST, root') =>
          if String.eqb tail "." then (Got tt, root') else create root'
      | (Err e, root') => (Err e, root')
      end
    else create root.
Proof. reflexivity. Qed.

Lemma stat_nonempty cwd root p n : stat cwd root p = Got n -> p <> "".
Proof. unfold stat, resolve. intros H ->. discriminate. Qed.

(** What a successful [stat] says about the walk. *)
Lemma stat_walk cwd root p n :
  stat cwd root p = Got n ->
  exists q, walk_from root (start cwd p) (parts p) = Got q
            /\ get root q = Some n.
Proof.
  unfold stat, resolve. destruct (String.eqb p ""); [discriminate|].
  destruct (walk_from root (start cwd p) (parts p)) as [q|e]; [|discriminate].
  destruct (get root q) as [[|]|] eqn:G; try discriminate.
  - destruct (Py.endswith p "/"); [discriminate|]. rewrite G.
    intros H. injection H as <-. eauto.
  - rewrite G. intros H. injection H as <-. eauto.
Qed.

Lemma walk_last root q0 comps q :
  comps <> [] ->
  walk_from root q0 comps = Got q ->
  exists q1 es,
    walk_from root q0 (removelast comps) = Got q1
    /\ entries_at root q1 = Got es
    /\ step root q1 (last comps "") = Got q.
Proof.
  intros Hne W. rewrite (app_removelast_last "" Hne) in W at 1.
  rewrite walk_from_app in W.
  destruct (walk_from root q0 (removelast comps)) as [q1|e]; [|discriminate].
  simpl in W. destruct (step root q1 (last comps "")) as [q'|e] eqn:S1;
    [|discriminate].
  injection W as <-. destruct (step_from_dir _ _ _ _ S1) as [es E]. eauto.
Qed.

(** [os.mkdir] refuses what is there. *)
Lemma mkdir_exists uid gid cwd root p n :
  stat cwd root p = Got n -> mkdir uid gid cwd root p = Err EEXIST.
Proof.
  intros H. pose proof (stat_nonempty _ _ _ _ H) as Hp.
  apply stat_walk in H as (q & W & G).
  unfold mkdir. apply String.eqb_neq in Hp. rewrite Hp.
  destruct (parts p) as [|c l] eqn:P; [reflexivity|].
  rewrite <- P in *.
  assert (Hne : parts p <> []) by (rewrite P; discriminate).
  destruct (walk_last _ _ _ _ Hne W) as (q1 & es & W1 & E1 & S1).
  unfold lookup_parent, last_part. rewrite W1, E1.
  destruct (is_dot (last (parts p) "")) eqn:D; [reflexivity|].
  rewrite (step_name _ _ _ _ E1 D) in S1.
  now destruct (find_entry (last (parts p) "") es).
Qed.

Lemma split_twice_no_tail p head tail :
  split_twice p = (head, tail) -> parts p = [] -> tail = "".
Proof.
  unfold split_twice. destruct (OsPath.split p) as [h1 t1] eqn:S1.
  destruct (split_parts _ _ _ S1) as (_ & P1 & _).
  destruct (String.eqb t1 "") eqn:E1.
  - intros S2 Hp. destruct (split_parts _ _ _ S2) as (_ & P2 & _).
    rewrite Hp, app_nil_r in P1. rewrite <- P1 in P2.
    destruct (String.eqb tail "") eqn:E2; [now apply String.eqb_eq|].
    destruct (parts head); discriminate.
  - intros H Hp. injection H as <- <-. rewrite Hp in P1.
    destruct (parts h1); discriminate.
Qed.

(** The directory a path lies in is there when the path is. *)
Lemma stat_head cwd root p n head tail :
  stat cwd root p = Got n ->
  split_twice p = (head, tail) -> head <> "" -> parts p <> [] ->
  exists_ cwd root head = true.
Proof.
  intros H Sp Hh Hne.
  destruct (split_twice_parts _ _ _ Sp Hne) as (_ & Ph & _ & Ah & _).
  apply stat_walk in H as (q & W & G).
  destruct (walk_last _ _ _ _ Hne W) as (q1 & es & W1 & E1 & _).
  apply entries_at_inv in E1 as (u & g & G1).
  unfold exists_, stat, resolve, start.
  apply String.eqb_neq in Hh. rewrite Hh. apply String.eqb_neq in Hh.
  rewrite (Ah Hh), Ph. fold (start cwd p). now rewrite W1, G1, G1.
Qed.

(** [os.makedirs] refuses what is there, and makes nothing. *)
Lemma makedirs_exists uid gid cwd root p n :
  stat cwd root p = Got n ->
  makedirs uid gid cwd root p = (Err EEXIST, root).
Proof.
  intros H. pose proof (stat_nonempty _ _ _ _ H) as Hp.
  unfold makedirs. destruct p as [|c p]; [congruence|].
  cbn [String.length]. rewrite makedirs_rec_step. cbv zeta.
  destruct (split_twice (String c p)) as [head tail] eqn:Sp.
  rewrite (mkdir_exists _ _ _ _ _ _ H).
  destruct (String.eqb head "") eqn:Eh; [reflexivity|].
  destruct (String.eqb tail "") eqn:Et; [reflexivity|].
  cbn [negb andb].
  apply String.eqb_neq in Eh, Et.
  destruct (parts (String c p)) as [|x l] eqn:P.
  - elim Et. exact (split_twice_no_tail _ _ _ Sp P).
  - rewrite (stat_head _ _ _ _ _ _ H Sp Eh); [reflexivity|].
    rewrite P. discriminate.
Qed.

(** A path written with names only. *)
Lemma proper_inv p :
  proper p = true ->
  p <> "" /\ parts p <> [] /\ no_dotdot p = true
  /\ undot (parts p) = parts p
  /\ is_dot (last_part p) = false
  /\ undot (removelast (parts p)) = removelast (parts p)
  /\ forallb (fun c => negb (String.eqb c "..")) (removelast (parts p)) = true.
Proof.
  unfold proper, no_dotdot, last_part.
  destruct (parts p) as [|c l] eqn:P; [discriminate|].
  intros H.
  assert (Hp : p <> "") by (intros ->; discriminate).
  assert (G : forall l0, forallb (fun c => negb (is_dot c)) l0 = true ->
    forallb (fun c => negb (String.eqb c "..")) l0 = true /\ undot l0 = l0).
  { induction l0 as [|x l0 IH]; [auto|]. simpl. intros K.
    apply andb_true_iff in K as [Kx K]. destruct (IH K) as [I1 I2].
    unfold is_dot in Kx. apply negb_true_iff, orb_false_iff in Kx as [K1 K2].
    rewrite K1, K2, I1. simpl. now rewrite I2. }
  assert (R : forallb (fun c => negb (is_dot c)) (removelast (c :: l)) = true).
  { rewrite forallb_forall in *. intros x Hx. apply H.
    rewrite (app_removelast_last "" (l:=c :: l)) by discriminate.
    apply in_or_app. now left. }
  destruct (G _ H) as [G1 G2]. destruct (G _ R) as [G3 G4].
  repeat split; auto; try discriminate.
  rewrite forallb_forall in H. apply negb_true_iff, H.
  rewrite (app_removelast_last "" (l:=c :: l)) at 2 by discriminate.
  apply in_or_app. right. now left.
Qed.

(** Where a proper path lies: the directory of its last name. *)
Lemma place_parent cwd p :
  proper p = true ->
  place cwd p = (start cwd p ++ removelast (parts p)) ++ [last_part p].
Proof.
  intros H. destruct (proper_inv _ H) as (_ & Hne & _ & U & _).
  unfold place, last_part. rewrite U, <- app_assoc.
  now rewrite <- (app_removelast_last "" Hne).
Qed.

Lemma lookup_parent_proper cwd root p u g es :
  proper p = true ->
  get root (start cwd p ++ removelast (parts p)) = Some (Dir u g es) ->
  lookup_parent cwd root p = Got (start cwd p ++ removelast (parts p), es).
Proof.
  intros H G. destruct (proper_inv _ H) as (_ & _ & _ & _ & _ & U & N).
  unfold lookup_parent. pose proof G as G'. rewrite <- U in G'.
  rewrite (walk_dir _ _ _ _ _ _ N G'), U.
  now rewrite (entries_at_dir _ _ _ _ _ G).
Qed.

(** [os.rmdir] of an empty directory named by a proper path. *)
Lemma rmdir_proper cwd root p u g :
  proper p = true ->
  get root (place cwd p) = Some (Dir u g []) ->
  rmdir cwd root p
  = Got (update (drop_entry (last_part p)) root
                (start cwd p ++ removelast (parts p))).
Proof.
  intros H G. destruct (proper_inv _ H) as (Hp & Hne & _ & _ & D & _).
  rewrite (place_parent _ _ H) in G.
  destruct (get_snoc _ _ _ _ G) as (u0 & g0 & es0 & G0 & F).
  unfold rmdir. apply String.eqb_neq in Hp. rewrite Hp.
  destruct (parts p) as [|c l] eqn:P; [congruence|]. rewrite <- P in *.
  rewrite (lookup_parent_proper _ _ _ _ _ _ H G0).
  unfold is_dot in D. apply orb_false_iff in D as [D1 D2].
  now rewrite D1, D2, F.
Qed.

(** [os.mkdir] of a proper path whose last name is free. *)
Lemma mkdir_proper uid gid cwd root p u g es :
  proper p = true ->
  get root (start cwd p ++ removelast (parts p)) = Some (Dir u g es) ->
  find_entry (last_part p) es = None ->
  mkdir uid gid cwd root p
  = Got (update (add_entry (last_part p) (Dir uid gid [])) root
                (start cwd p ++ removelast (parts p))).
Proof.
  intros H G F. destruct (proper_inv _ H) as (Hp & Hne & _ & _ & D & _).
  unfold mkdir. apply String.eqb_neq in Hp. rewrite Hp.
  destruct (parts p) as [|c l] eqn:P; [congruence|]. rewrite <- P in *.
  now rewrite (lookup_parent_proper _ _ _ _ _ _ H G), D, F.
Qed.

(** [os.makedirs] of a proper path whose directory is there and whose
    last name is free: one [mkdir]. *)
Lemma makedirs_proper uid gid cwd root p u g es :
  proper p = true ->
  get root (start cwd p ++ removelast (parts p)) = Some (Dir u g es) ->
  find_entry (last_part p) es = None ->
  makedirs uid gid cwd root p
  = (Got tt, update (add_entry (last_part p) (Dir uid gid [])) root
                    (start cwd p ++ removelast (parts p))).
Proof.
  intros H G F. destruct (proper_inv _ H) as (Hp & Hne & _ & _ & _ & U & N).
  unfold makedirs. destruct p as [|c p]; [congruence|].
  cbn [String.length]. rewrite makedirs_rec_step. cbv zeta.
  destruct (split_twice (String c p)) as [head tail] eqn:Sp.
  rewrite (mkdir_proper _ _ _ _ _ _ _ _ H G F).
  destruct (String.eqb head "") eqn:Eh; [reflexivity|].
  destruct (String.eqb tail "") eqn:Et; [reflexivity|].
  cbn [negb andb]. apply String.eqb_neq in Eh.
  destruct (split_twice_parts _ _ _ Sp Hne) as (_ & Ph & _ & Ah & _).
  assert (X : exists_ cwd root head = true).
  { unfold exists_, stat, resolve, start.
    apply String.eqb_neq in Eh. rewrite Eh. apply String.eqb_neq in Eh.
    rewrite (Ah Eh), Ph. fold (start cwd (String c p)).
    pose proof G as G'. rewrite <- U in G'.
    now rewrite (walk_dir _ _ _ _ _ _ N G'), U, G, G. }
  now rewrite X.
Qed.

End MakedirsFacts.
(** *** A directory removed and made again *)

Module ReplaceFacts.
Import Fs FsFacts PartsFacts SplitFacts PlaceFacts TreeFacts MakedirsFacts.
Local Open Scope list_scope.

Lemma remove_first_replace c v es :
  remove_first c (replace_entry c v es) = remove_first c es.
Proof.
  induction es as [|[k x] es IH]; simpl; [reflexivity|].
  destruct (String.eqb k c) eqn:E; simpl; rewrite E; [reflexivity|].
  now rewrite IH.
Qed.

(** [shutil.rmtree] of a directory reached without [..]. *)
Lemma rmtree_dir i cwd root p u g es :
  wf root = true -> no_dotdot p = true ->
  stat cwd root p = Got (Dir u g es) ->
  rmtree i cwd root p
  = rmtree_finish i cwd p (update (set_entries []) root (place cwd p)).
Proof.
  intros W N H. destruct (stat_place _ _ _ _ N H) as [Hp G].
  unfold rmtree. rewrite H.
  apply rmtree_node_spec; auto. exact (wf_get _ _ _ W G).
Qed.

Section Replace.

Variables (uid gid : Z) (cwd : position) (root : node) (p : string).
Variables (u g : Z) (es : list (string * node)).
Hypothesis Hwf : wf root = true.
Hypothesis Hproper : proper p = true.
Hypothesis Hstat : stat cwd root p = Got (Dir u g es).

Lemma replace_get_removed :
  exists u0 g0 es0,
    get (removed cwd root p) (parent_place cwd p)
    = Some (Dir u0 g0 (remove_first (last_part p) es0))
    /\ find_entry (last_part p) (remove_first (last_part p) es0) = None.
Proof.
  destruct (proper_inv _ Hproper) as (_ & _ & N & _).
  destruct (stat_place _ _ _ _ N Hstat) as [_ G].
  rewrite (place_parent _ _ Hproper) in G. fold (parent_place cwd p) in G.
  destruct (get_snoc _ _ _ _ G) as (u0 & g0 & es0 & G0 & F).
  exists u0, g0, es0. split.
  - unfold removed, emptied. rewrite (place_parent _ _ Hproper).
    fold (parent_place cwd p).
    rewrite update_app, update_update, (get_update _ _ _ _ G0).
    simpl. rewrite F. simpl. now rewrite remove_first_replace.
  - exact (wf_distinct u0 g0 es0 _ (wf_get _ _ _ Hwf G0)).
Qed.

Lemma replace_rmtree i : rmtree i cwd root p = (Got tt, removed cwd root p).
Proof.
  destruct (proper_inv _ Hproper) as (_ & _ & N & _).
  destruct (stat_place _ _ _ _ N Hstat) as [_ G].
  rewrite (rmtree_dir i _ _ _ _ _ _ Hwf N Hstat). fold (emptied cwd root p).
  unfold rmtree_finish.
  rewrite (rmdir_proper cwd (emptied cwd root p) p u g Hproper); [reflexivity|].
  unfold emptied. now rewrite (get_update _ _ _ _ G).
Qed.

Lemma replace_gone : exists_ cwd (removed cwd root p) p = false.
Proof.
  destruct (proper_inv _ Hproper) as (_ & _ & N & _).
  destruct replace_get_removed as (u0 & g0 & es0 & G & F).
  unfold exists_.
  destruct (stat cwd (removed cwd root p) p) as [n|e] eqn:S1; [|reflexivity].
  destruct (stat_place _ _ _ _ N S1) as [_ G1].
  rewrite (place_parent _ _ Hproper) in G1. fold (parent_place cwd p) in G1.
  rewrite get_app, G in G1. simpl in G1. rewrite F in G1. discriminate.
Qed.

Lemma replace_makedirs :
  makedirs uid gid cwd (removed cwd root p) p
  = (Got tt, made uid gid cwd root p).
Proof.
  destruct replace_get_removed as (u0 & g0 & es0 & G & F).
  exact (makedirs_proper _ _ _ _ _ _ _ _ Hproper G F).
Qed.

Lemma replace_made : stat cwd (made uid gid cwd root p) p = Got (Dir uid gid []).
Proof.
  destruct (proper_inv _ Hproper) as (Hp & _ & N & _).
  destruct replace_get_removed as (u0 & g0 & es0 & G & F).
  apply stat_dir; [assumption..|].
  rewrite (place_parent _ _ Hproper). fold (parent_place cwd p).
  unfold made. rewrite get_app, (get_update _ _ _ _ G). simpl.
  now rewrite (find_entry_snoc _ _ _ F).
Qed.

End Replace.

End ReplaceFacts.
(** ** The destination directory *)

Module MkdirFacts.

(** The two attempts of [mkdir], spelled out. *)
Lemma mkdir_cases env p w :
  mkdir env p w
  = let w1 := log w (EvMakedirs p) in
    match Fs.makedirs (euid env) (egid env) (cwd env) (fs w) p with
    | (Fs.Got _, f) => (Ok tt, set_fs w1 f)
    | (Fs.Err _, f) =>
        let w2 := log (set_fs w1 f) (EvRmtree p) in
        match Fs.rmtree false (cwd env) f p with
        | (Fs.Got _, f1) =>
            let w3 := log (set_fs w2 f1) (EvMakedirs p) in
            match Fs.makedirs (euid env) (egid env) (cwd env) f1 p with
            | (Fs.Got _, f2) => (Ok tt, set_fs w3 f2)
            | (Fs.Err _, f2) => (Raise OSError, set_fs w3 f2)
            end
        | (Fs.Err _, f1) => (Raise OSError, set_fs w2 f1)
        end
    end.
Proof.
  unfold mkdir, try_except, os_makedirs, shutil_rmtree, bind, os_library_call.
  cbn [fs log set_fs].
  destruct (Fs.makedirs (euid env) (egid env) (cwd env) (fs w) p) as [[[]|e] f];
    [reflexivity|].
  cbn [is_OSError fs log set_fs].
  destruct (Fs.rmtree false (cwd env) f p) as [[[]|e1] f1]; [|reflexivity].
  cbn [fs log set_fs].
  now destruct (Fs.makedirs (euid env) (egid env) (cwd env) f1 p) as [[[]|e2] f2].
Qed.

(** [mkdir] on a directory that is there, under a path of names. *)
Lemma mkdir_existing env p w u g es :
  Fs.wf (fs w) = true -> Fs.proper p = true ->
  Fs.stat (cwd env) (fs w) p = Fs.Got (Fs.Dir u g es) ->
  exists w',
    mkdir env p w = (Ok tt, w')
    /\ Fs.stat (cwd env) (fs w') p = Fs.Got (Fs.Dir (euid env) (egid env) [])
    /\ trace w' = (trace w ++ [EvMakedirs p; EvRmtree p; EvMakedirs p])%list
    /\ stdin w' = stdin w /\ stdout w' = stdout w /\ packages w' = packages w.
Proof.
  intros W P S. rewrite mkdir_cases. cbv zeta.
  rewrite (MakedirsFacts.makedirs_exists _ _ _ _ _ _ S).
  rewrite (ReplaceFacts.replace_rmtree _ _ _ _ _ _ W P S false).
  rewrite (ReplaceFacts.replace_makedirs (euid env) (egid env) _ _ _ _ _ _ W P S).
  eexists. split; [reflexivity|].
  cbn [fs trace stdin stdout packages log set_fs].
  split; [exact (ReplaceFacts.replace_made _ _ _ _ _ _ _ _ W P S)|].
  rewrite <- !app_assoc. simpl. auto.
Qed.

End MkdirFacts.

(** C4, as the code has it. When the destination directory of a placement
    is there already, in a well-formed tree and under a path written with
    names only, the placement step meets no error in that and asks
    nothing: its [mkdir] removes the directory with all it holds and makes
    it again, empty, and the step goes on with the copy and the change of
    owners from there. *)
Theorem placement_replaces_existing_directory
        (env : Env) (aip_model_inst : Store.Package) (aip_path : string)
        (aip_storage_location : Store.Location) (w : World)
        (aip_uuid_path : string) (u g : Z) (es : list (string * Fs.node)) :
  uuid_to_path (Store.uuid aip_model_inst) = Ok aip_uuid_path ->
  let aip_storage_location_path := Store.full_path aip_storage_location in
  let aip_new_home := PosixPath.join2 aip_storage_location_path [aip_uuid_path] in
  Fs.wf (fs w) = true ->
  Fs.proper aip_new_home = true ->
  Fs.stat (cwd env) (fs w) aip_new_home = Fs.Got (Fs.Dir u g es) ->
  exists w',
    mkdir env aip_new_home w = (Ok tt, w')
    /\ Fs.stat (cwd env) (fs w') aip_new_home
       = Fs.Got (Fs.Dir (euid env) (egid env) [])
    /\ trace w' = (trace w ++ [EvMakedirs aip_new_home; EvRmtree aip_new_home;
                               EvMakedirs aip_new_home])%list
    /\ stdin w' = stdin w /\ stdout w' = stdout w /\ packages w' = packages w
    /\ copy_aip_to_aip_storage_location env aip_model_inst aip_path
                                        aip_storage_location w
       = (let placed :=
            Store.set_current_path aip_model_inst
              (PosixPath.join2 aip_uuid_path
                 [PosixPath2.basename (PosixPath2.normpath aip_path)]) in
          copy_rsync env aip_path
            (PosixPath.join2 aip_storage_location_path
                             [Store.current_path placed]) ;;
          fix_ownership env placed aip_storage_location_path ;;
          ret placed) w'.
Proof.
  intros U. cbv zeta. intros W P S.
  destruct (MkdirFacts.mkdir_existing env _ w u g es W P S)
    as (w' & M & St & T & I & O & K).
  exists w'. repeat split; try assumption.
  unfold copy_aip_to_aip_storage_location, lift.
  unfold bind at 1. rewrite U. unfold bind at 1. now rewrite M.
Qed.

Lemma placement_replaces_existing_directory_witness :
  exists w',
    mkdir Demo.env Demo.destination Demo.world_occupied = (Ok tt, w')
    /\ Fs.stat Demo.cwd (fs w') Demo.destination = Fs.Got (Fs.Dir 0 0 [])
    /\ trace w' = [EvMakedirs Demo.destination; EvRmtree Demo.destination;
                   EvMakedirs Demo.destination]
    /\ stdin w' = [] /\ stdout w' = [] /\ packages w' = []
    /\ copy_aip_to_aip_storage_location Demo.env Demo.new_record
                                        "/tmp/tmpAIP/archive" Demo.L1
                                        Demo.world_occupied
       = (copy_rsync Demo.env "/tmp/tmpAIP/archive"
            (PosixPath.join2 Demo.destination ["archive"]) ;;
          fix_ownership Demo.env
            (Store.set_current_path Demo.new_record
               "e0a4/1934/c1d7/45ba/9a95/a753/1c06/3ed1/archive")
            "/var/store" ;;
          ret (Store.set_current_path Demo.new_record
                 "e0a4/1934/c1d7/45ba/9a95/a753/1c06/3ed1/archive")) w'.
Proof.
  apply (placement_replaces_existing_directory
           Demo.env Demo.new_record "/tmp/tmpAIP/archive" Demo.L1
           Demo.world_occupied "e0a4/1934/c1d7/45ba/9a95/a753/1c06/3ed1"
           0 0 [("keep.txt", Fs.File 0 0 "precious")]).
  - reflexivity.
  - vm_compute. reflexivity.
  - vm_compute. reflexivity.
  - vm_compute. reflexivity.
Defined.

(** C4 as stated fails: the destination exists and holds [keep.txt]; the
    placement step raises nothing and the file is gone afterwards. *)
Lemma placement_overwrites_destination :
  let w := Demo.world_occupied in
  let keep := PosixPath.join2 Demo.destination ["keep.txt"] in
  let r := copy_aip_to_aip_storage_location
             Demo.env Demo.new_record "/tmp/tmpAIP/archive" Demo.L1 w in
  Fs.isdir Demo.cwd (fs w) Demo.destination = true
  /\ Fs.stat Demo.cwd (fs w) keep = Fs.Got (Fs.File 0 0 "precious")
  /\ ~ ((exists e, fst r = Raise e)
        \/ Fs.stat Demo.cwd (fs (snd r)) keep = Fs.stat Demo.cwd (fs w) keep).
Proof.
  cbv zeta. split; [vm_compute; reflexivity|].
  split; [vm_compute; reflexivity|].
  intros [[e H]|H]; vm_compute in H; discriminate.
Qed.

(** C8. After [fix_ownership] the directories of the destination tree
    belong to user and group of [archivematica] (333 and 334 here), the
    regular files to user 333 and group 333: the last [os.chown] passes the
    uid where the gid belongs. The tree is the bag as it was copied to
    [/var/store/e0a4/.../3ed1/archive], owned by the importing process. *)
Theorem fix_ownership_sets_file_group_to_uid :
  let w := Demo.world_copied in
  let home := PosixPath.join2 Demo.destination ["archive"] in
  let r := fix_ownership Demo.env Demo.new_record "/var/store" w in
  getpwnam Demo.env "archivematica" = Some (333, 334)%Z
  /\ Fs.stat Demo.cwd (fs w) (PosixPath.join2 home ["bagit.txt"])
     = Fs.Got (Fs.File 0 0 "BagIt-Version: 0.97")
  /\ fst r = Ok tt
  /\ Fs.stat Demo.cwd (fs (snd r)) (PosixPath.join2 home ["bagit.txt"])
     = Fs.Got (Fs.File 333 333 "BagIt-Version: 0.97")
  /\ Fs.stat Demo.cwd (fs (snd r)) (PosixPath.join2 home ["data"; "objects"; "a.txt"])
     = Fs.Got (Fs.File 333 333 "hello")
  /\ (exists es, Fs.stat Demo.cwd (fs (snd r)) home = Fs.Got (Fs.Dir 333 334 es))
  /\ (exists es, Fs.stat Demo.cwd (fs (snd r)) "/var/store/e0a4"
                 = Fs.Got (Fs.Dir 333 334 es)).
Proof.
  cbv zeta. repeat split; try (vm_compute; reflexivity);
    vm_compute; eexists; reflexivity.
Qed.

(** ** What a step of the command leaves alone *)

Create HintDb keeps.

Section Framing.

Context {X : Type} (view : World -> X).

Abbreviation keeps := (keeps_view view).

Lemma keeps_ret {A} (a : A) : keeps (ret a).
Proof. intros w r w' H. now inversion H. Qed.

Lemma keeps_raise {A} (e : exn) : keeps (@raise A e).
Proof. intros w r w' H. now inversion H. Qed.

Lemma keeps_lift {A} (x : res A) : keeps (lift x).
Proof. intros w r w' H. now inversion H. Qed.

Lemma keeps_bind {A B} (m : M A) (k : A -> M B) :
  keeps m -> (forall a, keeps (k a)) -> keeps (bind m k).
Proof.
  intros Hm Hk w r w' H. unfold bind in H.
  destruct (m w) as [[a|e] w1] eqn:E.
  - rewrite (Hk _ _ _ _ H). exact (Hm _ _ _ E).
  - inversion H; subst. exact (Hm _ _ _ E).
Qed.

Lemma keeps_try_except {A} (m h : M A) catches :
  keeps m -> keeps h -> keeps (try_except m catches h).
Proof.
  intros Hm Hh w r w' H. unfold try_except in H.
  destruct (m w) as [[a|e] w1] eqn:E.
  - inversion H; subst. exact (Hm _ _ _ E).
  - destruct (catches e).
    + rewrite (Hh _ _ _ H). exact (Hm _ _ _ E).
    + inversion H; subst. exact (Hm _ _ _ E).
Qed.

Lemma keeps_for_each {A} (l : list A) (body : A -> M unit) :
  (forall a, keeps (body a)) -> keeps (for_each l body).
Proof.
  intros Hb. induction l as [|x l IH]; simpl.
  - apply keeps_ret.
  - apply keeps_bind; auto.
Qed.

Lemma keeps_reader {A} (f : World -> res A) : keeps (fun w => (f w, w)).
Proof. intros w r w' H. now inversion H. Qed.

Hypothesis view_fs : forall w f, view (set_fs w f) = view w.
Hypothesis view_emit : forall w s, view (emit w s) = view w.
Hypothesis view_stdin : forall w l, view (set_stdin w l) = view w.

Variable env : Env.

Lemma keeps_print s : keeps (print s).
Proof. intros w r w' H. inversion H. apply view_emit. Qed.

Lemma keeps_raw_input s : keeps (raw_input s).
Proof.
  intros w r w' H. unfold raw_input in H.
  destruct (stdin (emit w s)); inversion H; subst.
  - apply view_emit.
  - rewrite view_stdin. apply view_emit.
Qed.

Lemma keeps_mkdtemp : keeps (tempfile_mkdtemp env).
Proof.
  intros w r w' H. unfold tempfile_mkdtemp in H.
  destruct (mkdtemp env (fs w)) as [[d f]|e]; inversion H; subst; auto.
Qed.

Lemma keeps_extractall a p : keeps (tarfile_extractall env a p).
Proof.
  intros w r w' H. unfold tarfile_extractall in H.
  destruct (tar_extractall env (fs w) a p); inversion H; subst; auto.
Qed.

Lemma keeps_getpwnam n : keeps (pwd_getpwnam env n).
Proof.
  unfold pwd_getpwnam. destruct (getpwnam env n);
    [apply keeps_ret | apply keeps_raise].
Qed.

Lemma keeps_objects_get {A} model (l : list A) : keeps (objects_get model l).
Proof.
  unfold objects_get. destruct l as [|x [|y l]];
    [apply keeps_raise | apply keeps_ret | apply keeps_raise].
Qed.

Lemma keeps_objects_get_of {A} model (sel : World -> list A) :
  keeps (fun w => objects_get model (sel w) w).
Proof. intros w r w' H. exact (keeps_objects_get _ _ _ _ _ H). Qed.

Hint Resolve keeps_ret keeps_raise keeps_lift keeps_print keeps_raw_input
     keeps_mkdtemp keeps_extractall keeps_getpwnam keeps_objects_get
     keeps_objects_get_of : keeps.

Ltac keeps_steps :=
  repeat first
    [ solve [auto with keeps]
    | apply keeps_bind; [|intros]
    | apply keeps_try_except
    | apply keeps_for_each; intros
    | apply keeps_reader
    | match goal with
      | |- keeps (if ?b then _ else _) => destruct b
      | |- keeps (match ?x with _ => _ end) => destruct x
      end ].

Lemma keeps_confirm_aip_exists a : keeps (confirm_aip_exists env a).
Proof. unfold confirm_aip_exists, os_path_exists. keeps_steps. Qed.

Lemma keeps_decompress_aip a : keeps (decompress_aip env a).
Proof.
  unfold decompress_aip, is_compressed, os_path_isfile, decompress,
    tarfile_getnames.
  keeps_steps.
Qed.

Lemma keeps_validate a : keeps (validate env a).
Proof. unfold validate, bagit_is_valid. keeps_steps. Qed.

Lemma keeps_get_aip_mets_path a : keeps (get_aip_mets_path env a).
Proof. unfold get_aip_mets_path, glob_glob. keeps_steps. Qed.

Lemma keeps_identify_aip a : keeps (identify_aip env a).
Proof.
  unfold identify_aip.
  pose proof keeps_confirm_aip_exists. pose proof keeps_decompress_aip.
  pose proof keeps_validate. pose proof keeps_get_aip_mets_path.
  keeps_steps.
Qed.

Lemma keeps_check_if_aip_already_exists u :
  keeps (check_if_aip_already_exists u).
Proof. unfold check_if_aip_already_exists, Package_filter. keeps_steps. Qed.

Lemma keeps_get_aip_storage_location u : keeps (get_aip_storage_location u).
Proof.
  unfold get_aip_storage_location, Settings_get_value, Location_get.
  keeps_steps.
Qed.

Lemma keeps_get_pipeline u : keeps (get_pipeline u).
Proof.
  unfold get_pipeline, Pipeline_get, Pipeline_first. keeps_steps.
Qed.

Lemma keeps_recalculate_size a : keeps (recalculate_size a).
Proof. unfold recalculate_size. keeps_steps. Qed.

Lemma keeps_os_call a : keeps (os_call a).
Proof.
  intros w r w' H. unfold os_call in H.
  destruct a; inversion H; subst; auto.
Qed.

Lemma keeps_os_library_call a : keeps (os_library_call a).
Proof.
  intros w r w' H. unfold os_library_call in H.
  destruct a as [[[]|e] f]; inversion H; subst; auto.
Qed.

Lemma keeps_os_rmdir p : keeps (os_rmdir env p).
Proof. intros w r w' H. exact (keeps_os_call _ _ _ _ H). Qed.

Lemma keeps_rmtree_ignore_errors p : keeps (shutil_rmtree_ignore_errors env p).
Proof. intros w r w' H. exact (keeps_os_library_call _ _ _ _ H). Qed.

(** From here on the steps log what they do to the file system. *)
Hypothesis view_log :
  forall w e, is_store_write e = false -> view (log w e) = view w.

Lemma keeps_os_makedirs p : keeps (os_makedirs env p).
Proof.
  intros w r w' H. unfold os_makedirs in H.
  rewrite (keeps_os_library_call _ _ _ _ H). now apply view_log.
Qed.

Lemma keeps_shutil_rmtree p : keeps (shutil_rmtree env p).
Proof.
  intros w r w' H. unfold shutil_rmtree in H.
  rewrite (keeps_os_library_call _ _ _ _ H). now apply view_log.
Qed.

Lemma keeps_os_chown p u g : keeps (os_chown env p u g).
Proof.
  intros w r w' H. unfold os_chown in H.
  rewrite (keeps_os_call _ _ _ _ H). now apply view_log.
Qed.

Lemma keeps_run_rsync s d : keeps (run_rsync env s d).
Proof.
  intros w r w' H. unfold run_rsync in H.
  destruct (rsync env (fs w) s d) as [rc f]. inversion H; subst.
  rewrite view_log by reflexivity. apply view_fs.
Qed.

Hint Resolve keeps_os_makedirs keeps_shutil_rmtree keeps_os_chown
     keeps_run_rsync : keeps.

Lemma keeps_mkdir p : keeps (mkdir env p).
Proof. unfold mkdir. keeps_steps. Qed.

Lemma keeps_copy_rsync s d : keeps (copy_rsync env s d).
Proof. unfold copy_rsync. keeps_steps. Qed.

Lemma keeps_fix_ownership inst p : keeps (fix_ownership env inst p).
Proof. unfold fix_ownership, os_walk. keeps_steps. Qed.

Lemma keeps_copy_aip inst a loc :
  keeps (copy_aip_to_aip_storage_location env inst a loc).
Proof.
  unfold copy_aip_to_aip_storage_location.
  pose proof keeps_mkdir. pose proof keeps_copy_rsync.
  pose proof keeps_fix_ownership.
  keeps_steps.
Qed.

Lemma keeps_place_aip a u l p : keeps (place_aip env a u l p).
Proof.
  unfold place_aip.
  pose proof keeps_get_aip_storage_location.
  pose proof keeps_recalculate_size. pose proof keeps_get_pipeline.
  pose proof keeps_copy_aip.
  keeps_steps.
Qed.

Lemma keeps_prepare_aip a l p : keeps (prepare_aip env a l p).
Proof.
  unfold prepare_aip.
  pose proof keeps_identify_aip.
  pose proof keeps_check_if_aip_already_exists.
  pose proof keeps_place_aip.
  keeps_steps.
Qed.

End Framing.

Lemma store_view_log w e :
  is_store_write e = false -> store_view (log w e) = store_view w.
Proof.
  intros H. unfold store_view, store_writes. simpl.
  rewrite filter_app. simpl. rewrite H. now rewrite app_nil_r.
Qed.

(** No step before the save touches the record store. *)
Lemma prepare_aip_keeps_store env a l p :
  keeps_view store_view (prepare_aip env a l p).
Proof.
  apply keeps_prepare_aip; try reflexivity. apply store_view_log.
Qed.

Lemma place_aip_keeps_store env a u l p :
  keeps_view store_view (place_aip env a u l p).
Proof.
  apply keeps_place_aip; try reflexivity. apply store_view_log.
Qed.

(** Up to the duplicate check nothing is logged either. *)
Lemma identify_aip_quiet env a : keeps_view quiet_view (identify_aip env a).
Proof. apply keeps_identify_aip; reflexivity. Qed.

(** ** Decompression *)

(** C5. A regular file that does not end in [.tar.gz] is refused by the
    decompression step with an [ImportAIPException], before anything is
    unpacked; a directory is handed on unchanged. *)
Theorem decompress_aip_recognized_extension
        (env : Env) (w : World) (aip_path : string) :
  (Py.endswith aip_path ".tar.gz" = false ->
   decompress env aip_path w
   = (Raise (ImportAIPException ("Unable to decompress the AIP at " ++ aip_path)), w))
  /\ (Fs.isfile (cwd env) (fs w) aip_path = true ->
      Py.endswith aip_path ".tar.gz" = false ->
      decompress_aip env aip_path w
      = (Raise (ImportAIPException ("Unable to decompress the AIP at " ++ aip_path)), w))
  /\ (Fs.isdir (cwd env) (fs w) aip_path = true ->
      decompress_aip env aip_path w = (Ok aip_path, w)).
Proof.
  split; [|split].
  - intros E. unfold decompress. now rewrite E.
  - intros F E.
    unfold decompress_aip, is_compressed, os_path_isfile, bind, decompress.
    now rewrite F, E.
  - intros D.
    unfold decompress_aip, is_compressed, os_path_isfile, bind.
    unfold Fs.isdir in D. unfold Fs.isfile.
    destruct (Fs.stat (cwd env) (fs w) aip_path) as [[|]|]; try discriminate.
    reflexivity.
Qed.

Lemma decompress_aip_recognized_extension_witness :
  decompress Demo.env "/tmp/archive.zip" Demo.world0
  = (Raise (ImportAIPException "Unable to decompress the AIP at /tmp/archive.zip"),
     Demo.world0)
  /\ decompress_aip Demo.env "/tmp/archive.zip" Demo.world0
     = (Raise (ImportAIPException
                 "Unable to decompress the AIP at /tmp/archive.zip"),
        Demo.world0)
  /\ decompress_aip Demo.env "/var/store" Demo.world0
     = (Ok "/var/store", Demo.world0).
Proof.
  split; [|split].
  - apply (proj1 (decompress_aip_recognized_extension
                    Demo.env Demo.world0 "/tmp/archive.zip")).
    reflexivity.
  - apply (proj1 (proj2 (decompress_aip_recognized_extension
                           Demo.env Demo.world0 "/tmp/archive.zip")));
      reflexivity.
  - apply (proj2 (proj2 (decompress_aip_recognized_extension
                           Demo.env Demo.world0 "/var/store"))).
    reflexivity.
Defined.

(** ** Saving the record *)

Module SaveFacts.
Import Store.

Lemma Package_save_ok inst w u w1 :
  Package_save inst w = (Ok u, w1) ->
  filter_uuid (uuid inst) (rows_at_save w) = []
  /\ packages w1 = (rows_at_save w ++ [inst])%list
  /\ trace w1 = (trace w ++ [EvSave inst true])%list.
Proof.
  unfold Package_save, insert. fold (rows_at_save w).
  destruct (filter_uuid (uuid inst) (rows_at_save w)) eqn:F;
    intros H; inversion H; subst. simpl. auto.
Qed.

Lemma Package_save_raise inst w e w1 :
  Package_save inst w = (Raise e, w1) ->
  e = IntegrityError
  /\ filter_uuid (uuid inst) (rows_at_save w) <> []
  /\ packages w1 = rows_at_save w
  /\ trace w1 = (trace w ++ [EvSave inst false])%list.
Proof.
  unfold Package_save, insert. fold (rows_at_save w).
  destruct (filter_uuid (uuid inst) (rows_at_save w)) eqn:F;
    intros H; inversion H; subst. simpl. repeat split. discriminate.
Qed.

Lemma filter_uuid_app u a b :
  filter_uuid u (a ++ b) = (filter_uuid u a ++ filter_uuid u b)%list.
Proof. apply filter_app. Qed.

(** Other importers only add rows. *)
Lemma commit_others_grows u new : forall rows,
  filter_uuid u rows <> [] -> filter_uuid u (commit_others new rows) <> [].
Proof.
  unfold commit_others.
  induction new as [|p new IH]; intros rows H; simpl; [assumption|].
  apply IH. unfold insert.
  destruct (filter_uuid (uuid p) rows); [|assumption].
  rewrite filter_uuid_app. intros E. apply app_eq_nil in E as [E _]. auto.
Qed.

Lemma filter_delete_uuid u rows : filter_uuid u (delete_uuid u rows) = [].
Proof.
  unfold filter_uuid, delete_uuid.
  induction rows as [|p rows IH]; simpl; [reflexivity|].
  destruct (has_uuid u p) eqn:E; simpl; [assumption|]. now rewrite E.
Qed.

(** After a save that went through, the saved record is the only one of
    its UUID. *)
Lemma Package_save_unique inst w u w1 :
  Package_save inst w = (Ok u, w1) ->
  filter_uuid (uuid inst) (packages w1) = [inst].
Proof.
  intros H. apply Package_save_ok in H as (F & P & _).
  rewrite P, filter_uuid_app, F. simpl.
  unfold has_uuid. now rewrite String.eqb_refl.
Qed.

End SaveFacts.

(** C6. [save_aip_model_instance] saves once when the save goes through,
    with no deletion. When the save raises [IntegrityError] it deletes the
    records of the same UUID and saves a second time; the outcome of that
    second save is the outcome of the call, a second [IntegrityError]
    included. *)
Theorem save_aip_model_instance_retries_once
        (inst : Store.Package) (w : World) :
  match Package_save inst w with
  | (Ok _, w1) =>
      save_aip_model_instance inst w = (Ok tt, w1)
      /\ trace w1 = (trace w ++ [EvSave inst true])%list
  | (Raise IntegrityError, w1) =>
      let w2 := snd (Package_filter_delete (Store.uuid inst) w1) in
      save_aip_model_instance inst w = Package_save inst w2
      /\ packages w2 = Store.delete_uuid (Store.uuid inst) (packages w1)
      /\ Store.filter_uuid (Store.uuid inst) (packages w2) = []
      /\ exists stored,
          trace (snd (Package_save inst w2))
          = (trace w ++ [EvSave inst false; EvDelete (Store.uuid inst);
                         EvSave inst stored])%list
          /\ fst (Package_save inst w2)
             = if stored then Ok tt else Raise IntegrityError
  | (Raise e, w1) => save_aip_model_instance inst w = (Raise e, w1)
  end.
Proof.
  destruct (Package_save inst w) as [[[]|e] w1] eqn:E.
  - split.
    + unfold save_aip_model_instance, try_except. now rewrite E.
    + now apply SaveFacts.Package_save_ok in E.
  - pose proof (SaveFacts.Package_save_raise _ _ _ _ E) as (-> & _ & _ & T).
    cbv zeta. split; [|split; [|split]].
    + unfold save_aip_model_instance, try_except, bind. rewrite E. reflexivity.
    + reflexivity.
    + apply SaveFacts.filter_delete_uuid.
    + set (w2 := snd (Package_filter_delete (Store.uuid inst) w1)).
      assert (T2 : trace w2 = (trace w ++ [EvSave inst false;
                                           EvDelete (Store.uuid inst)])%list).
      { unfold w2. simpl. rewrite T, <- app_assoc. reflexivity. }
      destruct (Package_save inst w2) as [[[]|e2] w3] eqn:E2.
      * exists true. apply SaveFacts.Package_save_ok in E2 as (_ & _ & T3).
        simpl. rewrite T3, T2, <- app_assoc. auto.
      * exists false.
        apply SaveFacts.Package_save_raise in E2 as (-> & _ & _ & T3).
        simpl. rewrite T3, T2, <- app_assoc. auto.
Qed.

(** ** The order of the pipeline *)

Module PipelineFacts.
Import Store.

(** Case analysis on the next step of a computation in [M]. *)
Ltac next_step :=
  match goal with
  | |- context [match ?m ?w with _ => _ end] =>
      lazymatch type of w with
      | World => destruct (m w) as [[?|?] ?] eqn:?
      end
  end.

Ltac next_step_in H :=
  match type of H with
  | context [match ?m ?w with _ => _ end] =>
      lazymatch type of w with
      | World => destruct (m w) as [[?|?] ?] eqn:?
      end
  end.

(** What the placement step hands on: the record with its sharded path,
    written by an rsync run that exited with 0. *)
Lemma copy_aip_result env inst a loc w inst' w' :
  copy_aip_to_aip_storage_location env inst a loc w = (Ok inst', w') ->
  exists p f,
    uuid_to_path (uuid inst) = Ok p
    /\ inst' = set_current_path inst
                 (PosixPath.join2 p [PosixPath2.basename (PosixPath2.normpath a)])
    /\ fst (rsync env f (PosixPath.join2 a [EmptyString])
                  (PosixPath.join2 (full_path loc) [current_path inst'])) = 0%Z.
Proof.
  unfold copy_aip_to_aip_storage_location, bind, lift.
  destruct (uuid_to_path (uuid inst)) as [p|e]; [|discriminate].
  intros H.
  destruct (mkdir env _ w) as [[[]|e] wm] eqn:Mk; [|discriminate].
  destruct (copy_rsync env a _ wm) as [[[]|e] wr] eqn:C; [|discriminate].
  destruct (fix_ownership env _ _ wr) as [[[]|e] wf] eqn:Fx; [|discriminate].
  inversion H; subst. exists p, (fs wm). split; [reflexivity|].
  split; [reflexivity|].
  revert C. unfold copy_rsync, bind, run_rsync.
  destruct (rsync env (fs wm) _ _) as [rc f]. simpl.
  destruct (Z.eqb rc 0) eqn:Z0; simpl; [|discriminate].
  intros _. now apply Z.eqb_eq.
Qed.

(** [import_aip] asks [utils] for [recalculate_size] once the storage
    location is resolved, and [utils] has no such name: the steps after it
    are never reached. *)
Lemma place_aip_stops env a u l p w :
  place_aip env a u l p w
  = match get_aip_storage_location l w with
    | (Ok _, w0) => (Raise AttributeError, w0)
    | (Raise e, w0) => (Raise e, w0)
    end.
Proof.
  unfold place_aip, bind, recalculate_size, raise.
  now destruct (get_aip_storage_location l w) as [[loc|e] w0].
Qed.

Lemma place_aip_raises env a u l p w r w' :
  place_aip env a u l p w = (r, w') -> exists e, r = Raise e.
Proof.
  rewrite place_aip_stops.
  destruct (get_aip_storage_location l w) as [[loc|e] w0];
    intros H; inversion H; eauto.
Qed.

Lemma prepare_aip_raises env a l p w r w' :
  prepare_aip env a l p w = (r, w') -> exists e, r = Raise e.
Proof.
  unfold prepare_aip, bind.
  destruct (identify_aip env a w) as [[[d u]|e] w1];
    [|intros H; inversion H; eauto].
  cbn [fst snd].
  destruct (check_if_aip_already_exists u w1) as [[[]|e] w2];
    [|intros H; inversion H; eauto].
  apply place_aip_raises.
Qed.

Lemma import_aip_factors env a l p w :
  import_aip env a l p w
  = (inst <- prepare_aip env a l p ;;
     save_aip_model_instance inst ;;
     print (okgreen ("Successfully imported AIP " ++ uuid inst ++ "."))) w.
Proof.
  unfold import_aip, prepare_aip, identify_aip, place_aip, bind, ret,
    recalculate_size, raise.
  repeat (cbn [fst snd]; next_step; try reflexivity).
Qed.

(** So it always raises. *)
Lemma import_aip_raises env a l p w r w' :
  import_aip env a l p w = (r, w') -> exists e, r = Raise e.
Proof.
  rewrite import_aip_factors. unfold bind at 1.
  destruct (prepare_aip env a l p w) as [[inst|e] wp] eqn:P.
  - apply prepare_aip_raises in P as [e P]. discriminate.
  - intros H. inversion H. eauto.
Qed.

End PipelineFacts.

(** C3. The save is the last step of [import_aip] but for the closing
    message; no step before it writes to the record store; so when a step
    before it raises, [import_aip] raises the same exception and the record
    store is as it was. [copy_rsync] raises when rsync exits with anything
    but 0, and the placement step hands a record on only after the rsync
    run to its destination path exited with 0. *)
Theorem import_aip_saves_last
        (env : Env) (aip_path location : string) (pipeline : option string)
        (w : World) :
  import_aip env aip_path location pipeline w
  = (inst <- prepare_aip env aip_path location pipeline ;;
     save_aip_model_instance inst ;;
     print (okgreen ("Successfully imported AIP " ++ Store.uuid inst ++ "."))) w
  /\ (forall r w',
        prepare_aip env aip_path location pipeline w = (r, w') ->
        packages w' = packages w
        /\ store_writes (trace w') = store_writes (trace w))
  /\ (forall e w',
        prepare_aip env aip_path location pipeline w = (Raise e, w') ->
        import_aip env aip_path location pipeline w = (Raise e, w'))
  /\ (forall inst w',
        prepare_aip env aip_path location pipeline w = (Ok inst, w') ->
        exists f source,
          fst (rsync env f source
                     (PosixPath.join2
                        (Store.full_path (Store.current_location inst))
                        [Store.current_path inst])) = 0%Z)
  /\ (forall inst source aip_storage_location w0 placed w1,
        copy_aip_to_aip_storage_location env inst source aip_storage_location w0
        = (Ok placed, w1) ->
        exists f,
          fst (rsync env f (PosixPath.join2 source [EmptyString])
                     (PosixPath.join2 (Store.full_path aip_storage_location)
                                      [Store.current_path placed])) = 0%Z)
  /\ (forall source destination w0,
        fst (rsync env (fs w0) (PosixPath.join2 source [EmptyString]) destination)
        <> 0%Z ->
        exists w1,
          copy_rsync env source destination w0
          = (Raise (ImportAIPException
                      ("Unable to move the AIP from "
                         ++ PosixPath.join2 source [EmptyString] ++ " to "
                         ++ destination ++ ".")), w1)
          /\ packages w1 = packages w0).
Proof.
  split; [apply PipelineFacts.import_aip_factors|].
  split; [|split; [|split; [|split]]].
  - intros r w' H.
    pose proof (prepare_aip_keeps_store env aip_path location pipeline _ _ _ H) as K.
    unfold store_view in K. now inversion K.
  - intros e w' H. rewrite PipelineFacts.import_aip_factors.
    unfold bind at 1. now rewrite H.
  - intros inst w' H.
    apply PipelineFacts.prepare_aip_raises in H as [e H]. discriminate.
  - intros inst source loc w0 placed w1 H.
    apply PipelineFacts.copy_aip_result in H as (p & f & _ & _ & R). eauto.
  - intros source destination w0 H.
    unfold copy_rsync, bind, run_rsync.
    destruct (rsync env (fs w0) _ destination) as [rc f]. simpl in *.
    destruct (Z.eqb rc 0) eqn:Z0; [apply Z.eqb_eq in Z0; contradiction|].
    simpl. eexists. split; reflexivity.
Qed.

(** ** Duplicates *)

Module DuplicateFacts.
Import Store SaveFacts PipelineFacts.

Lemma save_unique inst w u w' :
  save_aip_model_instance inst w = (Ok u, w') ->
  filter_uuid (uuid inst) (packages w') = [inst].
Proof.
  unfold save_aip_model_instance, try_except.
  destruct (Package_save inst w) as [[[]|e] w1] eqn:E.
  - intros H. inversion H; subst. exact (Package_save_unique _ _ _ _ E).
  - apply Package_save_raise in E as (-> & _). simpl.
    unfold bind, Package_filter_delete. apply Package_save_unique.
Qed.

Lemma save_over_duplicate inst w u w' :
  filter_uuid (uuid inst) (packages w) <> [] ->
  save_aip_model_instance inst w = (Ok u, w') ->
  trace w' = (trace w ++ [EvSave inst false; EvDelete (uuid inst);
                          EvSave inst true])%list.
Proof.
  intros D. unfold save_aip_model_instance, try_except.
  destruct (Package_save inst w) as [[[]|e] w1] eqn:E.
  - apply Package_save_ok in E as (F & _).
    unfold rows_at_save in F.
    elim (commit_others_grows _ _ _ D F).
  - apply Package_save_raise in E as (-> & _ & _ & T). simpl.
    unfold bind, Package_filter_delete. intros H.
    apply Package_save_ok in H as (_ & _ & T'). simpl in T'.
    now rewrite T', T, <- !app_assoc.
Qed.

(** The duplicate check when a record of the UUID exists. *)
Lemma check_outcome u w :
  filter_uuid u (packages w) <> [] ->
  check_if_aip_already_exists u w
  = match stdin w with
    | [] => (Raise EOFError, emit w (duplicate_prompt u))
    | line :: rest =>
        (if confirms line then Ok tt
         else Raise (ImportAIPException
                       "Aborting importation of an already existing AIP"),
         set_stdin (emit w (duplicate_prompt u)) rest)
    end.
Proof.
  intros D. unfold check_if_aip_already_exists, bind, Package_filter, raw_input.
  destruct (filter_uuid u (packages w)); [congruence|].
  simpl. destruct (stdin w) as [|line rest]; [reflexivity|].
  destruct (confirms line); reflexivity.
Qed.

Lemma import_after_identify env a l p w d u w1 :
  identify_aip env a w = (Ok (d, u), w1) ->
  import_aip env a l p w
  = (check_if_aip_already_exists u ;;
     inst <- place_aip env d u l p ;;
     save_aip_model_instance inst ;;
     print (okgreen ("Successfully imported AIP " ++ uuid inst ++ "."))) w1.
Proof.
  intros I. rewrite import_aip_factors.
  unfold prepare_aip, bind. rewrite I. cbn [fst snd].
  destruct (check_if_aip_already_exists u w1) as [[[]|e] w2]; reflexivity.
Qed.

Lemma check_without_duplicates u w :
  filter_uuid u (packages w) = [] ->
  check_if_aip_already_exists u w = (Ok tt, w).
Proof.
  intros H. unfold check_if_aip_already_exists, bind, Package_filter.
  now rewrite H.
Qed.

Lemma basename_unslashed p :
  Py.contains_char "/" (PosixPath2.basename p) = false.
Proof.
  induction p as [|c r IH]; simpl; [reflexivity|].
  destruct (Py.contains_char "/" r) eqn:E; [exact IH|].
  destruct (Ascii.eqb c "/") eqn:C; [exact E|].
  simpl. now rewrite C, E.
Qed.

End DuplicateFacts.

(** C2. The AIP at [aip_path] is identified as [aip_uuid] and a record of
    that UUID exists. Unless the answer to the prompt is [y] or [yes],
    [import_aip] raises, with the record store and the trace of transfers
    as they were. With that answer the import goes on, and stops at the
    next step but one: once the storage location is resolved it raises
    [AttributeError] for want of [utils.recalculate_size], and raises in
    any case. Nothing was placed, and the package table is what it was:
    the earlier record is still there, not replaced. The replacement is
    what the save does where it is reached and returns: over a record of
    the same UUID the first save is refused, the records of the UUID are
    deleted, and the second save leaves the new record as the only one. *)
Theorem import_aip_duplicate
        (env : Env) (aip_path location : string) (pipeline : option string)
        (w w1 : World) (aip_dir aip_uuid : string) :
  identify_aip env aip_path w = (Ok (aip_dir, aip_uuid), w1) ->
  Store.filter_uuid aip_uuid (packages w) <> [] ->
  (forall line rest,
      stdin w1 = line :: rest -> confirms line = false ->
      exists w',
        import_aip env aip_path location pipeline w
        = (Raise (ImportAIPException
                    "Aborting importation of an already existing AIP"), w')
        /\ packages w' = packages w /\ trace w' = trace w /\ fs w' = fs w1)
  /\ (stdin w1 = [] ->
      exists w',
        import_aip env aip_path location pipeline w = (Raise EOFError, w')
        /\ packages w' = packages w /\ trace w' = trace w /\ fs w' = fs w1)
  /\ (forall line rest,
        stdin w1 = line :: rest -> confirms line = true ->
        let asked := set_stdin (emit w1 (duplicate_prompt aip_uuid)) rest in
        import_aip env aip_path location pipeline w
        = (inst <- place_aip env aip_dir aip_uuid location pipeline ;;
           save_aip_model_instance inst ;;
           print (okgreen ("Successfully imported AIP " ++ Store.uuid inst ++ ".")))
            asked
        /\ import_aip env aip_path location pipeline w
           = match get_aip_storage_location location asked with
             | (Ok _, w') => (Raise AttributeError, w')
             | (Raise e, w') => (Raise e, w')
             end
        /\ exists e w',
            import_aip env aip_path location pipeline w = (Raise e, w')
            /\ packages w' = packages w /\ trace w' = trace w /\ fs w' = fs w1
            /\ Store.filter_uuid aip_uuid (packages w') <> [])
  /\ (forall inst w0 w0',
        Store.uuid inst = aip_uuid ->
        Store.filter_uuid aip_uuid (packages w0) <> [] ->
        save_aip_model_instance inst w0 = (Ok tt, w0') ->
        Store.filter_uuid aip_uuid (packages w0') = [inst]
        /\ trace w0'
           = (trace w0 ++ [EvSave inst false; EvDelete aip_uuid;
                           EvSave inst true])%list).
Proof.
  intros I D.
  pose proof (identify_aip_quiet env aip_path _ _ _ I) as Q.
  unfold quiet_view in Q. injection Q as QP QO QT.
  assert (D1 : Store.filter_uuid aip_uuid (packages w1) <> []).
  { rewrite QP. exact D. }
  pose proof (DuplicateFacts.check_outcome _ _ D1) as C.
  pose proof (DuplicateFacts.import_after_identify
                env aip_path location pipeline _ _ _ _ I) as F.
  split; [|split; [|split]].
  - intros line rest S N. rewrite S, N in C.
    eexists. rewrite F. unfold bind at 1. rewrite C.
    split; [reflexivity|]. simpl. auto.
  - intros S. rewrite S in C.
    eexists. rewrite F. unfold bind at 1. rewrite C.
    split; [reflexivity|]. simpl. auto.
  - intros line rest S Y. rewrite S, Y in C. cbv zeta.
    set (asked := set_stdin (emit w1 (duplicate_prompt aip_uuid)) rest) in *.
    assert (E1 : import_aip env aip_path location pipeline w
                 = (inst <- place_aip env aip_dir aip_uuid location pipeline ;;
                    save_aip_model_instance inst ;;
                    print (okgreen ("Successfully imported AIP "
                                      ++ Store.uuid inst ++ "."))) asked).
    { rewrite F. unfold bind at 1. now rewrite C. }
    assert (E2 : import_aip env aip_path location pipeline w
                 = match get_aip_storage_location location asked with
                   | (Ok _, w') => (Raise AttributeError, w')
                   | (Raise e, w') => (Raise e, w')
                   end).
    { rewrite E1. unfold bind at 1. rewrite PipelineFacts.place_aip_stops.
      now destruct (get_aip_storage_location location asked) as [[loc|e] w']. }
    split; [exact E1|]. split; [exact E2|].
    destruct (get_aip_storage_location location asked) as [r w'] eqn:L.
    pose proof (keeps_get_aip_storage_location
                  (fun x => (packages x, trace x, fs x)) _ _ _ _ L) as K.
    injection K as KP KT KF. simpl in KP, KT, KF.
    exists (match r with Ok _ => AttributeError | Raise e => e end), w'.
    split; [rewrite E2; now destruct r|].
    rewrite KP, KT, KF. repeat split; assumption.
  - intros inst w0 w0' <- D0 Sv. split.
    + exact (DuplicateFacts.save_unique _ _ _ _ Sv).
    + exact (DuplicateFacts.save_over_duplicate _ _ _ _ D0 Sv).
Qed.

Lemma import_aip_duplicate_witness :
  (exists w',
      import_aip Demo.env "/tmp/archive.tar.gz" "L1" None
                 (Demo.world_with_earlier ["no"])
      = (Raise (ImportAIPException
                  "Aborting importation of an already existing AIP"), w')
      /\ packages w' = [Demo.earlier] /\ trace w' = []
      /\ fs w' = Demo.root_extracted)
  /\ (exists e w',
        import_aip Demo.env "/tmp/archive.tar.gz" "L1" None
                   (Demo.world_with_earlier ["YES"]) = (Raise e, w')
        /\ packages w' = [Demo.earlier] /\ trace w' = []
        /\ fs w' = Demo.root_extracted
        /\ Store.filter_uuid Demo.aip_uuid (packages w') <> []).
Proof.
  split.
  - refine (proj1 (import_aip_duplicate
                     Demo.env "/tmp/archive.tar.gz" "L1" None
                     (Demo.world_with_earlier ["no"])
                     (snd (identify_aip Demo.env "/tmp/archive.tar.gz"
                                        (Demo.world_with_earlier ["no"])))
                     "/tmp/tmpAIP/archive" Demo.aip_uuid _ _) "no" [] _ _).
    + vm_compute. reflexivity.
    + vm_compute. discriminate.
    + vm_compute. reflexivity.
    + vm_compute. reflexivity.
  - refine (proj2 (proj2 (proj1 (proj2 (proj2 (import_aip_duplicate
                     Demo.env "/tmp/archive.tar.gz" "L1" None
                     (Demo.world_with_earlier ["YES"])
                     (snd (identify_aip Demo.env "/tmp/archive.tar.gz"
                                        (Demo.world_with_earlier ["YES"])))
                     "/tmp/tmpAIP/archive" Demo.aip_uuid _ _))) "YES" [] _ _))).
    + vm_compute. reflexivity.
    + vm_compute. discriminate.
    + vm_compute. reflexivity.
    + vm_compute. reflexivity.
Defined.

(** The confirmed re-import, run: [AttributeError], and the earlier record
    with its old path is the one on record. *)
Example import_aip_duplicate_confirmed_run :
  let r := import_aip Demo.env "/tmp/archive.tar.gz" "L1" None
                      (Demo.world_with_earlier ["yes"]) in
  fst r = Raise AttributeError
  /\ packages (snd r) = [Demo.earlier]
  /\ Fs.exists_ Demo.cwd (fs (snd r)) "/var/store/e0a4" = false.
Proof. vm_compute. repeat split; reflexivity. Qed.

(** ** The scenario of the specification *)

Module ScenarioFacts.
Import PyFacts.

Lemma join_step_plain path b :
  Py.contains_char "/" b = false ->
  String.eqb path "" || Py.endswith path "/" = false ->
  PosixPath.join_step path b = path ++ "/" ++ b.
Proof.
  intros Hb Hp. unfold PosixPath.join_step.
  now rewrite (prefix_slash_absent _ Hb), Hp.
Qed.

Lemma check_keeps_fs u w r w' :
  check_if_aip_already_exists u w = (r, w') -> fs w' = fs w.
Proof.
  apply (keeps_check_if_aip_already_exists fs); reflexivity.
Qed.

Lemma location_keeps_fs l w r w' :
  get_aip_storage_location l w = (r, w') -> fs w' = fs w.
Proof. apply (keeps_get_aip_storage_location fs). Qed.

Lemma sharded_prefix source :
  is_prefix "e0a4/1934/"
    (PosixPath.join2 "e0a4/1934/c1d7/45ba/9a95/a753/1c06/3ed1"
       [PosixPath2.basename (PosixPath2.normpath source)]).
Proof.
  unfold PosixPath.join2. cbn [fold_left].
  rewrite join_step_plain;
    [|apply DuplicateFacts.basename_unslashed|reflexivity].
  eexists. simpl. reflexivity.
Qed.

End ScenarioFacts.

(** C7. The import of a bag whose METS file name gives the UUID
    [aip_uuid], with no record of that UUID and a storage location that
    resolves, does not end well: [import_aip] asks [utils] for
    [recalculate_size], which [common/utils.py] does not define, and
    raises [AttributeError] right after the location lookup. No record is
    created, nothing is placed; and no run of [import_aip] returns at
    all. The path the claim names is the one the placement step gives a
    record of that UUID, where that step is run and returns: the sharded
    UUID followed by the base name of the source, the other fields of the
    record as they were. *)
Theorem import_aip_scenario
        (env : Env) (aip_path location : string) (pipeline : option string)
        (w w1 : World) (aip_dir aip_uuid : string) (found : Store.Location) :
  identify_aip env aip_path w = (Ok (aip_dir, aip_uuid), w1) ->
  Store.filter_uuid aip_uuid (packages w) = [] ->
  get_aip_storage_location location w1 = (Ok found, w1) ->
  import_aip env aip_path location pipeline w = (Raise AttributeError, w1)
  /\ packages w1 = packages w
  /\ trace w1 = trace w
  /\ Store.filter_uuid aip_uuid (packages w1) = []
  /\ (forall a l p w0 r w0',
        import_aip env a l p w0 = (r, w0') -> exists e, r = Raise e)
  /\ (forall inst source aip_storage_location w0 placed w0',
        Store.uuid inst = "e0a41934-c1d7-45ba-9a95-a7531c063ed1" ->
        copy_aip_to_aip_storage_location env inst source aip_storage_location w0
        = (Ok placed, w0') ->
        placed
        = Store.set_current_path inst
            (PosixPath.join2 "e0a4/1934/c1d7/45ba/9a95/a753/1c06/3ed1"
               [PosixPath2.basename (PosixPath2.normpath source)])
        /\ is_prefix "e0a4/1934/" (Store.current_path placed)).
Proof.
  intros I D L.
  pose proof (identify_aip_quiet env aip_path _ _ _ I) as Q.
  unfold quiet_view in Q. injection Q as QP _ QT.
  split; [|split; [|split; [|split; [|split]]]]; try assumption.
  - rewrite (DuplicateFacts.import_after_identify _ _ location pipeline _ _ _ _ I).
    unfold bind at 1.
    rewrite DuplicateFacts.check_without_duplicates by now rewrite QP.
    unfold bind at 1. now rewrite PipelineFacts.place_aip_stops, L.
  - now rewrite QP.
  - intros a l p w0 r w0'. apply PipelineFacts.import_aip_raises.
  - intros inst source loc w0 placed w0' U C.
    destruct (PipelineFacts.copy_aip_result _ _ _ _ _ _ _ C)
      as (p & f & P & E & _).
    rewrite U in P. vm_compute in P. injection P as <-.
    split; [exact E|]. rewrite E. cbn [Store.current_path Store.set_current_path].
    exact (ScenarioFacts.sharded_prefix _).
Qed.

Lemma import_aip_scenario_witness :
  import_aip Demo.env "/tmp/archive.tar.gz" "L1" None Demo.world0
  = (Raise AttributeError, Demo.world_extracted)
  /\ packages Demo.world_extracted = packages Demo.world0
  /\ trace Demo.world_extracted = trace Demo.world0
  /\ Store.filter_uuid "e0a41934-c1d7-45ba-9a95-a7531c063ed1"
                       (packages Demo.world_extracted) = []
  /\ (forall a l p w0 r w0',
        import_aip Demo.env a l p w0 = (r, w0') -> exists e, r = Raise e)
  /\ (forall inst source aip_storage_location w0 placed w0',
        Store.uuid inst = "e0a41934-c1d7-45ba-9a95-a7531c063ed1" ->
        copy_aip_to_aip_storage_location Demo.env inst source
                                         aip_storage_location w0
        = (Ok placed, w0') ->
        placed
        = Store.set_current_path inst
            (PosixPath.join2 "e0a4/1934/c1d7/45ba/9a95/a753/1c06/3ed1"
               [PosixPath2.basename (PosixPath2.normpath source)])
        /\ is_prefix "e0a4/1934/" (Store.current_path placed)).
Proof.
  apply (import_aip_scenario Demo.env "/tmp/archive.tar.gz" "L1" None
           Demo.world0 Demo.world_extracted "/tmp/tmpAIP/archive"
           "e0a41934-c1d7-45ba-9a95-a7531c063ed1" Demo.L1).
  - vm_compute. reflexivity.
  - reflexivity.
  - vm_compute. reflexivity.
Defined.

(** The scenario, run: the archive is unpacked to the scratch directory
    and that is all; the location [/var/store] stays empty. *)
Example import_aip_scenario_run :
  let r := import_aip Demo.env "/tmp/archive.tar.gz" "L1" None Demo.world0 in
  fst r = Raise AttributeError
  /\ packages (snd r) = []
  /\ trace (snd r) = []
  /\ Fs.stat Demo.cwd (fs (snd r)) "/var/store" = Fs.Got (Fs.Dir 0 0 [])
  /\ Fs.isdir Demo.cwd (fs (snd r)) "/tmp/tmpAIP/archive/data" = true.
Proof. vm_compute. repeat split; reflexivity. Qed.

(** The same with a relative path: the process runs in [/tmp]. *)
Example import_aip_relative_path :
  import_aip Demo.env "archive.tar.gz" "L1" None Demo.world0
  = import_aip Demo.env "/tmp/archive.tar.gz" "L1" None Demo.world0.
Proof. vm_compute. reflexivity. Qed.

(** The steps the scenario never reaches, run on their own: the placement
    gives the record its sharded path and copies the bag there. *)
Example placement_run :
  let r := copy_aip_to_aip_storage_location
             Demo.env Demo.new_record "/tmp/tmpAIP/archive" Demo.L1
             Demo.world_extracted in
  fst r = Ok (Store.set_current_path Demo.new_record
                "e0a4/1934/c1d7/45ba/9a95/a753/1c06/3ed1/archive")
  /\ Fs.isfile Demo.cwd (fs (snd r))
       "/var/store/e0a4/1934/c1d7/45ba/9a95/a753/1c06/3ed1/archive/data/objects/a.txt"
     = true.
Proof. vm_compute. split; reflexivity. Qed.

(** A failing step before the save, and a failing transfer: [import_aip]
    raises what the step raised and no record is written; [copy_rsync]
    raises when rsync is interrupted. *)
Lemma import_aip_saves_last_witness :
  (exists w',
      import_aip Demo.env "/tmp/archive.tar.gz" "L1" None Demo.world0
      = (Raise AttributeError, w')
      /\ packages w' = [])
  /\ (exists w1,
        copy_rsync Demo.env_rsync_fails "/tmp/tmpAIP/archive"
                   "/var/store/e0a4/1934/c1d7/45ba/9a95/a753/1c06/3ed1/archive"
                   Demo.world_extracted
        = (Raise (ImportAIPException
                    ("Unable to move the AIP from "
                       ++ PosixPath.join2 "/tmp/tmpAIP/archive" [EmptyString]
                       ++ " to "
                       ++ "/var/store/e0a4/1934/c1d7/45ba/9a95/a753/1c06/3ed1/archive"
                       ++ ".")), w1)
        /\ packages w1 = packages Demo.world_extracted).
Proof.
  split.
  - eexists. split.
    + apply (proj1 (proj2 (proj2 (import_aip_saves_last
               Demo.env "/tmp/archive.tar.gz" "L1" None Demo.world0)))).
      vm_compute. reflexivity.
    + reflexivity.
  - apply (proj2 (proj2 (proj2 (proj2 (proj2 (import_aip_saves_last
             Demo.env_rsync_fails "/tmp/archive.tar.gz" "L1" None Demo.world0)))))).
    vm_compute. discriminate.
Defined.

(** A second conflict: another importer commits the same UUID before the
    first save and again before the retry; the [IntegrityError] of the
    retry leaves [save_aip_model_instance]. *)
Example save_aip_model_instance_second_conflict :
  let rival := Demo.earlier in
  let w := mkWorld Demo.root0 [] [Demo.L1] [Demo.P1] [] [] []
                   [[rival]; [rival]] [] in
  let r := save_aip_model_instance Demo.new_record w in
  fst r = Raise IntegrityError
  /\ trace (snd r) = [EvSave Demo.new_record false; EvDelete Demo.aip_uuid;
                      EvSave Demo.new_record false]
  /\ packages (snd r) = [rival].
Proof. vm_compute. repeat split; reflexivity. Qed.

(** No conflict: one save, no deletion. *)
Example save_aip_model_instance_first_try :
  let r := save_aip_model_instance Demo.new_record Demo.world0 in
  fst r = Ok tt
  /\ trace (snd r) = [EvSave Demo.new_record true]
  /\ packages (snd r) = [Demo.new_record].
Proof. vm_compute. repeat split; reflexivity. Qed.

(** Outside the textual form of a UUID the sharding forgets the dashes. *)
Example uuid_to_path_forgets_dashes :
  uuid_to_path "e0a4-1934" = uuid_to_path "e0a41934".
Proof. reflexivity. Qed.

(* ================================================================= *)
(** * Further properties *)

(** ** Paths made of slash-free components *)

Module PathFacts.
Import PyFacts PartsFacts.

Lemma drop_app_beyond x : forall n b,
  length x <= n -> Py.drop n (x ++ b) = Py.drop (n - length x) b.
Proof.
  induction x as [|c x IH]; intros n b H; simpl.
  - now rewrite Nat.sub_0_r.
  - destruct n as [|n]; [simpl in H; lia|]. simpl. apply IH. simpl in H. lia.
Qed.

Lemma contains_char_drop c s : forall n,
  Py.contains_char c s = false -> Py.contains_char c (Py.drop n s) = false.
Proof.
  induction s as [|a s IH]; intros [|n] H; simpl in *; auto.
  apply orb_false_iff in H as [_ H]. now apply IH.
Qed.

Lemma endswith_unslashed b :
  b <> "" -> Py.contains_char "/" b = false -> Py.endswith b "/" = false.
Proof. intros. now apply (endswith_app_unslashed "" b). Qed.

Lemma join2_plain p : forall a,
  a <> "" -> Py.endswith a "/" = false ->
  Forall (fun b => b <> "" /\ Py.contains_char "/" b = false) p ->
  PosixPath.join2 a p = a ++ Py.concat_all (map (append "/") p).
Proof.
  unfold PosixPath.join2.
  induction p as [|b p IH]; intros a Ha He Hp; simpl.
  - now rewrite append_nil_r.
  - inversion Hp as [|? ? [Hb1 Hb2] Hp']; subst.
    rewrite ScenarioFacts.join_step_plain; [|assumption|].
    + rewrite IH; [|destruct a; [congruence | discriminate]| |assumption].
      * now rewrite !append_assoc.
      * rewrite <- append_assoc. now apply endswith_app_unslashed.
    + rewrite He, orb_false_r. now apply String.eqb_neq.
Qed.

Lemma str_join_cons p : forall a,
  PosixPath2.str_join "/" (a :: p) = a ++ Py.concat_all (map (append "/") p).
Proof.
  induction p as [|b p IH]; intros a.
  - simpl. now rewrite append_nil_r.
  - change (PosixPath2.str_join "/" (a :: b :: p))
      with (a ++ "/" ++ PosixPath2.str_join "/" (b :: p)).
    rewrite IH. simpl. reflexivity.
Qed.

Lemma split_app a : forall rest,
  Py.contains_char "/" a = false ->
  PosixPath2.split "/" (a ++ "/" ++ rest) = a :: PosixPath2.split "/" rest.
Proof.
  induction a as [|c a IH]; intros rest H.
  - reflexivity.
  - simpl in H. apply orb_false_iff in H as [Hc Ha].
    simpl. rewrite Hc. simpl in IH. now rewrite (IH rest Ha).
Qed.

(** Splitting undoes joining. *)
Lemma split_str_join l :
  l <> [] -> Forall (fun b => Py.contains_char "/" b = false) l ->
  PosixPath2.split "/" (PosixPath2.str_join "/" l) = l.
Proof.
  induction l as [|a l IH]; intros Hne H; [congruence|].
  inversion H as [|? ? Ha Hl]; subst.
  destruct l as [|b l].
  - simpl. now apply split_unslashed.
  - change (PosixPath2.str_join "/" (a :: b :: l))
      with (a ++ "/" ++ PosixPath2.str_join "/" (b :: l)).
    rewrite split_app by assumption. f_equal. apply IH; [discriminate | assumption].
Qed.

Lemma length_take s : forall m, length (substring 0 m s) = Nat.min m (length s).
Proof.
  induction s as [|c s IH]; intros [|m]; simpl; try reflexivity.
  now rewrite IH.
Qed.

Lemma chunks_lengths : forall k s,
  4 * k < length s + 4 ->
  Forall (fun c => 1 <= length c <= 4) (chunks k s).
Proof.
  induction k as [|k IH]; intros s H; cbn [chunks]; constructor.
  - rewrite length_take. lia.
  - destruct k as [|k]; [constructor|].
    apply IH. rewrite length_drop. lia.
Qed.

Lemma take_app u : forall t, substring 0 (length u) (u ++ t) = u.
Proof.
  induction u as [|c u IH]; intros t; simpl.
  - destruct t; reflexivity.
  - now rewrite IH.
Qed.

Lemma basename_app_slash x : forall b,
  Py.contains_char "/" b = false ->
  PosixPath2.basename (x ++ "/" ++ b) = b.
Proof.
  induction x as [|c x IH]; intros b H.
  - simpl. now rewrite H.
  - change (PosixPath2.basename (String c (x ++ "/" ++ b)) = b).
    cbn [PosixPath2.basename].
    rewrite contains_char_app. simpl. rewrite orb_true_r. now apply IH.
Qed.

End PathFacts.

(** X1. For an identifier without a slash that is not made of dashes only,
    [uuid_to_path] returns the 4-character slices of the dash-stripped
    identifier joined by single slashes: splitting the path at its slashes
    gives the slices back, every directory name has between one and four
    characters, and together they spell the stripped identifier. *)
Theorem uuid_to_path_shape (uuid : string) :
  Py.contains_char "/" uuid = false ->
  only_dashes uuid = false ->
  let stripped := Py.remove_char "-" uuid in
  exists path,
    uuid_to_path uuid = Ok path
    /\ path = PosixPath2.str_join "/" (segments stripped)
    /\ PosixPath2.split "/" path = segments stripped
    /\ Forall (fun c => 1 <= length c <= 4) (segments stripped)
    /\ Py.concat_all (segments stripped) = stripped.
Proof.
  intros Hs Hd. cbv zeta.
  set (u := Py.remove_char "-" uuid).
  assert (Hu : Py.contains_char "/" u = false)
    by now apply PyFacts.contains_char_remove_other.
  assert (Hne : u <> "").
  { intros E. apply UuidPath.only_dashes_stripped in E. congruence. }
  pose proof (UuidPath.chunks_unslashed ((length u + 3) / 4) u Hu) as Hf.
  assert (Hl : Forall (fun c => 1 <= length c <= 4) (segments u)).
  { rewrite UuidPath.segments_chunks. apply PathFacts.chunks_lengths.
    pose proof (Nat.div_mod_eq (length u + 3) 4).
    pose proof (Nat.mod_upper_bound (length u + 3) 4 ltac:(lia)). lia. }
  rewrite <- UuidPath.segments_chunks in Hf.
  assert (Hnil : segments u <> []).
  { intros E. apply UuidPath.segments_nil in E. contradiction. }
  assert (Hb : Forall (fun b => b <> "" /\ Py.contains_char "/" b = false)
                      (segments u)).
  { apply Forall_forall. intros b Hin. split.
    - rewrite Forall_forall in Hl. specialize (Hl b Hin).
      intros ->. simpl in Hl. lia.
    - rewrite Forall_forall in Hf. now apply Hf. }
  exists (PosixPath2.str_join "/" (segments u)).
  split; [|split; [reflexivity|split; [|split]]].
  - unfold uuid_to_path. fold u.
    destruct (segments u) as [|a p]; [congruence|]. simpl PosixPath.join.
    inversion Hb as [|? ? [Ha1 Ha2] Hp]; subst.
    rewrite PathFacts.join2_plain, PathFacts.str_join_cons; auto.
    now apply PathFacts.endswith_unslashed.
  - now apply PathFacts.split_str_join.
  - exact Hl.
  - apply UuidPath.segments_concat.
Qed.

Lemma uuid_to_path_shape_witness :
  exists path,
    uuid_to_path "6aebdb24-1b6b-41ab" = Ok path
    /\ path = PosixPath2.str_join "/"
                (segments (Py.remove_char "-" "6aebdb24-1b6b-41ab"))
    /\ PosixPath2.split "/" path
       = segments (Py.remove_char "-" "6aebdb24-1b6b-41ab")
    /\ Forall (fun c => 1 <= length c <= 4)
              (segments (Py.remove_char "-" "6aebdb24-1b6b-41ab"))
    /\ Py.concat_all (segments (Py.remove_char "-" "6aebdb24-1b6b-41ab"))
       = Py.remove_char "-" "6aebdb24-1b6b-41ab".
Proof.
  apply (uuid_to_path_shape "6aebdb24-1b6b-41ab"); reflexivity.
Defined.

(** X2. Two identifiers without a slash are sent to the same path (or both
    refused) exactly when they are equal once their dashes are removed:
    dashes never tell two identifiers apart, everything else does. *)
Theorem uuid_to_path_collisions (x y : string) :
  Py.contains_char "/" x = false ->
  Py.contains_char "/" y = false ->
  (uuid_to_path x = uuid_to_path y
   <-> Py.remove_char "-" x = Py.remove_char "-" y).
Proof. apply UuidPath.uuid_to_path_eq_iff. Qed.

Lemma uuid_to_path_collisions_witness :
  uuid_to_path "e0a4-1934" = uuid_to_path "e0-a41934"
  <-> Py.remove_char "-" "e0a4-1934" = Py.remove_char "-" "e0-a41934".
Proof.
  apply (uuid_to_path_collisions "e0a4-1934" "e0-a41934"); reflexivity.
Defined.

(** X3. The identifier read off a METS file name is the one the name was
    made from: for a 36-character identifier [u] without a slash,
    [get_aip_uuid] of [<dir>/METS.<u>.xml] is [u], whatever the directory. *)
Theorem get_aip_uuid_roundtrip (dir u : string) :
  length u = 36 ->
  Py.contains_char "/" u = false ->
  get_aip_uuid (dir ++ "/METS." ++ u ++ ".xml") = u.
Proof.
  intros L H. unfold get_aip_uuid.
  change (dir ++ "/METS." ++ u ++ ".xml")
    with (dir ++ "/" ++ ("METS." ++ u ++ ".xml")).
  rewrite PathFacts.basename_app_slash.
  - unfold Py.slice. cbn [Nat.sub]. simpl.
    rewrite <- L. apply PathFacts.take_app.
  - simpl. rewrite PyFacts.contains_char_app, H. reflexivity.
Qed.

Lemma get_aip_uuid_roundtrip_witness :
  get_aip_uuid ("/tmp/tmpAIP/archive/data" ++ "/METS."
                  ++ "e0a41934-c1d7-45ba-9a95-a7531c063ed1" ++ ".xml")
  = "e0a41934-c1d7-45ba-9a95-a7531c063ed1".
Proof.
  apply (get_aip_uuid_roundtrip "/tmp/tmpAIP/archive/data"
           "e0a41934-c1d7-45ba-9a95-a7531c063ed1"); reflexivity.
Defined.

(** ** The archive's root directory *)

Module PrefixFacts.
Import PyFacts.

Lemma is_prefix_refl s : is_prefix s s.
Proof. exists "". now rewrite append_nil_r. Qed.

Lemma is_prefix_trans a b c : is_prefix a b -> is_prefix b c -> is_prefix a c.
Proof.
  intros [t ->] [t' ->]. exists (t ++ t'). now rewrite append_assoc.
Qed.

Lemma is_prefix_antisym a b : is_prefix a b -> is_prefix b a -> a = b.
Proof.
  intros [t E] [t' E'].
  assert (L : length t = 0).
  { apply (f_equal length) in E, E'. rewrite length_append in E, E'. lia. }
  destruct t; [|discriminate]. now rewrite append_nil_r in E.
Qed.

Lemma common2_prefix_l a : forall b, is_prefix (PosixPath2.common2 a b) a.
Proof.
  induction a as [|x a IH]; intros b; simpl.
  - exists "". reflexivity.
  - destruct b as [|y b]; [now exists (String x a)|].
    destruct (Ascii.eqb x y); [|now exists (String x a)].
    destruct (IH b) as [t E]. exists t. simpl. now rewrite <- E.
Qed.

Lemma common2_prefix_r a : forall b, is_prefix (PosixPath2.common2 a b) b.
Proof.
  induction a as [|x a IH]; intros b; simpl.
  - now exists b.
  - destruct b as [|y b]; [now exists ""|].
    destruct (Ascii.eqb x y) eqn:E; [|now exists (String y b)].
    apply Ascii.eqb_eq in E. subst y.
    destruct (IH b) as [t E]. exists t. simpl. now rewrite <- E.
Qed.

Lemma common2_greatest p : forall a b,
  is_prefix p a -> is_prefix p b -> is_prefix p (PosixPath2.common2 a b).
Proof.
  induction p as [|c p IH]; intros a b [t ->] [t' ->].
  - now exists (PosixPath2.common2 t t').
  - simpl. rewrite Ascii.eqb_refl.
    destruct (IH (p ++ t) (p ++ t')) as [s E]; [now exists t | now exists t' |].
    exists s. simpl. now rewrite <- E.
Qed.

Lemma fold_common2_prefix r : forall x,
  is_prefix (fold_left PosixPath2.common2 r x) x
  /\ Forall (is_prefix (fold_left PosixPath2.common2 r x)) r.
Proof.
  induction r as [|y r IH]; intros x; simpl.
  - split; [apply is_prefix_refl | constructor].
  - destruct (IH (PosixPath2.common2 x y)) as [H1 H2]. split; [|constructor].
    + eapply is_prefix_trans; [exact H1 | apply common2_prefix_l].
    + eapply is_prefix_trans; [exact H1 | apply common2_prefix_r].
    + exact H2.
Qed.

Lemma fold_common2_greatest p r : forall x,
  is_prefix p x -> Forall (is_prefix p) r ->
  is_prefix p (fold_left PosixPath2.common2 r x).
Proof.
  induction r as [|y r IH]; intros x Hx Hr; simpl; [assumption|].
  inversion Hr; subst. apply IH; [|assumption]. now apply common2_greatest.
Qed.

(** [os.path.commonprefix] is the longest string all members start with. *)
Lemma commonprefix_spec m :
  Forall (is_prefix (PosixPath2.commonprefix m)) m
  /\ (forall p, m <> [] -> Forall (is_prefix p) m ->
                is_prefix p (PosixPath2.commonprefix m)).
Proof.
  destruct m as [|x r]; simpl.
  - split; [constructor | congruence].
  - destruct (fold_common2_prefix r x) as [H1 H2]. split.
    + now constructor.
    + intros p _ H. inversion H; subst. now apply fold_common2_greatest.
Qed.

Lemma commonprefix_root r names :
  In r names -> Forall (is_prefix r) names ->
  PosixPath2.commonprefix names = r.
Proof.
  intros Hin Hall. destruct (commonprefix_spec names) as [H1 H2].
  apply is_prefix_antisym.
  - rewrite Forall_forall in H1. now apply H1.
  - apply H2; [|assumption]. intros ->. contradiction.
Qed.

End PrefixFacts.

(** X4. When the archive ends in [.tar.gz], a scratch directory [d] can be
    made, the archive lists its root directory [r] and every member name
    starts with [r], and the extraction goes through, [decompress] returns
    [d] joined with [r], and the only change to the world is what
    [mkdtemp] and the extraction did to the file system. *)
Theorem decompress_returns_root
        (env : Env) (aip_path : string) (w : World)
        (d r : string) (names : list string) (f1 f2 : Fs.node) :
  Py.endswith aip_path ".tar.gz" = true ->
  mkdtemp env (fs w) = Ok (d, f1) ->
  tar_getnames env f1 aip_path = Ok names ->
  In r names ->
  Forall (is_prefix r) names ->
  tar_extractall env f1 aip_path d = Ok f2 ->
  decompress env aip_path w = (Ok (PosixPath.join2 d [r]), set_fs w f2).
Proof.
  intros E M N Hin Hall X.
  unfold decompress, bind, tempfile_mkdtemp, tarfile_getnames,
    tarfile_extractall, ret.
  rewrite E. cbn [negb]. rewrite M. cbn [fs set_fs]. rewrite N, X.
  now rewrite (PrefixFacts.commonprefix_root r names Hin Hall).
Qed.

Lemma decompress_returns_root_witness :
  decompress Demo.env "/tmp/archive.tar.gz" Demo.world0
  = (Ok (PosixPath.join2 "/tmp/tmpAIP" ["archive"]),
     set_fs Demo.world0 Demo.root_extracted).
Proof.
  refine (decompress_returns_root Demo.env "/tmp/archive.tar.gz" Demo.world0
            "/tmp/tmpAIP" "archive"
            ["archive"; "archive/bagit.txt"; "archive/manifest-md5.txt";
             "archive/data"; "archive/data/objects"; "archive/data/objects/a.txt"]
            (match Demo.demo_mkdtemp Demo.root0 with
             | Ok (_, f) => f
             | Raise _ => Demo.root0
             end)
            Demo.root_extracted _ _ _ _ _ _).
  - reflexivity.
  - reflexivity.
  - reflexivity.
  - simpl. auto.
  - repeat constructor.
    + now exists "".
    + now exists "/bagit.txt".
    + now exists "/manifest-md5.txt".
    + now exists "/data".
    + now exists "/data/objects".
    + now exists "/data/objects/a.txt".
  - reflexivity.
Defined.

(** ** Events and agents, in general *)

Module MetsFacts.
Import Xml Mets.

Lemma descendants_children e :
  descendants e = flat_map (fun c => c :: descendants c) (children_of e).
Proof.
  destruct e as [ns tag at_ tx ch tl]. simpl.
  induction ch as [|c ch IH]; simpl; [reflexivity|]. now rewrite IH.
Qed.

Lemma descendants_append e c :
  descendants (append e c) = (descendants e ++ c :: descendants c)%list.
Proof.
  rewrite (descendants_children (append e c)), (descendants_children e).
  destruct e as [ns tag at_ tx ch tl]. simpl.
  rewrite flat_map_app. simpl. now rewrite app_nil_r.
Qed.

Lemma len_append e c : len (append e c) = S (len e).
Proof.
  destruct e as [ns tag at_ tx ch tl]. unfold len. simpl.
  rewrite length_app. simpl. lia.
Qed.

Lemma children_append e c :
  children_of (append e c) = (children_of e ++ [c])%list.
Proof. now destruct e. Qed.

Lemma query_blind doc t v :
  no_mets_agent_identifier doc = true ->
  existing_agent_query doc t v = [].
Proof.
  unfold no_mets_agent_identifier, existing_agent_query.
  induction (descendants doc) as [|e l IH]; simpl; [reflexivity|].
  intros H. apply andb_true_iff in H as [He Hl].
  apply negb_true_iff in He. rewrite He. simpl. auto.
Qed.

Lemma no_mets_append doc c :
  no_mets_agent_identifier doc = true ->
  forallb (fun e => negb (named NS_mets "agentIdentifier" e))
          (c :: descendants c) = true ->
  no_mets_agent_identifier (append doc c) = true.
Proof.
  unfold no_mets_agent_identifier. intros H1 H2.
  rewrite descendants_append, forallb_app. now rewrite H1, H2.
Qed.

Lemma agent_entries_append doc c :
  agent_entries (append doc c)
  = (agent_entries doc
       ++ flat_map identifier_pairs
            (filter (named NS_premis "agent") (c :: descendants c)))%list.
Proof.
  unfold agent_entries.
  now rewrite descendants_append, filter_app, flat_map_app.
Qed.

(** One call on a document the query is blind to: an event and an agent
    are appended. *)
Lemma mets_add_event_blind v now u doc t d n :
  no_mets_agent_identifier doc = true ->
  let doc' := mets_add_event v now u doc t d n in
  no_mets_agent_identifier doc' = true
  /\ len doc' = S (S (len doc))
  /\ agent_entries doc'
     = (agent_entries doc ++ [("storage service", _storage_service_agent v)])%list.
Proof.
  intros H. cbv zeta. unfold mets_add_event, mets_ss_agent.
  set (ev := mets_event v now u (digiprov_id_for doc) t d n).
  assert (Hev : no_mets_agent_identifier (append doc ev) = true).
  { apply no_mets_append; [assumption|]. reflexivity. }
  rewrite (query_blind _ _ _ Hev).
  split; [|split].
  - apply no_mets_append; [assumption|]. reflexivity.
  - now rewrite !len_append.
  - rewrite !agent_entries_append.
    rewrite <- app_assoc. f_equal.
    cbv -[String.append]. simpl.
    now rewrite !PyFacts.append_nil_r.
Qed.

End MetsFacts.

(** X5. The search of [mets_ss_agent] looks at [agentIdentifier] elements
    of the METS namespace only. On an amdSec that holds none, every call of
    [mets_add_event] appends two children, the event and one more agent:
    after [n] calls the amdSec has [2n] more children and [n] more agent
    entries, all with the same identifier type and value. *)
Theorem mets_add_event_adds_an_agent_per_call
        (ss_version : string)
        (calls : list (string * string * (string * string * string)))
        (amdsec : Xml.element) :
  no_mets_agent_identifier amdsec = true ->
  let doc := add_events ss_version calls amdsec in
  Xml.len doc = Xml.len amdsec + 2 * List.length calls
  /\ Mets.agent_entries doc
     = (Mets.agent_entries amdsec
          ++ repeat ("storage service", Mets._storage_service_agent ss_version)
                    (List.length calls))%list.
Proof.
  unfold add_events. revert amdsec.
  induction calls as [|c calls IH]; intros amdsec H; cbv zeta.
  - simpl. rewrite app_nil_r. split; [lia | reflexivity].
  - cbn [fold_left List.length repeat].
    destruct (MetsFacts.mets_add_event_blind ss_version
                (fst (fst c)) (snd (fst c)) amdsec
                (fst (fst (snd c))) (snd (fst (snd c))) (snd (snd c)) H)
      as (H1 & H2 & H3).
    destruct (IH _ H1) as [L A]. split.
    + rewrite L, H2. lia.
    + rewrite A, H3, <- app_assoc. reflexivity.
Qed.

Lemma mets_add_event_adds_an_agent_per_call_witness :
  let doc := add_events "0.11.0"
               [("2018-01-01T00:00:00", "u1", ("ingestion", "", ""));
                ("2018-01-02T00:00:00", "u2", ("fixity check", "", ""));
                ("2018-01-03T00:00:00", "u3", ("replication", "", ""))]
               Mets.empty_amdsec in
  Xml.len doc = Xml.len Mets.empty_amdsec + 2 * 3
  /\ Mets.agent_entries doc
     = (Mets.agent_entries Mets.empty_amdsec
          ++ repeat ("storage service", Mets._storage_service_agent "0.11.0") 3)%list.
Proof.
  apply (mets_add_event_adds_an_agent_per_call "0.11.0"
           [("2018-01-01T00:00:00", "u1", ("ingestion", "", ""));
            ("2018-01-02T00:00:00", "u2", ("fixity check", "", ""));
            ("2018-01-03T00:00:00", "u3", ("replication", "", ""))]
           Mets.empty_amdsec).
  reflexivity.
Defined.

(** X6. When the amdSec holds, anywhere below it, a METS-namespace
    [agentIdentifier] whose type and value children read
    [storage service] and the service's agent value, [mets_add_event]
    appends the event and nothing else. *)
Theorem mets_add_event_skips_known_agent
        (ss_version now fresh_uuid : string) (amdsec known : Xml.element)
        (event_type event_detail note : string) :
  In known (Xml.descendants amdsec) ->
  Xml.named Mets.NS_mets "agentIdentifier" known = true ->
  Xml.child_equals Mets.NS_mets "agentIdentifierType" "storage service" known
  = true ->
  Xml.child_equals Mets.NS_mets "agentIdentifierValue"
                   (Mets._storage_service_agent ss_version) known = true ->
  Mets.mets_add_event ss_version now fresh_uuid amdsec event_type event_detail note
  = Xml.append amdsec
      (Mets.mets_event ss_version now fresh_uuid (Mets.digiprov_id_for amdsec)
                       event_type event_detail note).
Proof.
  intros Hin Hn Ht Hv. unfold Mets.mets_add_event, Mets.mets_ss_agent.
  set (ev := Mets.mets_event _ _ _ _ _ _ _).
  destruct (Mets.existing_agent_query (Xml.append amdsec ev)
              "storage service" (Mets._storage_service_agent ss_version))
    as [|x l] eqn:Q; [|reflexivity].
  exfalso.
  assert (Hq : In known (Mets.existing_agent_query
                           (Xml.append amdsec ev) "storage service"
                           (Mets._storage_service_agent ss_version))).
  { unfold Mets.existing_agent_query. apply filter_In. split.
    - rewrite MetsFacts.descendants_append. apply in_or_app. now left.
    - now rewrite Hn, Ht, Hv. }
  rewrite Q in Hq. contradiction.
Qed.

(** X7. [mets_add_event] only ever appends: the children the amdSec had
    are kept, in order, and one or two are added behind them; the first
    added child is the event, wrapped in a [digiprovMD] whose ID is
    [digiprovMD_] followed by the number of children there were. *)
Theorem mets_add_event_append_only
        (ss_version now fresh_uuid : string) (amdsec : Xml.element)
        (event_type event_detail note : string) :
  exists added,
    Xml.children_of (Mets.mets_add_event ss_version now fresh_uuid amdsec
                                         event_type event_detail note)
    = (Xml.children_of amdsec
         ++ Mets.mets_event ss_version now fresh_uuid
              ("digiprovMD_" ++ Mets.decimal (List.length (Xml.children_of amdsec)))
              event_type event_detail note
         :: added)%list
    /\ (List.length added <= 1)%nat.
Proof.
  unfold Mets.mets_add_event.
  destruct (Mets.mets_ss_agent _ _ _) as [agent|].
  - exists [agent]. rewrite !MetsFacts.children_append, <- app_assoc.
    split; [reflexivity | simpl; lia].
  - exists []. rewrite MetsFacts.children_append. split; [reflexivity | simpl; lia].
Qed.

Lemma mets_add_event_skips_known_agent_witness :
  Mets.mets_add_event "0.11.0" "2018-01-01T00:00:00" "u1"
                      (Samples.amdsec_with_mets_agent "0.11.0") "ingestion" "" ""
  = Xml.append (Samples.amdsec_with_mets_agent "0.11.0")
      (Mets.mets_event "0.11.0" "2018-01-01T00:00:00" "u1"
                       (Mets.digiprov_id_for (Samples.amdsec_with_mets_agent "0.11.0"))
                       "ingestion" "" "").
Proof.
  apply (mets_add_event_skips_known_agent
           "0.11.0" "2018-01-01T00:00:00" "u1"
           (Samples.amdsec_with_mets_agent "0.11.0")
           (Samples.mets_agent_identifier "0.11.0") "ingestion" "" "").
  - simpl. auto.
  - reflexivity.
  - reflexivity.
  - reflexivity.
Defined.

(** ** The compression of a package *)

(** X8. Whenever [get_compression] returns, it returns [7z with bzip],
    [7z with lzma] or [tar bz2]: a member of [COMPRESSION_ALGORITHMS], and
    never plain [tar]. *)
Theorem get_compression_range (doc : Xml.element) (algorithm : string) :
  Compression.get_compression doc = Compression.Returned algorithm ->
  In algorithm Compression.COMPRESSION_ALGORITHMS
  /\ algorithm <> Compression.COMPRESSION_TAR
  /\ (algorithm = Compression.COMPRESSION_7Z_BZIP
      \/ algorithm = Compression.COMPRESSION_7Z_LZMA
      \/ algorithm = Compression.COMPRESSION_TAR_BZIP2).
Proof.
  unfold Compression.get_compression.
  destruct (Compression.is_text _ "fmt/484").
  - destruct (Compression.find doc Mets.NS_mets "transformFile"); [|discriminate].
    destruct (Compression.is_text _ "bzip2");
      [|destruct (Compression.is_text _ "lzma")];
      intros H; injection H as <-; simpl; intuition discriminate.
  - destruct (Compression.is_text _ "x-fmt/268");
      intros H; injection H as <-; simpl; intuition discriminate.
Qed.

Lemma get_compression_range_witness :
  In Compression.COMPRESSION_7Z_LZMA Compression.COMPRESSION_ALGORITHMS
  /\ Compression.COMPRESSION_7Z_LZMA <> Compression.COMPRESSION_TAR
  /\ (Compression.COMPRESSION_7Z_LZMA = Compression.COMPRESSION_7Z_BZIP
      \/ Compression.COMPRESSION_7Z_LZMA = Compression.COMPRESSION_7Z_LZMA
      \/ Compression.COMPRESSION_7Z_LZMA = Compression.COMPRESSION_TAR_BZIP2).
Proof.
  apply (get_compression_range Samples.pointer_7z_lzma
                               Compression.COMPRESSION_7Z_LZMA).
  reflexivity.
Defined.

(** X9. [get_compression] fails, on the [None] that [find] returned,
    exactly when the first [formatRegistryKey] of the pointer file reads
    [fmt/484] and the file has no [transformFile] element; in every other
    case it returns. *)
Theorem get_compression_fails_iff (doc : Xml.element) :
  Compression.get_compression doc = Compression.AttributeError
  <-> (Compression.findtext doc Mets.NS_premis "formatRegistryKey" = Some "fmt/484"
       /\ Compression.find doc Mets.NS_mets "transformFile" = None).
Proof.
  unfold Compression.get_compression.
  destruct (Compression.findtext doc Mets.NS_premis "formatRegistryKey")
    as [puid|] eqn:P; simpl.
  - destruct (String.eqb puid "fmt/484") eqn:E.
    + apply String.eqb_eq in E. subst puid.
      destruct (Compression.find doc Mets.NS_mets "transformFile") eqn:F.
      * split; [|intros [_ H]; discriminate].
        destruct (Compression.is_text _ "bzip2");
          [|destruct (Compression.is_text _ "lzma")]; discriminate.
      * tauto.
    + apply String.eqb_neq in E.
      split; [|intros [H _]; congruence].
      destruct (String.eqb puid "x-fmt/268"); discriminate.
  - split; [discriminate | intros [H _]; discriminate].
Qed.

Lemma get_compression_fails_iff_witness :
  Compression.get_compression Samples.pointer_7z_bare = Compression.AttributeError.
Proof.
  apply (proj2 (get_compression_fails_iff Samples.pointer_7z_bare)).
  split; reflexivity.
Defined.

Example get_compression_samples :
  Compression.get_compression Samples.pointer_7z_lzma
  = Compression.Returned "7z with lzma"
  /\ Compression.get_compression Samples.pointer_tar_bz2
     = Compression.Returned "tar bz2"
  /\ Compression.get_compression Mets.empty_amdsec
     = Compression.Returned "7z with bzip".
Proof. repeat split. Qed.
(** ** Directories: removed one by one, re-owned *)

Module DirFacts.
Import Fs FsMore FsFacts.

(** The files of a tree after a change at one position that keeps the
    files of the node there. *)
Lemma file_list_dir u g es :
  file_list (Dir u g es)
  = flat_map (fun e => map (fun f => (fst e :: fst f, snd f)) (file_list (snd e))) es.
Proof.
  simpl. induction es as [|[k v] es IH]; simpl; [reflexivity|]. now rewrite IH.
Qed.

Lemma files_replace c ch ch' es :
  find_entry c es = Some ch -> file_list ch' = file_list ch ->
  file_list (Dir 0 0 (replace_entry c ch' es)) = file_list (Dir 0 0 es).
Proof.
  intros F S. rewrite !file_list_dir.
  induction es as [|[k v] es IH]; simpl in *; [reflexivity|].
  destruct (String.eqb k c).
  - injection F as ->. simpl. now rewrite S.
  - simpl. now rewrite IH.
Qed.

Lemma files_remove_first c u g es :
  find_entry c es = Some (Dir u g []) ->
  file_list (Dir 0 0 (remove_first c es)) = file_list (Dir 0 0 es).
Proof.
  intros F. rewrite !file_list_dir.
  induction es as [|[k v] es IH]; simpl in *; [reflexivity|].
  destruct (String.eqb k c).
  - injection F as ->. reflexivity.
  - simpl. now rewrite IH.
Qed.

Lemma file_list_owner u g u' g' es :
  file_list (Dir u g es) = file_list (Dir u' g' es).
Proof. reflexivity. Qed.

Lemma update_file_list f : forall q root,
  (forall n, get root q = Some n -> file_list (f n) = file_list n) ->
  file_list (update f root q) = file_list root.
Proof.
  induction q as [|c q IH]; intros root H; simpl.
  - now apply H.
  - destruct root as [|u g es]; [reflexivity|].
    destruct (find_entry c es) as [ch|] eqn:F; [|reflexivity].
    rewrite (file_list_owner u g 0 0), (file_list_owner u g 0 0 es).
    apply (files_replace _ _ _ _ F). apply IH.
    intros n Hn. apply H. simpl. now rewrite F.
Qed.

Lemma shape_replace c ch ch' es :
  find_entry c es = Some ch -> shape ch' = shape ch ->
  map (fun e => (fst e, shape (snd e))) (replace_entry c ch' es)
  = map (fun e => (fst e, shape (snd e))) es.
Proof.
  intros F S. induction es as [|[k v] es IH]; simpl in *; [reflexivity|].
  destruct (String.eqb k c).
  - injection F as ->. simpl. now rewrite S.
  - simpl. now rewrite IH.
Qed.

Lemma update_shape f : forall q root,
  (forall n, shape (f n) = shape n) -> shape (update f root q) = shape root.
Proof.
  induction q as [|c q IH]; intros root H; simpl.
  - apply H.
  - destruct root as [|u g es]; [reflexivity|].
    destruct (find_entry c es) as [ch|] eqn:F; [|reflexivity].
    simpl. now rewrite (shape_replace _ _ _ _ F (IH ch H)).
Qed.

(** [os.rmdir] removes no regular file. *)
Lemma rmdir_files cwd root p f :
  rmdir cwd root p = Got f -> file_list f = file_list root.
Proof.
  unfold rmdir. destruct (String.eqb p ""); [discriminate|].
  destruct (parts p); [discriminate|].
  destruct (lookup_parent cwd root p) as [[q es]|e] eqn:L; [|discriminate].
  destruct (String.eqb (last_part p) "."); [discriminate|].
  destruct (String.eqb (last_part p) ".."); [discriminate|].
  destruct (find_entry (last_part p) es) as [[|u g [|x0 l0]]|] eqn:F;
    try discriminate.
  intros H. injection H as <-. apply update_file_list.
  intros n Hn.
  unfold lookup_parent in L.
  destruct (walk_from root (start cwd p) _) as [q'|]; [|discriminate].
  destruct (entries_at root q') as [es'|] eqn:E; [|discriminate].
  injection L as -> ->. apply entries_at_inv in E as (u' & g' & E).
  rewrite E in Hn. injection Hn as <-. simpl drop_entry.
  rewrite (file_list_owner u' g' 0 0), (file_list_owner u' g' 0 0 es).
  exact (files_remove_first _ _ _ _ F).
Qed.

(** One [os.rmdir], whatever its outcome. *)
Lemma os_rmdir_step env p w r w' :
  os_rmdir env p w = (r, w') ->
  (r = Ok tt \/ r = Raise OSError)
  /\ FsMore.file_list (fs w') = FsMore.file_list (fs w)
  /\ set_fs w' (fs w) = w.
Proof.
  unfold os_rmdir, os_call.
  destruct (rmdir (cwd env) (fs w) p) as [f|e] eqn:E;
    intros H; inversion H; subst.
  - split; [auto|]. split; [exact (rmdir_files _ _ _ _ E)|]. now destruct w.
  - destruct w'; auto.
Qed.

(** The loop ends within its fuel, without raising, and removes no file. *)
Lemma prune_loop_returns env locate : forall fuel head tail w,
  length head + length tail <= fuel -> 1 <= fuel ->
  exists w',
    prune_loop env fuel locate head tail w = Some (Ok tt, w')
    /\ FsMore.file_list (fs w') = FsMore.file_list (fs w)
    /\ set_fs w' (fs w) = w.
Proof.
  induction fuel as [|fuel IH]; intros head tail w L F; [lia|].
  cbn [prune_loop].
  destruct (negb (String.eqb head "") && negb (String.eqb tail "")) eqn:C.
  - destruct (os_rmdir env (locate head) w) as [r w1] eqn:R.
    destruct (os_rmdir_step _ _ _ _ _ R) as ([-> | ->] & Hf & Hw).
    + destruct (OsPath.split head) as [h' t'] eqn:Sp.
      apply SplitFacts.split_lengths in Sp.
      apply andb_true_iff in C as [Ch Ct].
      apply negb_true_iff in Ch, Ct.
      apply String.eqb_neq in Ch, Ct.
      assert (1 <= length tail) by (destruct tail; [congruence | simpl; lia]).
      assert (1 <= length head) by (destruct head; [congruence | simpl; lia]).
      destruct (IH h' t' w1 ltac:(lia) ltac:(lia)) as (w' & P & Hf' & Hw').
      exists w'. split; [exact P|]. split; [congruence|].
      rewrite <- Hw. rewrite <- Hw'. now destruct w'.
    + exists w1. auto.
  - exists w. split; [reflexivity|]. split; [reflexivity|]. now destruct w.
Qed.

End DirFacts.

(** X10. [removedirs] always comes to an end within the fuel its model is
    given, and whatever it does it removes no regular file: the files of
    the tree, with their places and their bytes, are afterwards what they
    were, and nothing but the file system has changed. *)
Theorem removedirs_keeps_files
        (env : Env) (relative_path : string) (base : option string) (w : World) :
  exists r w',
    removedirs env relative_path base w = Some (r, w')
    /\ FsMore.file_list (fs w') = FsMore.file_list (fs w)
    /\ set_fs w' (fs w) = w.
Proof.
  assert (NoBase :
    exists r w',
      os_removedirs env relative_path w = Some (r, w')
      /\ FsMore.file_list (fs w') = FsMore.file_list (fs w)
      /\ set_fs w' (fs w) = w).
  { unfold os_removedirs.
    destruct (os_rmdir env relative_path w) as [r w1] eqn:R.
    destruct (DirFacts.os_rmdir_step _ _ _ _ _ R) as ([-> | ->] & Hf & Hw).
    - destruct (split_twice relative_path) as [h t] eqn:Sp.
      apply SplitFacts.split_twice_lengths in Sp.
      destruct (DirFacts.prune_loop_returns env (fun h => h)
                  (S (length relative_path)) h t w1 ltac:(lia) ltac:(lia))
        as (w' & P & Hf' & Hw').
      exists (Ok tt), w'. split; [exact P|]. split; [congruence|].
      rewrite <- Hw, <- Hw'. now destruct w'.
    - exists (Raise OSError), w1. auto. }
  destruct base as [[|c b]|]; [exact NoBase| |exact NoBase].
  unfold removedirs.
  set (w0 := snd (try_except _ is_OSError (ret tt) w)).
  assert (H0 : FsMore.file_list (fs w0) = FsMore.file_list (fs w)
               /\ set_fs w0 (fs w) = w).
  { unfold w0, try_except, ret.
    destruct (os_rmdir env _ w) as [r w1] eqn:R.
    destruct (DirFacts.os_rmdir_step _ _ _ _ _ R) as ([-> | ->] & Hf & Hw);
      simpl; auto. }
  destruct H0 as [Hf Hw].
  destruct (split_twice relative_path) as [h t] eqn:Sp.
  apply SplitFacts.split_twice_lengths in Sp.
  destruct (DirFacts.prune_loop_returns env
              (fun h => PosixPath.join2 (String c b) [h])
              (S (length relative_path)) h t w0 ltac:(lia) ltac:(lia))
    as (w' & P & Hf' & Hw').
  exists (Ok tt), w'. split; [exact P|]. split; [congruence|].
  rewrite <- Hw, <- Hw'. now destruct w'.
Qed.

(** X11. With a base, [removedirs] never raises: every failing [rmdir] is
    swallowed. Without one it is [os.removedirs]: it raises [OSError]
    exactly when the leaf itself cannot be removed, and then the world is
    as it was. *)
Theorem removedirs_raises_only_without_base
        (env : Env) (relative_path : string) (base : option string) (w : World) :
  (forall b, base = Some b -> b <> "" ->
             exists w', removedirs env relative_path base w = Some (Ok tt, w'))
  /\ (base = None \/ base = Some "" ->
      (forall e, Fs.rmdir (cwd env) (fs w) relative_path = Fs.Err e ->
                 removedirs env relative_path base w = Some (Raise OSError, w))
      /\ (forall f, Fs.rmdir (cwd env) (fs w) relative_path = Fs.Got f ->
                    exists w', removedirs env relative_path base w = Some (Ok tt, w'))).
Proof.
  split.
  - intros b -> Hb. destruct b as [|c b]; [congruence|].
    unfold removedirs.
    set (w0 := snd (try_except _ is_OSError (ret tt) w)).
    destruct (split_twice relative_path) as [h t] eqn:Sp.
    apply SplitFacts.split_twice_lengths in Sp.
    destruct (DirFacts.prune_loop_returns env
                (fun h => PosixPath.join2 (String c b) [h])
                (S (length relative_path)) h t w0 ltac:(lia) ltac:(lia))
      as (w' & P & _).
    now exists w'.
  - intros Hb.
    assert (E : removedirs env relative_path base w
                = os_removedirs env relative_path w)
      by (destruct Hb as [-> | ->]; reflexivity).
    rewrite E. unfold os_removedirs. split.
    + intros e R. unfold os_rmdir, os_call. now rewrite R.
    + intros f R. unfold os_rmdir, os_call. rewrite R.
      destruct (split_twice relative_path) as [h t] eqn:Sp.
      apply SplitFacts.split_twice_lengths in Sp.
      destruct (DirFacts.prune_loop_returns env (fun h => h)
                  (S (length relative_path)) h t (set_fs w f)
                  ltac:(lia) ltac:(lia)) as (w' & P & _).
      now exists w'.
Qed.

Lemma removedirs_raises_only_without_base_witness :
  (exists w',
      removedirs Demo.env "e0a4/1934" (Some "/var/store") Demo.world_occupied
      = Some (Ok tt, w'))
  /\ removedirs Demo.env "/var/store/e0a4/1934" None Demo.world_occupied
     = Some (Raise OSError, Demo.world_occupied).
Proof.
  split.
  - apply (proj1 (removedirs_raises_only_without_base Demo.env
                    "e0a4/1934" (Some "/var/store") Demo.world_occupied)
             "/var/store"); [reflexivity | discriminate].
  - refine (proj1 (proj2 (removedirs_raises_only_without_base Demo.env
                            "/var/store/e0a4/1934" None Demo.world_occupied)
                         _) Fs.ENOTEMPTY _).
    + now left.
    + vm_compute. reflexivity.
Defined.

(** ** Downloads *)

Module DownloadFacts.
Import Download.

(** Under [ignore_errors], [shutil.rmtree] returns. *)
Lemma rmtree_node_ignores cwd : forall n p root,
  fst (Fs.rmtree_node true cwd p n root) = Fs.Got tt.
Proof.
  induction n as [u g d|u g es IH] using TreeFacts.node_nested_ind;
    intros p root.
  - simpl. now destruct (Fs.rmdir cwd root p).
  - rewrite TreeFacts.rmtree_node_dir.
    assert (L : forall root, fst (Fs.rmtree_entries true cwd p es root) = Fs.Got tt).
    { clear root. induction es as [|[name ch] es IHes]; intros root;
        [reflexivity|].
      inversion IH as [|? ? Hc Hr]; subst. simpl in Hc.
      rewrite TreeFacts.rmtree_entries_cons.
      assert (E : exists root',
                 match Fs.stat cwd root (PosixPath.join2 p [name]) with
                 | Fs.Got (Fs.Dir _ _ _) =>
                     Fs.rmtree_node true cwd (PosixPath.join2 p [name]) ch root
                 | _ =>
                     match Fs.remove cwd root (PosixPath.join2 p [name]) with
                     | Fs.Got f => (Fs.Got tt, f)
                     | Fs.Err e => Fs.on_error true e root
                     end
                 end = (Fs.Got tt, root')).
      { destruct (Fs.stat cwd root (PosixPath.join2 p [name])) as [[|]|].
        - destruct (Fs.remove cwd root _); eexists; reflexivity.
        - specialize (Hc (PosixPath.join2 p [name]) root).
          destruct (Fs.rmtree_node true cwd _ ch root) as [a r'].
          simpl in Hc. subst a. eexists; reflexivity.
        - destruct (Fs.remove cwd root _); eexists; reflexivity. }
      destruct E as [root' ->]. now apply IHes. }
    specialize (L root).
    destruct (Fs.rmtree_entries true cwd p es root) as [a r']. simpl in L.
    subst a. unfold Fs.rmtree_finish. now destruct (Fs.rmdir cwd r' p).
Qed.

Lemma rmtree_ignores cwd root p :
  fst (Fs.rmtree true cwd root p) = Fs.Got tt.
Proof.
  unfold Fs.rmtree. destruct (Fs.stat cwd root p).
  - apply rmtree_node_ignores.
  - simpl. now destruct (Fs.rmdir cwd root p).
Qed.

(** The three ways through [download_file_stream]. *)
Lemma download_cases env guess_type filepath temp_dir w :
  download_file_stream env guess_type filepath temp_dir w
  = match Fs.stat (cwd env) (fs w) filepath with
    | Fs.Err _ => (Ok (HttpResponseNotFound "File not found"), w)
    | Fs.Got (Fs.Dir _ _ _) => (Raise IOError, w)
    | Fs.Got (Fs.File _ _ data) =>
        (Ok (FileResponse
               data
               (header_of_guess (guess_type (PosixPath2.basename filepath)))
               ("attachment; filename=" ++ String (ascii_of_nat 34)
                  (PosixPath2.basename filepath)
                  ++ String (ascii_of_nat 34) EmptyString)
               (header_of_size (String.length data))),
         match temp_dir with
         | Some d =>
             if negb (String.eqb d "") && Fs.exists_ (cwd env) (fs w) d then
               set_fs w (snd (Fs.rmtree true (cwd env) (fs w) d))
             else w
         | None => w
         end)
    end.
Proof.
  unfold download_file_stream, bind, os_path_exists, ret, Fs.exists_.
  destruct (Fs.stat (cwd env) (fs w) filepath) as [[u g data|u g es]|] eqn:S0;
    cbn [negb]; unfold open_rb; rewrite ?S0; try reflexivity.
  destruct temp_dir as [d|]; [|reflexivity].
  destruct (String.eqb d ""); cbn [negb andb]; [reflexivity|].
  cbv beta. destruct (Fs.stat (cwd env) (fs w) d); [|reflexivity].
  unfold shutil_rmtree_ignore_errors, os_library_call.
  pose proof (rmtree_ignores (cwd env) (fs w) d) as I.
  destruct (Fs.rmtree true (cwd env) (fs w) d) as [ans f]. simpl in I.
  now subst ans.
Qed.

End DownloadFacts.

(** X12. When [download_file_stream] does not answer with the file, because
    nothing is at [filepath] (the 404 answer) or because it cannot be
    opened as a file ([IOError]), the world is untouched: in particular
    [temp_dir] is not removed. *)
Theorem download_failure_keeps_temp_dir
        (env : Env) (guess_type : string -> option string)
        (filepath : string) (temp_dir : option string) (w : World)
        (r : res Download.HttpResponse) (w' : World) :
  Download.download_file_stream env guess_type filepath temp_dir w = (r, w') ->
  (forall c t d l, r <> Ok (Download.FileResponse c t d l)) ->
  w' = w
  /\ ((r = Ok (Download.HttpResponseNotFound "File not found")
       /\ Fs.exists_ (cwd env) (fs w) filepath = false)
      \/ (r = Raise IOError /\ Fs.isdir (cwd env) (fs w) filepath = true)).
Proof.
  rewrite DownloadFacts.download_cases. unfold Fs.exists_, Fs.isdir.
  destruct (Fs.stat (cwd env) (fs w) filepath) as [[u g d|u g es]|] eqn:S0.
  - intros H N. exfalso. inversion H; subst. eapply N; reflexivity.
  - intros H _. inversion H; subst. auto.
  - intros H _. inversion H; subst. auto.
Qed.

Lemma download_failure_keeps_temp_dir_witness :
  snd (Download.download_file_stream Demo.env (fun _ => None)
         "/tmp/tmpAIP/gone.txt"
         (Some "/tmp/tmpAIP") (set_fs Demo.world0 Demo.root_extracted))
  = set_fs Demo.world0 Demo.root_extracted
  /\ ((fst (Download.download_file_stream Demo.env (fun _ => None)
              "/tmp/tmpAIP/gone.txt"
              (Some "/tmp/tmpAIP") (set_fs Demo.world0 Demo.root_extracted))
       = Ok (Download.HttpResponseNotFound "File not found")
       /\ Fs.exists_ (cwd Demo.env) (fs (set_fs Demo.world0 Demo.root_extracted))
                     "/tmp/tmpAIP/gone.txt" = false)
      \/ (fst (Download.download_file_stream Demo.env (fun _ => None)
                 "/tmp/tmpAIP/gone.txt"
                 (Some "/tmp/tmpAIP") (set_fs Demo.world0 Demo.root_extracted))
          = Raise IOError
          /\ Fs.isdir (cwd Demo.env) (fs (set_fs Demo.world0 Demo.root_extracted))
                      "/tmp/tmpAIP/gone.txt" = true)).
Proof.
  apply (download_failure_keeps_temp_dir Demo.env (fun _ => None)
           "/tmp/tmpAIP/gone.txt"
           (Some "/tmp/tmpAIP") (set_fs Demo.world0 Demo.root_extracted)).
  - vm_compute. reflexivity.
  - intros c t d l. vm_compute. discriminate.
Defined.

(** X13. For a regular file, [download_file_stream] answers with the bytes
    of the file and three headers, each of them text: the number of bytes
    in decimal as the content length, the guessed type of its base name
    (the text [None] when there is no guess), and a disposition that names
    the base name. Nothing but the tree changes. When [temp_dir] is written
    with names only (no [.] or [..] component) and is a directory, it is
    gone afterwards, also when the file was inside it. *)
Theorem download_serves_file_and_removes_temp_dir
        (env : Env) (guess_type : string -> option string)
        (filepath : string) (temp_dir : option string) (w : World)
        (u g : Z) (data : string) :
  Fs.stat (cwd env) (fs w) filepath = Fs.Got (Fs.File u g data) ->
  exists w',
    Download.download_file_stream env guess_type filepath temp_dir w
    = (Ok (Download.FileResponse
             data
             (match guess_type (PosixPath2.basename filepath) with
              | Some t => t
              | None => "None"
              end)
             ("attachment; filename=" ++ String (ascii_of_nat 34)
                (PosixPath2.basename filepath)
                ++ String (ascii_of_nat 34) EmptyString)
             (Mets.decimal (String.length data))), w')
    /\ set_fs w' (fs w) = w
    /\ (forall d, temp_dir = Some d ->
                  Fs.wf (fs w) = true -> Fs.proper d = true ->
                  Fs.isdir (cwd env) (fs w) d = true ->
                  Fs.exists_ (cwd env) (fs w') d = false).
Proof.
  intros S0. rewrite DownloadFacts.download_cases, S0.
  eexists. split; [reflexivity|]. split.
  - destruct temp_dir as [d|]; [|now destruct w].
    destruct (negb (String.eqb d "") && Fs.exists_ (cwd env) (fs w) d);
      now destruct w.
  - intros d -> W P D.
    unfold Fs.isdir in D.
    destruct (Fs.stat (cwd env) (fs w) d) as [[|u' g' es]|] eqn:T;
      try discriminate.
    assert (Hd : negb (String.eqb d "") && Fs.exists_ (cwd env) (fs w) d = true).
    { unfold Fs.exists_. rewrite T, andb_true_r.
      apply negb_true_iff, String.eqb_neq.
      now destruct (MakedirsFacts.proper_inv _ P) as (Hp & _). }
    rewrite Hd.
    rewrite (ReplaceFacts.replace_rmtree (cwd env) (fs w) d u' g' es W P T true).
    cbn [snd fs set_fs].
    exact (ReplaceFacts.replace_gone (cwd env) (fs w) d u' g' es W P T).
Qed.

Lemma download_serves_file_and_removes_temp_dir_witness :
  exists w',
    Download.download_file_stream Demo.env (fun _ => None)
      "/tmp/tmpAIP/archive/bagit.txt" (Some "/tmp/tmpAIP")
      (set_fs Demo.world0 Demo.root_extracted)
    = (Ok (Download.FileResponse
             "BagIt-Version: 0.97"
             "None"
             ("attachment; filename=" ++ String (ascii_of_nat 34)
                (PosixPath2.basename "/tmp/tmpAIP/archive/bagit.txt")
                ++ String (ascii_of_nat 34) EmptyString)
             "19"), w')
    /\ set_fs w' (fs (set_fs Demo.world0 Demo.root_extracted))
       = set_fs Demo.world0 Demo.root_extracted
    /\ (forall d, Some "/tmp/tmpAIP" = Some d ->
                  Fs.wf (fs (set_fs Demo.world0 Demo.root_extracted)) = true ->
                  Fs.proper d = true ->
                  Fs.isdir (cwd Demo.env)
                           (fs (set_fs Demo.world0 Demo.root_extracted)) d = true ->
                  Fs.exists_ (cwd Demo.env) (fs w') d = false).
Proof.
  apply (download_serves_file_and_removes_temp_dir
           Demo.env (fun _ => None) "/tmp/tmpAIP/archive/bagit.txt"
           (Some "/tmp/tmpAIP") (set_fs Demo.world0 Demo.root_extracted) 0 0).
  vm_compute. reflexivity.
Defined.

(** A [temp_dir] written with a last component [.] is emptied and stays:
    the final [os.rmdir] fails, and the failure is ignored. *)
Example download_empties_dotted_temp_dir :
  let w := set_fs Demo.world0 Demo.root_extracted in
  let w' := snd (Download.download_file_stream Demo.env (fun _ => None)
                   "/tmp/tmpAIP/archive/bagit.txt" (Some "/tmp/tmpAIP/.") w) in
  Fs.wf (fs w) = true
  /\ Fs.isdir (cwd Demo.env) (fs w) "/tmp/tmpAIP/." = true
  /\ Fs.stat (cwd Demo.env) (fs w') "/tmp/tmpAIP/." = Fs.Got (Fs.Dir 0 0 [])
  /\ Fs.rmdir (cwd Demo.env) (fs w') "/tmp/tmpAIP/." = Fs.Err Fs.EINVAL.
Proof. vm_compute. repeat split. Qed.
(** ** The destination directory, in general *)

Module MadeFacts.
Import Fs FsFacts PartsFacts SplitFacts PlaceFacts TreeFacts MakedirsFacts.
Local Open Scope list_scope.

Lemma forallb_removelast {A} (f : A -> bool) (l : list A) :
  forallb f l = true -> forallb f (removelast l) = true.
Proof.
  induction l as [|x l IH]; [auto|]. simpl. intros H.
  apply andb_true_iff in H as [Hx Hl]. destruct l as [|y l]; [reflexivity|].
  cbn [forallb]. rewrite Hx. exact (IH Hl).
Qed.

Lemma forallb_last (f : string -> bool) (l : list string) :
  l <> [] -> forallb f l = true -> f (last l "") = true.
Proof.
  intros Hne H. rewrite forallb_forall in H. apply H.
  rewrite (app_removelast_last "" Hne) at 2. apply in_or_app. right. now left.
Qed.

(** Where a path without [..] lies, by its last component. *)
Lemma place_last cwd p :
  parts p <> [] -> is_dot (last_part p) = false ->
  place cwd p = (start cwd p ++ undot (removelast (parts p))) ++ [last_part p].
Proof.
  intros Hne D. unfold place, last_part in *.
  rewrite (app_removelast_last "" Hne) at 1.
  rewrite undot_app, <- app_assoc. do 2 f_equal.
  unfold is_dot in D. apply orb_false_iff in D as [D1 _].
  simpl. now rewrite D1.
Qed.

Lemma lookup_parent_inv cwd root p q es :
  no_dotdot p = true ->
  lookup_parent cwd root p = Got (q, es) ->
  q = start cwd p ++ undot (removelast (parts p))
  /\ walk_from root (start cwd p) (removelast (parts p)) = Got q
  /\ entries_at root q = Got es
  /\ exists u g, get root q = Some (Dir u g es).
Proof.
  intros N. unfold lookup_parent.
  destruct (walk_from root (start cwd p) (removelast (parts p))) as [q'|e] eqn:W;
    [|discriminate].
  destruct (entries_at root q') as [es'|e] eqn:E; [|discriminate].
  intros H. injection H as -> ->.
  split; [|split; [reflexivity|split; [exact E|exact (entries_at_inv _ _ _ E)]]].
  exact (walk_place _ _ _ _ (forallb_removelast _ _ N) W).
Qed.

(** What [os.mkdir] has made is there, empty, and the caller's. *)
Lemma mkdir_stat uid gid cwd root p f :
  no_dotdot p = true ->
  mkdir uid gid cwd root p = Got f ->
  stat cwd f p = Got (Dir uid gid []).
Proof.
  intros N. unfold mkdir.
  destruct (String.eqb p "") eqn:Hp; [discriminate|].
  apply String.eqb_neq in Hp.
  destruct (parts p) as [|c l] eqn:P; [discriminate|].
  assert (Hne : parts p <> []) by (rewrite P; discriminate).
  destruct (lookup_parent cwd root p) as [[q es]|e] eqn:L; [|discriminate].
  destruct (is_dot (last_part p)) eqn:D; [discriminate|].
  destruct (find_entry (last_part p) es) eqn:F; [discriminate|].
  intros H. injection H as <-.
  destruct (lookup_parent_inv _ _ _ _ _ N L) as (Q & _ & _ & u & g & G).
  apply stat_dir; [assumption..|].
  rewrite (place_last _ _ Hne D), <- Q, get_app, (get_update _ _ _ _ G).
  simpl. now rewrite (find_entry_snoc _ _ _ F).
Qed.

Lemma step_errors root q c e :
  step root q c = Err e -> e = ENOENT \/ e = ENOTDIR.
Proof.
  unfold step, entries_at. destruct (get root q) as [[|u g es]|].
  - intros H. injection H as <-. auto.
  - destruct (String.eqb c "."); [discriminate|].
    destruct (String.eqb c ".."); [discriminate|].
    destruct (find_entry c es); [discriminate|].
    intros H. injection H as <-. auto.
  - intros H. injection H as <-. auto.
Qed.

Lemma walk_errors root : forall comps q e,
  walk_from root q comps = Err e -> e = ENOENT \/ e = ENOTDIR.
Proof.
  induction comps as [|c comps IH]; intros q e; simpl; [discriminate|].
  destruct (step root q c) as [q'|e'] eqn:S1.
  - apply IH.
  - intros H. injection H as <-. exact (step_errors _ _ _ _ S1).
Qed.

Lemma lookup_parent_errors cwd root p e :
  lookup_parent cwd root p = Err e -> e = ENOENT \/ e = ENOTDIR.
Proof.
  unfold lookup_parent, entries_at.
  destruct (walk_from root (start cwd p) (removelast (parts p))) as [q|e'] eqn:W.
  - destruct (get root q) as [[|]|]; try discriminate;
      intros H; injection H as <-; auto.
  - intros H. injection H as <-. exact (walk_errors _ _ _ _ W).
Qed.

Lemma all_slashes_endswith p :
  OsPath.all_slashes p = true -> p <> "" -> Py.endswith p "/" = true.
Proof.
  intros A Hp. induction p as [|c p IH]; [congruence|].
  simpl in A. apply andb_true_iff in A as [Hc A].
  apply Ascii.eqb_eq in Hc. subst c.
  destruct p as [|d p]; [reflexivity|].
  rewrite endswith_cons by discriminate. apply IH; [exact A | discriminate].
Qed.

(** [os.mkdir] answers [EEXIST] only for what is there. *)
Lemma mkdir_eexist_inv uid gid cwd root p :
  no_dotdot p = true -> Py.endswith p "/" = false ->
  mkdir uid gid cwd root p = Err EEXIST ->
  exists_ cwd root p = true.
Proof.
  intros N T. unfold mkdir.
  destruct (String.eqb p "") eqn:Hp; [discriminate|].
  apply String.eqb_neq in Hp.
  destruct (parts p) as [|c l] eqn:P.
  - intros _. apply parts_nil_slashes in P.
    rewrite (all_slashes_endswith _ P Hp) in T. discriminate.
  - assert (Hne : parts p <> []) by (rewrite P; discriminate).
    destruct (lookup_parent cwd root p) as [[q es]|e] eqn:L.
    + destruct (lookup_parent_inv _ _ _ _ _ N L) as (_ & W & E & u & g & G).
      assert (K : forall q' n, step root q (last_part p) = Got q' ->
                               get root q' = Some n ->
                               exists_ cwd root p = true).
      { intros q' n S1 G'. unfold exists_.
        rewrite (stat_of_walk cwd root p q' n Hp T); [reflexivity| |exact G'].
        rewrite (app_removelast_last "" Hne), walk_from_app, W. simpl.
        unfold last_part in S1. now rewrite S1. }
      destruct (is_dot (last_part p)) eqn:D.
      * intros _. unfold is_dot in D. apply orb_true_iff in D as [D|D].
        -- apply String.eqb_eq in D.
           apply (K q (Dir u g es)); [|exact G].
           rewrite D. exact (step_dot _ _ _ E).
        -- unfold no_dotdot in N.
           pose proof (forallb_last _ _ Hne N) as N'. cbv beta in N'.
           unfold last_part in D. rewrite D in N'. discriminate.
      * destruct (find_entry (last_part p) es) as [n|] eqn:F; [|discriminate].
        intros _. apply (K (q ++ [last_part p]) n).
        -- now rewrite (step_name _ _ _ _ E D), F.
        -- rewrite get_app, G. simpl. now rewrite F.
    + intros H. injection H as ->.
      destruct (lookup_parent_errors _ _ _ _ L); discriminate.
Qed.

(** A directory of any shape, under a path that ends in [.]. *)
Lemma stat_of_walk_dir cwd root p q u g es :
  p <> "" ->
  walk_from root (start cwd p) (parts p) = Got q ->
  get root q = Some (Dir u g es) ->
  stat cwd root p = Got (Dir u g es).
Proof.
  intros Hp W G. unfold stat, resolve. apply String.eqb_neq in Hp.
  now rewrite Hp, W, G, G.
Qed.

Section Split.

Variables (cwd : position) (root : node) (name head tail : string).
Hypothesis Hsplit : split_twice name = (head, tail).
Hypothesis Hhead : head <> "".
Hypothesis Htail : tail <> "".

Lemma split_parts_ne : parts name <> [].
Proof. intros P. exact (Htail (split_twice_no_tail _ _ _ Hsplit P)). Qed.

Lemma split_name_ne : name <> "".
Proof. intros E. apply split_parts_ne. rewrite E. exact parts_empty. Qed.

Lemma split_walk :
  walk_from root (start cwd name) (parts name)
  = match walk_from root (start cwd head) (parts head) with
    | Got q => step root q tail
    | Err e => Err e
    end.
Proof.
  destruct (split_twice_parts _ _ _ Hsplit split_parts_ne)
    as (Ht & Ph & _ & Ah & _).
  rewrite (app_removelast_last "" split_parts_ne) at 1.
  rewrite walk_from_app, <- Ph. unfold start. rewrite (Ah Hhead).
  destruct (walk_from root _ (parts head)) as [q|e]; [|reflexivity].
  simpl. unfold last_part in Ht. rewrite <- Ht.
  now destruct (step root q tail).
Qed.

Lemma split_no_dotdot : no_dotdot name = true -> no_dotdot head = true.
Proof.
  destruct (split_twice_parts _ _ _ Hsplit split_parts_ne) as (_ & Ph & _).
  unfold no_dotdot. rewrite Ph. apply forallb_removelast.
Qed.

Lemma split_tail_not_dotdot :
  no_dotdot name = true -> String.eqb tail ".." = false.
Proof.
  destruct (split_twice_parts _ _ _ Hsplit split_parts_ne) as (Ht & _).
  intros N. pose proof (forallb_last _ _ split_parts_ne N) as K.
  cbv beta in K. unfold last_part in Ht. rewrite <- Ht in K.
  now apply negb_true_iff.
Qed.

(** Under [head/.] lies what lies under [head]. *)
Lemma stat_dot_tail u g es :
  tail = "." ->
  stat cwd root head = Got (Dir u g es) ->
  stat cwd root name = Got (Dir u g es).
Proof.
  intros Ed H. apply stat_walk in H as (q & W & G).
  apply (stat_of_walk_dir _ _ _ q); [exact split_name_ne| |exact G].
  rewrite split_walk, W, Ed.
  exact (step_dot _ _ _ (entries_at_dir _ _ _ _ _ G)).
Qed.

(** Nothing lies in an empty directory. *)
Lemma stat_under_empty u g :
  is_dot tail = false ->
  stat cwd root head = Got (Dir u g []) ->
  exists_ cwd root name = false.
Proof.
  intros D H. apply stat_walk in H as (q & W & G).
  unfold exists_. destruct (stat cwd root name) as [n|e] eqn:S1; [|reflexivity].
  apply stat_walk in S1 as (q' & W' & _).
  rewrite split_walk, W in W'.
  rewrite (step_name _ _ _ _ (entries_at_dir _ _ _ _ _ G) D) in W'.
  discriminate.
Qed.

(** The directory a path lies in is named without a slash at its end,
    unless it is the root. *)
Lemma split_head_unslashed :
  is_dir_node root = true -> exists_ cwd root head = false ->
  Py.endswith head "/" = false.
Proof.
  intros R X.
  destruct (split_twice_parts _ _ _ Hsplit split_parts_ne)
    as (_ & _ & _ & _ & _ & Sl).
  destruct (Py.endswith head "/") eqn:E; [|reflexivity].
  pose proof (Sl eq_refl) as A. exfalso.
  unfold exists_ in X.
  destruct root as [|u g es]; [discriminate|].
  rewrite (stat_of_walk_dir cwd (Dir u g es) head [] u g es Hhead) in X;
    [discriminate| |reflexivity].
  rewrite (parts_all_slashes _ A). unfold start.
  destruct head as [|c h]; [congruence|].
  simpl in A. apply andb_true_iff in A as [Hc _].
  apply Ascii.eqb_eq in Hc. subst c.
  cbn [Py.startswith walk_from]. now rewrite startswith_nil.
Qed.

End Split.

(** The root stays a directory. *)
Lemma update_keeps_dir f : forall q root,
  (forall n, is_dir_node n = true -> is_dir_node (f n) = true) ->
  is_dir_node root = true -> is_dir_node (update f root q) = true.
Proof.
  intros [|c q] root Hf R; simpl; [now apply Hf|].
  destruct root as [|u g es]; [discriminate|].
  now destruct (find_entry c es).
Qed.

Lemma mkdir_keeps_dir uid gid cwd root p f :
  mkdir uid gid cwd root p = Got f ->
  is_dir_node root = true -> is_dir_node f = true.
Proof.
  unfold mkdir. destruct (String.eqb p ""); [discriminate|].
  destruct (parts p); [discriminate|].
  destruct (lookup_parent cwd root p) as [[q es]|]; [|discriminate].
  destruct (is_dot (last_part p)); [discriminate|].
  destruct (find_entry (last_part p) es); [discriminate|].
  intros H R. injection H as <-. apply update_keeps_dir; [|exact R].
  now intros [|].
Qed.

Lemma rmdir_keeps_dir cwd root p f :
  rmdir cwd root p = Got f ->
  is_dir_node root = true -> is_dir_node f = true.
Proof.
  unfold rmdir. destruct (String.eqb p ""); [discriminate|].
  destruct (parts p); [discriminate|].
  destruct (lookup_parent cwd root p) as [[q es]|]; [|discriminate].
  destruct (String.eqb (last_part p) "."); [discriminate|].
  destruct (String.eqb (last_part p) ".."); [discriminate|].
  destruct (find_entry (last_part p) es) as [[|u g [|x0 l0]]|]; try discriminate.
  intros H R. injection H as <-. apply update_keeps_dir; [|exact R].
  now intros [|].
Qed.

Lemma remove_keeps_dir cwd root p f :
  remove cwd root p = Got f ->
  is_dir_node root = true -> is_dir_node f = true.
Proof.
  unfold remove. destruct (String.eqb p ""); [discriminate|].
  destruct (parts p); [discriminate|].
  destruct (lookup_parent cwd root p) as [[q es]|]; [|discriminate].
  destruct (is_dot (last_part p)); [discriminate|].
  destruct (find_entry (last_part p) es) as [[|]|]; try discriminate.
  destruct (Py.endswith p "/"); [discriminate|].
  intros H R. injection H as <-. apply update_keeps_dir; [|exact R].
  now intros [|].
Qed.

Lemma makedirs_rec_keeps_dir uid gid cwd : forall fuel root name,
  is_dir_node root = true ->
  is_dir_node (snd (makedirs_rec fuel uid gid cwd root name)) = true.
Proof.
  assert (C : forall root name,
             is_dir_node root = true ->
             is_dir_node (snd (match mkdir uid gid cwd root name with
                               | Got f => (Got tt, f)
                               | Err e => (Err e, root)
                               end)) = true).
  { intros root name R. destruct (mkdir uid gid cwd root name) eqn:M;
      [exact (mkdir_keeps_dir _ _ _ _ _ _ M R) | exact R]. }
  induction fuel as [|fuel IH]; intros root name R; [now apply C|].
  rewrite makedirs_rec_step. cbv zeta.
  destruct (split_twice name) as [head tail].
  destruct (negb (String.eqb head "") && negb (String.eqb tail "")
            && negb (exists_ cwd root head)); [|now apply C].
  specialize (IH root head R).
  destruct (makedirs_rec fuel uid gid cwd root head) as [[[]|e] root'];
    simpl in IH.
  - destruct (String.eqb tail "."); [exact IH | now apply C].
  - destruct e; try exact IH;
      destruct (String.eqb tail "."); [exact IH | now apply C].
Qed.

Lemma finish_keeps_dir i cwd p root :
  is_dir_node root = true ->
  is_dir_node (snd (rmtree_finish i cwd p root)) = true.
Proof.
  intros R. unfold rmtree_finish.
  destruct (rmdir cwd root p) eqn:E; [exact (rmdir_keeps_dir _ _ _ _ E R)|].
  now destruct i.
Qed.

Lemma rmtree_node_keeps_dir i cwd : forall n p root,
  is_dir_node root = true ->
  is_dir_node (snd (rmtree_node i cwd p n root)) = true.
Proof.
  induction n as [u g d|u g es IH] using node_nested_ind; intros p root R.
  - destruct i; [|exact R]. exact (finish_keeps_dir true cwd p root R).
  - rewrite rmtree_node_dir.
    assert (L : forall root, is_dir_node root = true ->
                is_dir_node (snd (rmtree_entries i cwd p es root)) = true).
    { clear root R. induction es as [|[name ch] es IHes]; intros root R;
        [exact R|].
      inversion IH as [|? ? Hc Hr]; subst. simpl in Hc.
      rewrite rmtree_entries_cons.
      set (one := match stat cwd root (PosixPath.join2 p [name]) with
                  | Got (Dir _ _ _) =>
                      rmtree_node i cwd (PosixPath.join2 p [name]) ch root
                  | _ =>
                      match remove cwd root (PosixPath.join2 p [name]) with
                      | Got f => (Got tt, f)
                      | Err e => on_error i e root
                      end
                  end).
      assert (O : is_dir_node (snd one) = true).
      { unfold one.
        assert (Rm : is_dir_node
                       (snd (match remove cwd root (PosixPath.join2 p [name]) with
                             | Got f => (Got tt, f)
                             | Err e => on_error i e root
                             end)) = true).
        { destruct (remove cwd root _) eqn:E;
            [exact (remove_keeps_dir _ _ _ _ E R) | now destruct i]. }
        destruct (stat cwd root (PosixPath.join2 p [name])) as [[|]|];
          [exact Rm | now apply Hc | exact Rm]. }
      destruct one as [[[]|e] root']; simpl in O; [|exact O].
      now apply IHes. }
    specialize (L root R).
    destruct (rmtree_entries i cwd p es root) as [[[]|e] root']; simpl in L;
      [|exact L].
    now apply finish_keeps_dir.
Qed.

Lemma rmtree_keeps_dir i cwd root p :
  is_dir_node root = true ->
  is_dir_node (snd (rmtree i cwd root p)) = true.
Proof.
  intros R. unfold rmtree. destruct (stat cwd root p).
  - now apply rmtree_node_keeps_dir.
  - destruct i; [|exact R]. simpl.
    destruct (rmdir cwd root p) eqn:E;
      [exact (rmdir_keeps_dir _ _ _ _ E R) | exact R].
Qed.

(** [os.makedirs] of a path without [..]: when it returns, the path names
    an empty directory of the caller; and it answers [EEXIST] only for
    what was there, or for a path with a slash at its end. *)
Lemma makedirs_rec_made uid gid cwd : forall fuel name root,
  is_dir_node root = true -> no_dotdot name = true ->
  (forall f, makedirs_rec fuel uid gid cwd root name = (Got tt, f) ->
             stat cwd f name = Got (Dir uid gid []))
  /\ (Py.endswith name "/" = false -> exists_ cwd root name = false ->
      fst (makedirs_rec fuel uid gid cwd root name) <> Err EEXIST).
Proof.
  assert (C : forall name root,
             no_dotdot name = true ->
             (forall f, match mkdir uid gid cwd root name with
                        | Got f => (Got tt, f)
                        | Err e => (Err e, root)
                        end = (Got tt, f) ->
                        stat cwd f name = Got (Dir uid gid []))
             /\ (Py.endswith name "/" = false -> exists_ cwd root name = false ->
                 fst (match mkdir uid gid cwd root name with
                      | Got f => (Got tt, f)
                      | Err e => (Err e, root)
                      end) <> Err EEXIST)).
  { intros name root N. split.
    - intros f. destruct (mkdir uid gid cwd root name) as [f'|e] eqn:M;
        [|discriminate].
      intros H. injection H as <-. exact (mkdir_stat _ _ _ _ _ _ N M).
    - intros T X. destruct (mkdir uid gid cwd root name) as [f'|e] eqn:M;
        [discriminate|].
      simpl. intros H. injection H as ->.
      rewrite (mkdir_eexist_inv _ _ _ _ _ N T M) in X. discriminate. }
  induction fuel as [|fuel IH]; intros name root R N; [now apply C|].
  rewrite makedirs_rec_step. cbv zeta.
  destruct (split_twice name) as [head tail] eqn:Sp.
  destruct (String.eqb head "") eqn:Eh; [now apply C|].
  destruct (String.eqb tail "") eqn:Et; [now apply C|].
  destruct (exists_ cwd root head) eqn:X; [now apply C|].
  cbn [negb andb].
  apply String.eqb_neq in Eh, Et.
  pose proof (split_no_dotdot _ _ _ Sp Et N) as Nh.
  pose proof (split_head_unslashed cwd root _ _ _ Sp Eh Et R X) as Th.
  pose proof (split_tail_not_dotdot _ _ _ Sp Et N) as Ndd.
  destruct (IH head root R Nh) as [IHa IHb].
  specialize (IHb Th X).
  pose proof (makedirs_rec_keeps_dir uid gid cwd fuel root head R) as R'.
  destruct (makedirs_rec fuel uid gid cwd root head) as [[[]|e] root'];
    simpl in IHb, R'.
  - pose proof (IHa root' eq_refl) as Sh.
    destruct (String.eqb tail ".") eqn:Ed.
    + apply String.eqb_eq in Ed. split; [|discriminate].
      intros f H. injection H as <-.
      exact (stat_dot_tail cwd root' _ _ _ Sp Eh Et _ _ _ Ed Sh).
    + destruct (C name root' N) as [Ca Cb]. split; [exact Ca|].
      intros T _. apply (Cb T).
      apply (stat_under_empty cwd root' _ _ _ Sp Eh Et uid gid); [|exact Sh].
      unfold is_dot. now rewrite Ed, Ndd.
  - destruct e; try (split; [discriminate | simpl; discriminate]).
    congruence.
Qed.

Lemma makedirs_made uid gid cwd root name f :
  is_dir_node root = true -> no_dotdot name = true ->
  makedirs uid gid cwd root name = (Got tt, f) ->
  stat cwd f name = Got (Dir uid gid []).
Proof.
  intros R N. apply (makedirs_rec_made uid gid cwd _ name root R N).
Qed.

Lemma makedirs_keeps_dir uid gid cwd root name :
  is_dir_node root = true ->
  is_dir_node (snd (makedirs uid gid cwd root name)) = true.
Proof. apply makedirs_rec_keeps_dir. Qed.

End MadeFacts.
(** X14. Whenever [mkdir] returns, for a destination written without
    [..] in a tree whose root is a directory, the destination is an empty
    directory owned by the importing process: whatever was there before is
    gone. Package table and terminal are untouched. *)
Theorem mkdir_leaves_empty_directory
        (env : Env) (aip_new_home : string) (w w' : World) :
  Fs.is_dir_node (fs w) = true ->
  Fs.no_dotdot aip_new_home = true ->
  mkdir env aip_new_home w = (Ok tt, w') ->
  Fs.stat (cwd env) (fs w') aip_new_home
  = Fs.Got (Fs.Dir (euid env) (egid env) [])
  /\ packages w' = packages w /\ stdin w' = stdin w /\ stdout w' = stdout w.
Proof.
  intros R N. rewrite MkdirFacts.mkdir_cases. cbv zeta.
  pose proof (MadeFacts.makedirs_keeps_dir (euid env) (egid env) (cwd env)
                (fs w) aip_new_home R) as R1.
  destruct (Fs.makedirs (euid env) (egid env) (cwd env) (fs w) aip_new_home)
    as [[[]|e] f] eqn:M; simpl in R1.
  - intros H. injection H as <-. cbn [fs set_fs log packages stdin stdout].
    split; [|auto]. exact (MadeFacts.makedirs_made _ _ _ _ _ _ R N M).
  - pose proof (MadeFacts.rmtree_keeps_dir false (cwd env) f aip_new_home R1)
      as R2.
    destruct (Fs.rmtree false (cwd env) f aip_new_home) as [[[]|e1] f1];
      [|discriminate].
    simpl in R2.
    destruct (Fs.makedirs (euid env) (egid env) (cwd env) f1 aip_new_home)
      as [[[]|e2] f2] eqn:M2; [|discriminate].
    intros H. injection H as <-. cbn [fs set_fs log packages stdin stdout].
    split; [|auto]. exact (MadeFacts.makedirs_made _ _ _ _ _ _ R2 N M2).
Qed.

Lemma mkdir_leaves_empty_directory_witness :
  Fs.stat (cwd Demo.env)
          (fs (snd (mkdir Demo.env Demo.destination Demo.world_occupied)))
          Demo.destination
  = Fs.Got (Fs.Dir (euid Demo.env) (egid Demo.env) [])
  /\ packages (snd (mkdir Demo.env Demo.destination Demo.world_occupied))
     = packages Demo.world_occupied
  /\ stdin (snd (mkdir Demo.env Demo.destination Demo.world_occupied))
     = stdin Demo.world_occupied
  /\ stdout (snd (mkdir Demo.env Demo.destination Demo.world_occupied))
     = stdout Demo.world_occupied.
Proof.
  apply (mkdir_leaves_empty_directory Demo.env Demo.destination
           Demo.world_occupied).
  - reflexivity.
  - reflexivity.
  - vm_compute. reflexivity.
Defined.

(** Through [..] the same does not hold: [os.makedirs] makes [n1], takes
    the [EEXIST] of [n1/..] for done, and returns at the last component
    [.]; the destination is the current directory, with [n1] in it. *)
Example mkdir_through_dotdot :
  let w' := snd (mkdir Demo.env "n1/../." Demo.world0) in
  fst (mkdir Demo.env "n1/../." Demo.world0) = Ok tt
  /\ Fs.stat (cwd Demo.env) (fs w') "n1/../."
     = Fs.Got (Fs.Dir 0 0 [("archive.tar.gz", Fs.File 0 0 "gzip");
                           ("archive.zip", Fs.File 0 0 "PK");
                           ("n1", Fs.Dir 0 0 [])])
  /\ trace w' = [EvMakedirs "n1/../."].
Proof. vm_compute. repeat split. Qed.

(** X15. [mkdir] fails only with [OSError], with package table and
    terminal untouched. It fails when the destination is a regular file,
    and then the tree is as it was. It fails as well when the destination
    is a directory written with a last component [.] (in a well-formed
    tree, without [..]): by then [shutil.rmtree] has emptied the directory,
    which stays. The command catches neither failure. *)
Theorem mkdir_failure_cases
        (env : Env) (aip_new_home : string) (w : World) :
  (forall e w',
      mkdir env aip_new_home w = (Raise e, w') ->
      e = OSError
      /\ packages w' = packages w /\ stdin w' = stdin w /\ stdout w' = stdout w)
  /\ (Fs.isfile (cwd env) (fs w) aip_new_home = true ->
      exists w', mkdir env aip_new_home w = (Raise OSError, w')
                 /\ fs w' = fs w)
  /\ (forall u g es,
      Fs.wf (fs w) = true -> Fs.no_dotdot aip_new_home = true ->
      Fs.last_part aip_new_home = "." ->
      Fs.stat (cwd env) (fs w) aip_new_home = Fs.Got (Fs.Dir u g es) ->
      exists w', mkdir env aip_new_home w = (Raise OSError, w')
                 /\ Fs.stat (cwd env) (fs w') aip_new_home
                    = Fs.Got (Fs.Dir u g [])).
Proof.
  rewrite MkdirFacts.mkdir_cases. cbv zeta. split; [|split].
  - intros e w'.
    destruct (Fs.makedirs (euid env) (egid env) (cwd env) (fs w) aip_new_home)
      as [[[]|e0] f]; [discriminate|].
    destruct (Fs.rmtree false (cwd env) f aip_new_home) as [[[]|e1] f1].
    + destruct (Fs.makedirs (euid env) (egid env) (cwd env) f1 aip_new_home)
        as [[[]|e2] f2]; [discriminate|].
      intros H. injection H as <- <-. auto.
    + intros H. injection H as <- <-. auto.
  - intros F. unfold Fs.isfile in F.
    destruct (Fs.stat (cwd env) (fs w) aip_new_home) as [[u g d|]|] eqn:S0;
      try discriminate.
    rewrite (MakedirsFacts.makedirs_exists _ _ _ _ _ _ S0).
    unfold Fs.rmtree. rewrite S0. cbn.
    eexists. split; reflexivity.
  - intros u g es W N L S0.
    rewrite (MakedirsFacts.makedirs_exists _ _ _ _ _ _ S0).
    rewrite (ReplaceFacts.rmtree_dir false _ _ _ _ _ _ W N S0).
    destruct (PlaceFacts.stat_place _ _ _ _ N S0) as [Hp G].
    set (emptied := Fs.update (Fs.set_entries []) (fs w)
                              (Fs.place (cwd env) aip_new_home)).
    assert (Ge : Fs.get emptied (Fs.place (cwd env) aip_new_home)
                 = Some (Fs.Dir u g [])).
    { unfold emptied. now rewrite (FsFacts.get_update _ _ _ _ G). }
    assert (Se : Fs.stat (cwd env) emptied aip_new_home = Fs.Got (Fs.Dir u g []))
      by exact (PlaceFacts.stat_dir _ _ _ _ _ _ Hp N Ge).
    assert (Rm : Fs.rmdir (cwd env) emptied aip_new_home = Fs.Err Fs.EINVAL).
    { unfold Fs.rmdir. apply String.eqb_neq in Hp. rewrite Hp.
      destruct (MakedirsFacts.stat_walk _ _ _ _ Se) as (q & Wk & _).
      destruct (Fs.parts aip_new_home) as [|c l] eqn:P.
      - unfold Fs.last_part in L. rewrite P in L. discriminate.
      - rewrite <- P in Wk.
        assert (Hne : Fs.parts aip_new_home <> []) by (rewrite P; discriminate).
        destruct (MakedirsFacts.walk_last _ _ _ _ Hne Wk)
          as (q1 & es1 & W1 & E1 & _).
        unfold Fs.lookup_parent. now rewrite W1, E1, L. }
    unfold Fs.rmtree_finish. rewrite Rm. cbn.
    eexists. split; [reflexivity|]. exact Se.
Qed.

Lemma mkdir_failure_cases_witness :
  (exists w', mkdir Demo.env "/tmp/archive.zip" Demo.world0 = (Raise OSError, w')
              /\ fs w' = fs Demo.world0)
  /\ (exists w', mkdir Demo.env (Demo.destination ++ "/.") Demo.world_occupied
                 = (Raise OSError, w')
                 /\ Fs.stat (cwd Demo.env) (fs w') (Demo.destination ++ "/.")
                    = Fs.Got (Fs.Dir 0 0 [])).
Proof.
  split.
  - apply (proj1 (proj2 (mkdir_failure_cases Demo.env "/tmp/archive.zip"
                           Demo.world0))).
    reflexivity.
  - apply (proj2 (proj2 (mkdir_failure_cases Demo.env (Demo.destination ++ "/.")
                           Demo.world_occupied))
             0%Z 0%Z [("keep.txt", Fs.File 0 0 "precious")]);
      vm_compute; reflexivity.
Defined.
(** ** Ownership *)

Module OwnerFacts.

Lemma os_chown_keeps_shape env p u g :
  keeps_view shape_view (os_chown env p u g).
Proof.
  intros w r w' H. unfold os_chown, os_call, Fs.chown in H. cbn [fs log] in H.
  destruct (Fs.resolve (cwd env) (fs w) p) as [q|e];
    inversion H; subst; unfold shape_view; cbn [fs set_fs log];
    [|reflexivity].
  apply DirFacts.update_shape. now intros [|].
Qed.

Lemma fix_ownership_keeps_shape env inst p :
  keeps_view shape_view (fix_ownership env inst p).
Proof.
  unfold fix_ownership.
  apply keeps_bind; [apply keeps_getpwnam | intros am].
  apply keeps_bind; [apply keeps_getpwnam | intros am'].
  apply keeps_bind; [unfold os_walk; apply keeps_reader | intros listing].
  apply keeps_for_each. intros [[root dirs] files].
  apply keeps_bind; [apply os_chown_keeps_shape | intros _].
  apply keeps_bind; [|intros _];
    apply keeps_for_each; intros x; apply os_chown_keeps_shape.
Qed.

End OwnerFacts.

(** X16. [fix_ownership] changes owners and nothing else: whatever its
    outcome, the tree has afterwards the names, the nesting and the file
    contents it had, and the package table is untouched. *)
Theorem fix_ownership_changes_owners_only
        (env : Env) (aip_model_inst : Store.Package)
        (aip_storage_location_path : string)
        (w : World) (r : res unit) (w' : World) :
  fix_ownership env aip_model_inst aip_storage_location_path w = (r, w') ->
  FsMore.shape (fs w') = FsMore.shape (fs w)
  /\ packages w' = packages w.
Proof.
  intros H. split.
  - exact (OwnerFacts.fix_ownership_keeps_shape _ _ _ _ _ _ H).
  - pose proof (keeps_fix_ownership store_view
                  (fun _ _ => eq_refl) env store_view_log _ _ _ _ _ H) as K.
    unfold store_view in K. now injection K.
Qed.

Lemma fix_ownership_changes_owners_only_witness :
  FsMore.shape (fs (snd (fix_ownership Demo.env Demo.new_record "/var/store"
                           Demo.world_copied)))
  = FsMore.shape (fs Demo.world_copied)
  /\ packages (snd (fix_ownership Demo.env Demo.new_record "/var/store"
                      Demo.world_copied))
     = packages Demo.world_copied.
Proof.
  apply (fix_ownership_changes_owners_only Demo.env Demo.new_record "/var/store"
           Demo.world_copied
           (fst (fix_ownership Demo.env Demo.new_record "/var/store"
                   Demo.world_copied))).
  now destruct (fix_ownership _ _ _ _).
Defined.

(** ** The package table across an import *)

Module TableFacts.
Import Store SaveFacts PipelineFacts.

(** [import_aip], by the outcome of what comes before the save and of the
    save. *)
Lemma import_cases env a l p w :
  import_aip env a l p w
  = match prepare_aip env a l p w with
    | (Ok inst, wp) =>
        match save_aip_model_instance inst wp with
        | (Ok _, ws) =>
            (Ok tt, emit ws (okgreen ("Successfully imported AIP "
                                        ++ uuid inst ++ ".")))
        | (Raise e, ws) => (Raise e, ws)
        end
    | (Raise e, wp) => (Raise e, wp)
    end.
Proof.
  rewrite import_aip_factors. unfold bind, print.
  destruct (prepare_aip env a l p w) as [[inst|e] wp]; [|reflexivity].
  now destruct (save_aip_model_instance inst wp) as [[[]|e] ws].
Qed.


(** The save, as a list of store operations. *)
Lemma save_trace inst w :
  exists pat,
    In pat (save_patterns inst)
    /\ trace (snd (save_aip_model_instance inst w)) = (trace w ++ pat)%list.
Proof.
  unfold save_aip_model_instance, try_except, save_patterns.
  destruct (Package_save inst w) as [[[]|e] w1] eqn:E.
  - apply Package_save_ok in E as (_ & _ & T).
    exists [EvSave inst true]. simpl. auto.
  - apply Package_save_raise in E as (-> & _ & _ & T). simpl.
    unfold bind, Package_filter_delete.
    set (w2 := log _ _).
    assert (T2 : trace w2 = (trace w ++ [EvSave inst false; EvDelete (uuid inst)])%list).
    { unfold w2. simpl. now rewrite T, <- app_assoc. }
    destruct (Package_save inst w2) as [[[]|e2] w3] eqn:E2.
    + apply Package_save_ok in E2 as (_ & _ & T3).
      exists [EvSave inst false; EvDelete (uuid inst); EvSave inst true].
      simpl. rewrite T3, T2, <- app_assoc. auto.
    + apply Package_save_raise in E2 as (_ & _ & _ & T3).
      exists [EvSave inst false; EvDelete (uuid inst); EvSave inst false].
      simpl. rewrite T3, T2, <- app_assoc. auto.
Qed.

Lemma store_writes_pattern inst pat :
  In pat (save_patterns inst) -> store_writes pat = pat.
Proof.
  unfold save_patterns. simpl.
  intros [<- | [<- | [<- | []]]]; reflexivity.
Qed.

(** Uniqueness of UUIDs under the operations of the record store. *)
Lemma filter_uuid_insert u p rows rows' :
  insert p rows = Ok rows' ->
  filter_uuid u rows'
  = (filter_uuid u rows ++ if has_uuid u p then [p] else [])%list
  /\ filter_uuid (uuid p) rows = [].
Proof.
  unfold insert.
  destruct (filter_uuid (uuid p) rows) eqn:F; [|discriminate].
  intros H. injection H as <-. split; [|reflexivity].
  rewrite filter_uuid_app. simpl. now destruct (has_uuid u p).
Qed.

Lemma insert_unique p rows rows' :
  unique_uuids rows -> insert p rows = Ok rows' -> unique_uuids rows'.
Proof.
  intros U H u. destruct (filter_uuid_insert u _ _ _ H) as [E F].
  rewrite E, length_app. specialize (U u).
  destruct (has_uuid u p) eqn:Hu; simpl; [|lia].
  unfold has_uuid in Hu. apply String.eqb_eq in Hu. subst u.
  rewrite F. simpl. lia.
Qed.

Lemma commit_others_unique new : forall rows,
  unique_uuids rows -> unique_uuids (commit_others new rows).
Proof.
  unfold commit_others.
  induction new as [|p new IH]; intros rows U; simpl; [assumption|].
  apply IH. destruct (insert p rows) as [rows'|] eqn:E; [|assumption].
  exact (insert_unique _ _ _ U E).
Qed.

Lemma filter_filter_length {A} (f g : A -> bool) l :
  List.length (filter f (filter g l)) <= List.length (filter f l).
Proof.
  induction l as [|x l IH]; simpl; [lia|].
  destruct (g x); simpl; destruct (f x); simpl; lia.
Qed.

Lemma delete_unique u rows :
  unique_uuids rows -> unique_uuids (delete_uuid u rows).
Proof.
  intros U v. specialize (U v). unfold filter_uuid, delete_uuid in *.
  pose proof (filter_filter_length (has_uuid v)
                (fun p => negb (has_uuid u p)) rows). lia.
Qed.

Lemma Package_save_unique_kept inst w :
  unique_uuids (packages w) ->
  unique_uuids (packages (snd (Package_save inst w))).
Proof.
  intros U. unfold Package_save.
  pose proof (commit_others_unique
                (match others w with [] => [] | o :: _ => o end) _ U) as R.
  fold (rows_at_save w) in R.
  destruct (insert inst (rows_at_save w)) as [rows'|e] eqn:E; simpl.
  - exact (insert_unique _ _ _ R E).
  - exact R.
Qed.

Lemma save_unique_kept inst w :
  unique_uuids (packages w) ->
  unique_uuids (packages (snd (save_aip_model_instance inst w))).
Proof.
  intros U. unfold save_aip_model_instance, try_except.
  pose proof (Package_save_unique_kept inst w U) as U1.
  destruct (Package_save inst w) as [[[]|e] w1]; simpl in U1; [assumption|].
  destruct (is_IntegrityError e); [|assumption].
  unfold bind, Package_filter_delete.
  apply Package_save_unique_kept. simpl. now apply delete_unique.
Qed.

(** Rows of another UUID stay. *)
Lemma commit_others_keeps q new : forall rows,
  In q rows -> In q (commit_others new rows).
Proof.
  unfold commit_others.
  induction new as [|p new IH]; intros rows H; simpl; [assumption|].
  apply IH. unfold insert. destruct (filter_uuid (uuid p) rows); [|assumption].
  apply in_or_app. now left.
Qed.

Lemma Package_save_keeps q inst w :
  In q (packages w) -> In q (packages (snd (Package_save inst w))).
Proof.
  intros H. unfold Package_save.
  pose proof (commit_others_keeps q
                (match others w with [] => [] | o :: _ => o end) _ H) as R.
  fold (rows_at_save w) in R. unfold insert.
  destruct (filter_uuid (uuid inst) (rows_at_save w)); simpl; [|assumption].
  apply in_or_app. now left.
Qed.

Lemma save_keeps_others q inst w :
  In q (packages w) -> uuid q <> uuid inst ->
  In q (packages (snd (save_aip_model_instance inst w))).
Proof.
  intros H N. unfold save_aip_model_instance, try_except.
  pose proof (Package_save_keeps q inst w H) as H1.
  destruct (Package_save inst w) as [[[]|e] w1]; simpl in H1; [assumption|].
  destruct (is_IntegrityError e); [|assumption].
  unfold bind, Package_filter_delete.
  apply Package_save_keeps. simpl. unfold delete_uuid.
  apply filter_In. split; [assumption|].
  unfold has_uuid. apply negb_true_iff, String.eqb_neq. exact N.
Qed.

Lemma prepare_packages env a l p w r wp :
  prepare_aip env a l p w = (r, wp) ->
  packages wp = packages w
  /\ store_writes (trace wp) = store_writes (trace w).
Proof.
  intros H. pose proof (prepare_aip_keeps_store env a l p _ _ _ H) as K.
  unfold store_view in K. now injection K.
Qed.

End TableFacts.

(** X17. Whatever the outcome of [import_aip], its operations on the
    record store are none at all, or one save, or a refused save followed
    by the deletion of the records of the UUID and one more save: never
    more than two saves and one deletion, and never a deletion without a
    refused save before it. The save step by itself, on any record and in
    any state, performs exactly one of these three sequences. *)
Theorem import_aip_store_operations
        (env : Env) (aip_path location : string) (pipeline : option string)
        (w : World) :
  (let w' := snd (import_aip env aip_path location pipeline w) in
   store_writes (trace w') = store_writes (trace w)
   \/ exists inst pattern,
       In pattern (save_patterns inst)
       /\ store_writes (trace w') = (store_writes (trace w) ++ pattern)%list)
  /\ (forall inst w0,
        exists pattern,
          In pattern (save_patterns inst)
          /\ trace (snd (save_aip_model_instance inst w0))
             = (trace w0 ++ pattern)%list).
Proof.
  split; [|exact TableFacts.save_trace].
  cbv zeta. rewrite TableFacts.import_cases.
  destruct (prepare_aip env aip_path location pipeline w) as [[inst|e] wp] eqn:P.
  - right. destruct (TableFacts.prepare_packages _ _ _ _ _ _ _ P) as [_ T].
    destruct (TableFacts.save_trace inst wp) as (pat & Hin & Tr).
    exists inst, pat. split; [assumption|].
    assert (E : trace (snd (match save_aip_model_instance inst wp with
                            | (Ok _, ws) =>
                                (Ok tt, emit ws (okgreen ("Successfully imported AIP "
                                                  ++ Store.uuid inst ++ ".")))
                            | (Raise e, ws) => (Raise e, ws)
                            end))
                = trace (snd (save_aip_model_instance inst wp))).
    { now destruct (save_aip_model_instance inst wp) as [[[]|e] ws]. }
    rewrite E, Tr. unfold store_writes at 1. rewrite filter_app.
    fold (store_writes (trace wp)). fold (store_writes pat).
    now rewrite T, (TableFacts.store_writes_pattern _ _ Hin).
  - left. simpl. exact (proj2 (TableFacts.prepare_packages _ _ _ _ _ _ _ P)).
Qed.

(** X18. [import_aip] keeps the package table free of duplicate UUIDs: if
    no two records shared a UUID before, none do afterwards, whatever the
    outcome and whatever other importers committed in between. The same
    holds of the save step by itself, on any record. *)
Theorem import_aip_keeps_uuids_unique
        (env : Env) (aip_path location : string) (pipeline : option string)
        (w : World) :
  unique_uuids (packages w) ->
  unique_uuids (packages (snd (import_aip env aip_path location pipeline w)))
  /\ (forall inst,
        unique_uuids (packages (snd (save_aip_model_instance inst w)))).
Proof.
  intros U. split; [|intros inst; exact (TableFacts.save_unique_kept inst w U)].
  rewrite TableFacts.import_cases.
  destruct (prepare_aip env aip_path location pipeline w) as [[inst|e] wp] eqn:P;
    destruct (TableFacts.prepare_packages _ _ _ _ _ _ _ P) as [E _].
  - rewrite <- E in U.
    pose proof (TableFacts.save_unique_kept inst wp U) as K.
    now destruct (save_aip_model_instance inst wp) as [[[]|e] ws].
  - simpl. now rewrite E.
Qed.

Lemma import_aip_keeps_uuids_unique_witness :
  unique_uuids
    (packages (snd (import_aip Demo.env "/tmp/archive.tar.gz" "L1" None
                               (Demo.world_with_earlier ["yes"]))))
  /\ (forall inst,
        unique_uuids
          (packages (snd (save_aip_model_instance
                            inst (Demo.world_with_earlier ["yes"]))))).
Proof.
  apply (import_aip_keeps_uuids_unique Demo.env "/tmp/archive.tar.gz" "L1" None
           (Demo.world_with_earlier ["yes"])).
  intros u. simpl. destruct (Store.has_uuid u Demo.earlier); simpl; lia.
Defined.

(** X19. The only records [import_aip] ever removes are those of the UUID
    it identified for the AIP: every other record of the table is still
    there afterwards, whatever the outcome. The save step by itself keeps
    every record of another UUID than that of the record it saves. *)
Theorem import_aip_removes_only_its_uuid
        (env : Env) (aip_path location : string) (pipeline : option string)
        (w : World) (q : Store.Package) :
  In q (packages w) ->
  (In q (packages (snd (import_aip env aip_path location pipeline w)))
   \/ exists aip_dir w1,
       identify_aip env aip_path w = (Ok (aip_dir, Store.uuid q), w1))
  /\ (forall inst,
        Store.uuid q <> Store.uuid inst ->
        In q (packages (snd (save_aip_model_instance inst w)))).
Proof.
  intros H.
  split; [|intros inst Q; exact (TableFacts.save_keeps_others q inst w H Q)].
  left. rewrite TableFacts.import_cases.
  destruct (prepare_aip env aip_path location pipeline w) as [[inst|e] wp] eqn:P;
    destruct (TableFacts.prepare_packages _ _ _ _ _ _ _ P) as [E _].
  - destruct (PipelineFacts.prepare_aip_raises _ _ _ _ _ _ _ P). discriminate.
  - simpl. now rewrite E.
Qed.

Lemma import_aip_removes_only_its_uuid_witness :
  (In Demo.earlier
      (packages (snd (import_aip Demo.env "/tmp/archive.tar.gz" "L1" None
                                 (Demo.world_with_earlier ["yes"]))))
   \/ exists aip_dir w1,
       identify_aip Demo.env "/tmp/archive.tar.gz"
                    (Demo.world_with_earlier ["yes"])
       = (Ok (aip_dir, Store.uuid Demo.earlier), w1))
  /\ (forall inst,
        Store.uuid Demo.earlier <> Store.uuid inst ->
        In Demo.earlier
           (packages (snd (save_aip_model_instance
                             inst (Demo.world_with_earlier ["yes"]))))).
Proof.
  apply (import_aip_removes_only_its_uuid Demo.env "/tmp/archive.tar.gz" "L1"
           None (Demo.world_with_earlier ["yes"]) Demo.earlier).
  simpl. auto.
Defined.

(** ** The terminal *)

Module TerminalFacts.
Import Store.

Lemma Package_save_keeps_terminal inst :
  keeps_view terminal_view (Package_save inst).
Proof.
  intros w r w' H. unfold Package_save in H.
  destruct (insert inst (rows_at_save w)); inversion H; subst; reflexivity.
Qed.

Lemma save_keeps_terminal inst :
  keeps_view terminal_view (save_aip_model_instance inst).
Proof.
  unfold save_aip_model_instance.
  apply keeps_try_except; [apply Package_save_keeps_terminal|].
  apply keeps_bind; [|intros _; apply Package_save_keeps_terminal].
  intros w r w' H. unfold Package_filter_delete in H. now inversion H.
Qed.

Lemma place_keeps_terminal env d u l p :
  keeps_view terminal_view (place_aip env d u l p).
Proof. apply keeps_place_aip; reflexivity. Qed.

Lemma copy_keeps_terminal env inst a loc :
  keeps_view terminal_view (copy_aip_to_aip_storage_location env inst a loc).
Proof. apply keeps_copy_aip; reflexivity. Qed.

Lemma identify_keeps_terminal env a :
  keeps_view terminal_view (identify_aip env a).
Proof. apply keeps_identify_aip; reflexivity. Qed.

End TerminalFacts.

(** X20. [import_aip] talks to the user in the duplicate check only. When
    the AIP is identified and no record of its UUID exists, nothing is read
    from the terminal, and what is printed is the closing message of a
    successful import or, when the import raises, nothing at all. The
    placement and the save, each by itself, neither read nor print. *)
Theorem import_aip_asks_only_about_duplicates
        (env : Env) (aip_path location : string) (pipeline : option string)
        (w w1 : World) (aip_dir aip_uuid : string) :
  identify_aip env aip_path w = (Ok (aip_dir, aip_uuid), w1) ->
  Store.filter_uuid aip_uuid (packages w) = [] ->
  let r := import_aip env aip_path location pipeline w in
  stdin (snd r) = stdin w
  /\ stdout (snd r)
     = (stdout w ++ match fst r with
                    | Ok _ => [okgreen ("Successfully imported AIP "
                                          ++ aip_uuid ++ ".")]
                    | Raise _ => []
                    end)%list
  /\ (forall inst source aip_storage_location w0,
        terminal_view
          (snd (copy_aip_to_aip_storage_location
                  env inst source aip_storage_location w0))
        = terminal_view w0)
  /\ (forall inst w0,
        terminal_view (snd (save_aip_model_instance inst w0))
        = terminal_view w0).
Proof.
  intros I D. cbv zeta.
  rewrite <- and_assoc. split;
    [|split;
      [intros inst source loc w0;
       destruct (copy_aip_to_aip_storage_location env inst source loc w0)
         as [r0 w0'] eqn:C;
       exact (TerminalFacts.copy_keeps_terminal _ _ _ _ _ _ _ C)
      |intros inst w0;
       destruct (save_aip_model_instance inst w0) as [r0 w0'] eqn:Sv;
       exact (TerminalFacts.save_keeps_terminal _ _ _ _ Sv)]].
  pose proof (TerminalFacts.identify_keeps_terminal env aip_path _ _ _ I) as T1.
  pose proof (identify_aip_quiet env aip_path _ _ _ I) as Q.
  unfold quiet_view in Q. injection Q as QP _ _.
  rewrite (DuplicateFacts.import_after_identify _ _ location pipeline _ _ _ _ I).
  unfold bind.
  rewrite DuplicateFacts.check_without_duplicates by now rewrite QP.
  destruct (place_aip env aip_dir aip_uuid location pipeline w1)
    as [[inst|e] wp] eqn:P;
    pose proof (TerminalFacts.place_keeps_terminal _ _ _ _ _ _ _ _ P) as T2.
  - destruct (PipelineFacts.place_aip_raises _ _ _ _ _ _ _ _ P). discriminate.
  - unfold terminal_view in *. injection T1 as A1 B1. injection T2 as A2 B2.
    simpl. rewrite app_nil_r. split; congruence.
Qed.

Lemma import_aip_asks_only_about_duplicates_witness :
  let r := import_aip Demo.env "/tmp/archive.tar.gz" "L1" None Demo.world0 in
  stdin (snd r) = stdin Demo.world0
  /\ stdout (snd r)
     = (stdout Demo.world0
          ++ match fst r with
             | Ok _ => [okgreen ("Successfully imported AIP "
                                   ++ Demo.aip_uuid ++ ".")]
             | Raise _ => []
             end)%list
  /\ (forall inst source aip_storage_location w0,
        terminal_view
          (snd (copy_aip_to_aip_storage_location
                  Demo.env inst source aip_storage_location w0))
        = terminal_view w0)
  /\ (forall inst w0,
        terminal_view (snd (save_aip_model_instance inst w0))
        = terminal_view w0).
Proof.
  apply (import_aip_asks_only_about_duplicates
           Demo.env "/tmp/archive.tar.gz" "L1" None Demo.world0
           (snd (identify_aip Demo.env "/tmp/archive.tar.gz" Demo.world0))
           "/tmp/tmpAIP/archive" Demo.aip_uuid).
  - vm_compute. reflexivity.
  - reflexivity.
Defined.

(** ** Location and pipeline *)

Module ConfigFacts.
Import Store.

Lemma objects_get_ok {A} model (l : list A) w x w' :
  objects_get model l w = (Ok x, w') -> l = [x] /\ w' = w.
Proof.
  unfold objects_get. destruct l as [|y [|z l]]; intros H; inversion H; auto.
Qed.

(** The location that was resolved: the one of the requested UUID, or of
    the UUID the default setting holds. *)
Lemma location_result l w loc w' :
  get_aip_storage_location l w = (Ok loc, w') ->
  w' = w
  /\ In loc (locations w)
  /\ exists resolved,
      location_uuid loc = resolved
      /\ (if String.eqb l DEFAULT_AS_LOCATION
          then In (DEFAULT_AS_LOCATION, resolved) (settings w)
          else resolved = l).
Proof.
  unfold get_aip_storage_location, bind, try_except.
  destruct (String.eqb l DEFAULT_AS_LOCATION) eqn:D.
  - unfold Settings_get_value.
    destruct (objects_get "Settings" _ w) as [[v|e] w1] eqn:S; [|discriminate].
    apply objects_get_ok in S as [S Ew]. subst w1.
    unfold Location_get.
    destruct (objects_get "Location" _ w) as [[x|e] w2] eqn:L.
    + apply objects_get_ok in L as [L Ew]. subst w2. intros H. injection H as E1 E2. subst x w'.
      assert (Hin : In loc (filter (fun l0 => String.eqb (location_uuid l0) v)
                                   (locations w))) by (rewrite L; simpl; auto).
      apply filter_In in Hin as [Hin Hu]. apply String.eqb_eq in Hu.
      split; [reflexivity|]. split; [assumption|].
      exists v. split; [assumption|].
      assert (Hv : In v (map snd (filter (fun kv => String.eqb (fst kv) l)
                                         (settings w)))) by (rewrite S; simpl; auto).
      apply in_map_iff in Hv as ([k v'] & Ev & Hv). simpl in Ev. subst v'.
      apply filter_In in Hv as [Hv Hk]. simpl in Hk.
      apply String.eqb_eq in Hk. apply String.eqb_eq in D. now subst.
    + destruct (is_DoesNotExist "Location" e); discriminate.
  - unfold ret, Location_get.
    destruct (objects_get "Location" _ w) as [[x|e] w2] eqn:L.
    + apply objects_get_ok in L as [L Ew]. subst w2. intros H. injection H as E1 E2. subst x w'.
      assert (Hin : In loc (filter (fun l0 => String.eqb (location_uuid l0) l)
                                   (locations w))) by (rewrite L; simpl; auto).
      apply filter_In in Hin as [Hin Hu]. apply String.eqb_eq in Hu.
      split; [reflexivity|]. split; [assumption|]. now exists l.
    + destruct (is_DoesNotExist "Location" e); discriminate.
Qed.

Lemma missing_default l w :
  l = DEFAULT_AS_LOCATION ->
  (forall v, ~ In (DEFAULT_AS_LOCATION, v) (settings w)) ->
  get_aip_storage_location l w = (Raise (DoesNotExist "Settings"), w).
Proof.
  intros L N. unfold get_aip_storage_location, bind.
  rewrite (proj2 (String.eqb_eq _ _) L).
  unfold Settings_get_value.
  assert (E : filter (fun kv => String.eqb (fst kv) l) (settings w) = []).
  { induction (settings w) as [|[k v] s IH]; simpl; [reflexivity|].
    destruct (String.eqb k l) eqn:K.
    - apply String.eqb_eq in K. subst k. elim (N v). rewrite <- L. now left.
    - apply IH. intros v' Hin. apply (N v'). now right. }
  rewrite E. reflexivity.
Qed.

Lemma identify_keeps_config env a :
  keeps_view config_view (identify_aip env a).
Proof. apply keeps_identify_aip; reflexivity. Qed.

Lemma check_keeps_config u :
  keeps_view config_view (check_if_aip_already_exists u).
Proof. apply keeps_check_if_aip_already_exists; reflexivity. Qed.

End ConfigFacts.

(** X21. [get_aip_storage_location_path] is [get_aip_storage_location]
    followed by [full_path]: the two resolve the same location, raise the
    same exceptions and leave the same world. *)
Theorem storage_location_path_agrees (location : string) (w : World) :
  get_aip_storage_location_path location w
  = match get_aip_storage_location location w with
    | (Ok loc, w') => (Ok (Store.full_path loc), w')
    | (Raise e, w') => (Raise e, w')
    end.
Proof.
  unfold get_aip_storage_location_path, get_aip_storage_location, bind,
    try_except.
  destruct ((if String.eqb location DEFAULT_AS_LOCATION
             then Settings_get_value location else ret location) w)
    as [[u|e] w1]; [|reflexivity].
  destruct (Location_get u w1) as [[loc|e] w2]; [reflexivity|].
  now destruct (is_DoesNotExist "Location" e).
Qed.

(** X22. A location that was found is one of the configured locations, and
    its UUID is the one asked for or, for [default_AS_location], the value
    of the setting of that name; the world is not changed by the lookup. *)
Theorem storage_location_is_the_one_asked_for
        (location : string) (w : World) (found : Store.Location) (w' : World) :
  get_aip_storage_location location w = (Ok found, w') ->
  w' = w
  /\ In found (locations w)
  /\ (if String.eqb location DEFAULT_AS_LOCATION
      then In (DEFAULT_AS_LOCATION, Store.location_uuid found) (settings w)
      else Store.location_uuid found = location).
Proof.
  intros H. apply ConfigFacts.location_result in H as (-> & Hin & r & <- & Hr).
  auto.
Qed.

Lemma storage_location_is_the_one_asked_for_witness :
  Demo.world0 = Demo.world0
  /\ In Demo.L1 (locations Demo.world0)
  /\ (if String.eqb "default_AS_location" DEFAULT_AS_LOCATION
      then In (DEFAULT_AS_LOCATION, Store.location_uuid Demo.L1)
              (settings Demo.world0)
      else Store.location_uuid Demo.L1 = "default_AS_location").
Proof.
  apply (storage_location_is_the_one_asked_for "default_AS_location"
           Demo.world0 Demo.L1 Demo.world0).
  reflexivity.
Defined.

(** X23. Asking for the default location when the setting
    [default_AS_location] does not exist raises [Settings.DoesNotExist],
    not an [ImportAIPException]: an unknown UUID is reported as an import
    error, a missing default is not. *)
Theorem storage_location_errors (location : string) (w : World) :
  (location = DEFAULT_AS_LOCATION ->
   (forall v, ~ In (DEFAULT_AS_LOCATION, v) (settings w)) ->
   get_aip_storage_location location w = (Raise (DoesNotExist "Settings"), w))
  /\ (location <> DEFAULT_AS_LOCATION ->
      (forall loc, In loc (locations w) -> Store.location_uuid loc <> location) ->
      get_aip_storage_location location w
      = (Raise (ImportAIPException
                  ("Unable to find an AIP storage location matching "
                     ++ location ++ ".")), w)).
Proof.
  split.
  - apply ConfigFacts.missing_default.
  - intros D N. unfold get_aip_storage_location, bind, try_except.
    apply String.eqb_neq in D. rewrite D. unfold ret, Location_get.
    assert (E : filter (fun l0 => String.eqb (Store.location_uuid l0) location)
                       (locations w) = []).
    { induction (locations w) as [|x l IH]; simpl; [reflexivity|].
      destruct (String.eqb (Store.location_uuid x) location) eqn:K.
      - apply String.eqb_eq in K. elim (N x); [now left | assumption].
      - apply IH. intros loc Hin. apply N. now right. }
    rewrite E. reflexivity.
Qed.

Lemma storage_location_errors_witness :
  get_aip_storage_location "default_AS_location" world_without_default
  = (Raise (DoesNotExist "Settings"), world_without_default)
  /\ get_aip_storage_location "L2" Demo.world0
     = (Raise (ImportAIPException
                 "Unable to find an AIP storage location matching L2."),
        Demo.world0).
Proof.
  split.
  - apply (proj1 (storage_location_errors "default_AS_location"
                    world_without_default)); [reflexivity|].
    intros v H. exact H.
  - apply (proj2 (storage_location_errors "L2" Demo.world0)); [discriminate|].
    intros loc [<- | []]. discriminate.
Defined.

(** ** The record of a placement, and placements that cannot succeed *)

Module RecordFacts.
Import Store PipelineFacts.

Lemma fix_ownership_without_account env inst p w :
  getpwnam env "archivematica" = None ->
  fix_ownership env inst p w = (Raise KeyError, w).
Proof.
  intros N. unfold fix_ownership, bind, pwd_getpwnam. now rewrite N.
Qed.

Lemma copy_aip_without_account env inst a loc w :
  getpwnam env "archivematica" = None ->
  forall r w', copy_aip_to_aip_storage_location env inst a loc w = (r, w') ->
               exists e, r = Raise e.
Proof.
  intros N r w'. unfold copy_aip_to_aip_storage_location, bind, lift.
  destruct (uuid_to_path (uuid inst)) as [path|e];
    [|intros H; inversion H; eauto].
  destruct (mkdir env _ w) as [[[]|e] wm]; [|intros H; inversion H; eauto].
  destruct (copy_rsync env a _ wm) as [[[]|e] wr]; [|intros H; inversion H; eauto].
  rewrite (fix_ownership_without_account env _ _ wr N).
  intros H. inversion H. eauto.
Qed.

Lemma copy_aip_keeps_store env inst a loc w r w' :
  copy_aip_to_aip_storage_location env inst a loc w = (r, w') ->
  packages w' = packages w
  /\ store_writes (trace w') = store_writes (trace w).
Proof.
  intros H.
  pose proof (keeps_copy_aip store_view (fun _ _ => eq_refl) env
                store_view_log _ _ _ _ _ _ H) as K.
  unfold store_view in K. now injection K.
Qed.

End RecordFacts.

(** X24. The record a placement returns and the save then stores: it is
    the record that was placed, with the sharded UUID followed by the base
    name of the normalized source path as its path and every other field
    as it was; the placement wrote nothing to the package table; and after
    the save it is the only record of its UUID. *)
Theorem placed_record_is_saved_alone
        (env : Env) (aip_model_inst : Store.Package) (aip_path : string)
        (aip_storage_location : Store.Location)
        (w w1 w2 : World) (placed : Store.Package) :
  copy_aip_to_aip_storage_location env aip_model_inst aip_path
                                   aip_storage_location w = (Ok placed, w1) ->
  save_aip_model_instance placed w1 = (Ok tt, w2) ->
  exists path,
    uuid_to_path (Store.uuid aip_model_inst) = Ok path
    /\ placed
       = Store.mkPackage
           (Store.uuid aip_model_inst) (Store.package_type aip_model_inst)
           (Store.status aip_model_inst) (Store.size aip_model_inst)
           (Store.origin_pipeline aip_model_inst)
           (Store.current_location aip_model_inst)
           (PosixPath.join2 path
              [PosixPath2.basename (PosixPath2.normpath aip_path)])
    /\ packages w1 = packages w
    /\ Store.filter_uuid (Store.uuid aip_model_inst) (packages w2) = [placed].
Proof.
  intros C Sv.
  destruct (PipelineFacts.copy_aip_result _ _ _ _ _ _ _ C)
    as (path & f & U & E & _).
  exists path. split; [exact U|]. split; [exact E|].
  split; [exact (proj1 (RecordFacts.copy_aip_keeps_store _ _ _ _ _ _ _ C))|].
  pose proof (DuplicateFacts.save_unique _ _ _ _ Sv) as K.
  now rewrite E in K |- *.
Qed.

Lemma placed_record_is_saved_alone_witness :
  exists path,
    uuid_to_path (Store.uuid Demo.new_record) = Ok path
    /\ Store.set_current_path Demo.new_record
         "e0a4/1934/c1d7/45ba/9a95/a753/1c06/3ed1/archive"
       = Store.mkPackage
           (Store.uuid Demo.new_record) (Store.package_type Demo.new_record)
           (Store.status Demo.new_record) (Store.size Demo.new_record)
           (Store.origin_pipeline Demo.new_record)
           (Store.current_location Demo.new_record)
           (PosixPath.join2 path
              [PosixPath2.basename (PosixPath2.normpath "/tmp/tmpAIP/archive")])
    /\ packages
         (snd (copy_aip_to_aip_storage_location
                 Demo.env Demo.new_record "/tmp/tmpAIP/archive" Demo.L1
                 Demo.world_extracted))
       = packages Demo.world_extracted
    /\ Store.filter_uuid (Store.uuid Demo.new_record)
         (packages
            (snd (save_aip_model_instance
                    (Store.set_current_path Demo.new_record
                       "e0a4/1934/c1d7/45ba/9a95/a753/1c06/3ed1/archive")
                    (snd (copy_aip_to_aip_storage_location
                            Demo.env Demo.new_record "/tmp/tmpAIP/archive"
                            Demo.L1 Demo.world_extracted)))))
       = [Store.set_current_path Demo.new_record
            "e0a4/1934/c1d7/45ba/9a95/a753/1c06/3ed1/archive"].
Proof.
  apply (placed_record_is_saved_alone
           Demo.env Demo.new_record "/tmp/tmpAIP/archive" Demo.L1
           Demo.world_extracted).
  - vm_compute. reflexivity.
  - vm_compute. reflexivity.
Defined.

(** X25. Where the password database has no [archivematica] account, no
    import can succeed: every run of [import_aip] raises, and the package
    table and the record of store operations are as they were. The
    placement by itself cannot succeed there either, whatever it is given;
    it raises with the table as it was. *)
Theorem import_aip_needs_the_account
        (env : Env) (aip_path location : string) (pipeline : option string)
        (w : World) :
  getpwnam env "archivematica" = None ->
  (exists e w',
      import_aip env aip_path location pipeline w = (Raise e, w')
      /\ packages w' = packages w
      /\ store_writes (trace w') = store_writes (trace w))
  /\ (forall aip_model_inst source aip_storage_location w0,
        exists e w',
          copy_aip_to_aip_storage_location env aip_model_inst source
                                           aip_storage_location w0
          = (Raise e, w')
          /\ packages w' = packages w0
          /\ store_writes (trace w') = store_writes (trace w0)).
Proof.
  intros N. split.
  - rewrite TableFacts.import_cases.
    destruct (prepare_aip env aip_path location pipeline w) as [r wp] eqn:P.
    destruct (PipelineFacts.prepare_aip_raises _ _ _ _ _ _ _ P) as [e ->].
    exists e, wp. split; [reflexivity|].
    exact (TableFacts.prepare_packages _ _ _ _ _ _ _ P).
  - intros inst source loc w0.
    destruct (copy_aip_to_aip_storage_location env inst source loc w0)
      as [r w'] eqn:C.
    destruct (RecordFacts.copy_aip_without_account _ _ _ _ _ N _ _ C) as [e ->].
    exists e, w'. split; [reflexivity|].
    exact (RecordFacts.copy_aip_keeps_store _ _ _ _ _ _ _ C).
Qed.

Lemma import_aip_needs_the_account_witness :
  (exists e w',
      import_aip env_without_account "/tmp/archive.tar.gz" "L1" None Demo.world0
      = (Raise e, w')
      /\ packages w' = packages Demo.world0
      /\ store_writes (trace w') = store_writes (trace Demo.world0))
  /\ (forall aip_model_inst source aip_storage_location w0,
        exists e w',
          copy_aip_to_aip_storage_location env_without_account aip_model_inst
                                           source aip_storage_location w0
          = (Raise e, w')
          /\ packages w' = packages w0
          /\ store_writes (trace w') = store_writes (trace w0)).
Proof.
  apply (import_aip_needs_the_account env_without_account
           "/tmp/archive.tar.gz" "L1" None Demo.world0).
  reflexivity.
Defined.

Example placement_without_account_raises_after_the_copy :
  let r := copy_aip_to_aip_storage_location
             env_without_account Demo.new_record "/tmp/tmpAIP/archive" Demo.L1
             Demo.world_extracted in
  fst r = Raise KeyError
  /\ Fs.isdir Demo.cwd (fs (snd r)) (PosixPath.join2 Demo.destination ["archive"])
     = true.
Proof. vm_compute. split; reflexivity. Qed.

(** ** The command *)

(** X26. When nothing is at [aip_path], [import_aip] raises
    [There is nothing at <aip_path>] with the world untouched, and the
    command [handle] returns normally after printing two lines, the header
    and that message; nothing else has changed. *)
Theorem handle_reports_missing_source
        (env : Env) (aip_path location : string) (pipeline : option string)
        (w : World) :
  Fs.exists_ (cwd env) (fs w) aip_path = false ->
  import_aip env aip_path location pipeline w
  = (Raise (ImportAIPException ("There is nothing at " ++ aip_path)), w)
  /\ handle env aip_path location pipeline w
     = (Ok tt,
        emit (emit w (header ("Attempting to import the AIP at "
                                ++ aip_path ++ ".")))
             (fail ("There is nothing at " ++ aip_path))).
Proof.
  intros E.
  assert (I : forall w0, fs w0 = fs w ->
    import_aip env aip_path location pipeline w0
    = (Raise (ImportAIPException ("There is nothing at " ++ aip_path)), w0)).
  { intros w0 F. unfold import_aip, bind at 1.
    unfold confirm_aip_exists, bind, os_path_exists. now rewrite F, E. }
  split; [now apply I|].
  unfold handle, bind, print. now rewrite I.
Qed.

Lemma handle_reports_missing_source_witness :
  import_aip Demo.env "/tmp/nowhere" "L1" None Demo.world0
  = (Raise (ImportAIPException ("There is nothing at " ++ "/tmp/nowhere")),
     Demo.world0)
  /\ handle Demo.env "/tmp/nowhere" "L1" None Demo.world0
     = (Ok tt,
        emit (emit Demo.world0
                   (header ("Attempting to import the AIP at "
                              ++ "/tmp/nowhere" ++ ".")))
             (fail ("There is nothing at " ++ "/tmp/nowhere"))).
Proof.
  apply (handle_reports_missing_source Demo.env "/tmp/nowhere" "L1" None
           Demo.world0).
  reflexivity.
Defined.

(** X27. The command catches [ImportAIPException] and nothing else. With
    the default location asked for and no [default_AS_location] setting, an
    import that got past the duplicate check leaves [handle] with
    [Settings.DoesNotExist]; nothing was placed and no record written. *)
Theorem handle_lets_missing_default_escape
        (env : Env) (aip_path : string) (pipeline : option string)
        (w w1 : World) (aip_dir aip_uuid : string) :
  identify_aip env aip_path
               (emit w (header ("Attempting to import the AIP at "
                                  ++ aip_path ++ ".")))
  = (Ok (aip_dir, aip_uuid), w1) ->
  Store.filter_uuid aip_uuid (packages w) = [] ->
  (forall v, ~ In (DEFAULT_AS_LOCATION, v) (settings w)) ->
  handle env aip_path DEFAULT_AS_LOCATION pipeline w
  = (Raise (DoesNotExist "Settings"), w1)
  /\ packages w1 = packages w /\ trace w1 = trace w.
Proof.
  intros I D N.
  pose proof (identify_aip_quiet env aip_path _ _ _ I) as Q.
  unfold quiet_view in Q. injection Q as QP _ QT. simpl in QP, QT.
  pose proof (ConfigFacts.identify_keeps_config env aip_path _ _ _ I) as K.
  unfold config_view in K. injection K as KS _ _. simpl in KS.
  split; [|auto].
  unfold handle, bind at 1, print.
  rewrite (DuplicateFacts.import_after_identify _ _ _ _ _ _ _ _ I).
  unfold bind at 1.
  rewrite DuplicateFacts.check_without_duplicates by now rewrite QP.
  unfold bind at 1, place_aip, bind at 1.
  rewrite ConfigFacts.missing_default; [reflexivity | reflexivity |].
  now rewrite KS.
Qed.

Lemma handle_lets_missing_default_escape_witness :
  handle Demo.env "/tmp/archive.tar.gz" DEFAULT_AS_LOCATION None
         world_without_default
  = (Raise (DoesNotExist "Settings"),
     snd (identify_aip Demo.env "/tmp/archive.tar.gz"
            (emit world_without_default
                  (header ("Attempting to import the AIP at "
                             ++ "/tmp/archive.tar.gz" ++ ".")))))
  /\ packages (snd (identify_aip Demo.env "/tmp/archive.tar.gz"
                      (emit world_without_default
                            (header ("Attempting to import the AIP at "
                                       ++ "/tmp/archive.tar.gz" ++ ".")))))
     = packages world_without_default
  /\ trace (snd (identify_aip Demo.env "/tmp/archive.tar.gz"
                   (emit world_without_default
                         (header ("Attempting to import the AIP at "
                                    ++ "/tmp/archive.tar.gz" ++ ".")))))
     = trace world_without_default.
Proof.
  apply (handle_lets_missing_default_escape Demo.env "/tmp/archive.tar.gz" None
           world_without_default _ "/tmp/tmpAIP/archive" Demo.aip_uuid).
  - vm_compute. reflexivity.
  - reflexivity.
  - intros v H. exact H.
Defined.

(** ** The origin pipeline, and bags that are refused *)

Module PipelineChoice.
Import Store.

Lemma filter_none {A} (f : A -> bool) l :
  (forall x, In x l -> f x = false) -> filter f l = [].
Proof.
  induction l as [|x l IH]; intros H; simpl; [reflexivity|].
  rewrite (H x) by now left. apply IH. intros y Hy. apply H. now right.
Qed.

End PipelineChoice.

(** X28. [get_pipeline] never changes the world. Without a pipeline UUID
    (absent or empty) it never raises: it returns the first pipeline, or
    none when there is no pipeline at all. A UUID that no pipeline bears is
    an import error that names it; a pipeline that is returned for a UUID
    bears that UUID. *)
Theorem get_pipeline_outcome (adoptive_pipeline_uuid : option string) (w : World) :
  snd (get_pipeline adoptive_pipeline_uuid w) = w
  /\ (adoptive_pipeline_uuid = None \/ adoptive_pipeline_uuid = Some "" ->
      fst (get_pipeline adoptive_pipeline_uuid w) = Ok (List.hd_error (pipelines w)))
  /\ (forall u, adoptive_pipeline_uuid = Some u -> u <> "" ->
        (forall pl, In pl (pipelines w) -> Store.pipeline_uuid pl <> u) ->
        fst (get_pipeline adoptive_pipeline_uuid w)
        = Raise (ImportAIPException ("There is no pipeline with uuid " ++ u)))
  /\ (forall u found, adoptive_pipeline_uuid = Some u -> u <> "" ->
        fst (get_pipeline adoptive_pipeline_uuid w) = Ok found ->
        exists pl, found = Some pl /\ In pl (pipelines w)
                   /\ Store.pipeline_uuid pl = u).
Proof.
  assert (G : forall u, u <> "" ->
    get_pipeline (Some u) w
    = match filter (fun p => String.eqb (Store.pipeline_uuid p) u) (pipelines w) with
      | [] => (Raise (ImportAIPException ("There is no pipeline with uuid " ++ u)), w)
      | [pl] => (Ok (Some pl), w)
      | _ :: _ :: _ => (Raise (MultipleObjectsReturned "Pipeline"), w)
      end).
  { intros u Hu. unfold get_pipeline.
    apply String.eqb_neq in Hu. rewrite Hu. cbn [negb].
    unfold try_except, bind, Pipeline_get, objects_get, ret, raise.
    now destruct (filter _ (pipelines w)) as [|x [|y l]]. }
  split; [|split; [|split]].
  - destruct adoptive_pipeline_uuid as [u|]; [|reflexivity].
    destruct (String.eqb u "") eqn:E.
    + apply String.eqb_eq in E. subst u. reflexivity.
    + apply String.eqb_neq in E. rewrite (G u E).
      now destruct (filter _ (pipelines w)) as [|x [|y l]].
  - intros [-> | ->]; reflexivity.
  - intros u -> Hu N. rewrite (G u Hu).
    rewrite PipelineChoice.filter_none; [reflexivity|].
    intros pl Hin. apply String.eqb_neq. now apply N.
  - intros u found -> Hu. rewrite (G u Hu).
    destruct (filter _ (pipelines w)) as [|pl [|y l]] eqn:F; try discriminate.
    simpl. intros H. injection H as <-.
    assert (Hin : In pl (filter (fun p => String.eqb (Store.pipeline_uuid p) u)
                                (pipelines w))) by (rewrite F; simpl; auto).
    apply filter_In in Hin as [Hin Hp]. apply String.eqb_eq in Hp. eauto.
Qed.

Lemma get_pipeline_outcome_witness :
  fst (get_pipeline None Demo.world0) = Ok (Some Demo.P1)
  /\ fst (get_pipeline (Some "no-such-pipeline") Demo.world0)
     = Raise (ImportAIPException
                ("There is no pipeline with uuid " ++ "no-such-pipeline")).
Proof.
  split.
  - apply (proj1 (proj2 (get_pipeline_outcome None Demo.world0))). now left.
  - apply (proj1 (proj2 (proj2 (get_pipeline_outcome (Some "no-such-pipeline")
                                                     Demo.world0)))
             "no-such-pipeline"); [reflexivity | discriminate |].
    intros pl [<- | []]. discriminate.
Defined.

(** X29. A source that exists but is refused after decompression: when the
    bag at the decompressed path is found invalid, or when no METS file
    is found in its [data] directory, [import_aip] raises an import error
    that names the decompressed path. The world is left as decompression
    left it: the scratch directory is not removed, nothing is placed, no
    record is written. *)
Theorem import_aip_refuses_bad_bags
        (env : Env) (aip_path location : string) (pipeline : option string)
        (w w1 : World) (aip_dir : string) :
  Fs.exists_ (cwd env) (fs w) aip_path = true ->
  decompress_aip env aip_path w = (Ok aip_dir, w1) ->
  (bag_is_valid env (fs w1) aip_dir = Ok false ->
   import_aip env aip_path location pipeline w
   = (Raise (ImportAIPException
               ("The AIP at " ++ aip_dir ++ " is not a valid Bag; aborting.")), w1))
  /\ (bag_is_valid env (fs w1) aip_dir = Ok true ->
      glob env (fs w1) (PosixPath.join2 aip_dir ["data"; "METS*xml"]) = [] ->
      import_aip env aip_path location pipeline w
      = (Raise (ImportAIPException
                  ("Unable to find a METS file in " ++ aip_dir ++ ".")), w1)).
Proof.
  intros E D.
  assert (C : confirm_aip_exists env aip_path w = (Ok tt, w)).
  { unfold confirm_aip_exists, bind, os_path_exists. now rewrite E. }
  split.
  - intros V. unfold import_aip, bind at 1. rewrite C.
    unfold bind at 1. rewrite D. unfold bind at 1.
    unfold validate, bind, bagit_is_valid. now rewrite V.
  - intros V G. unfold import_aip, bind at 1. rewrite C.
    unfold bind at 1. rewrite D. unfold bind at 1.
    unfold validate at 1, bind at 1, bagit_is_valid. rewrite V. cbn [negb ret].
    unfold bind at 1, get_aip_mets_path, bind, glob_glob. now rewrite G.
Qed.

Lemma import_aip_refuses_bad_bags_witness :
  import_aip Demo.env "/tmp/broken" "L1" None world_with_bad_bags
  = (Raise (ImportAIPException
              ("The AIP at " ++ "/tmp/broken" ++ " is not a valid Bag; aborting.")),
     world_with_bad_bags)
  /\ import_aip Demo.env "/tmp/nomets" "L1" None world_with_bad_bags
     = (Raise (ImportAIPException
                 ("Unable to find a METS file in " ++ "/tmp/nomets" ++ ".")),
        world_with_bad_bags).
Proof.
  split.
  - apply (proj1 (import_aip_refuses_bad_bags Demo.env "/tmp/broken" "L1" None
                    world_with_bad_bags world_with_bad_bags "/tmp/broken"
                    eq_refl eq_refl)).
    reflexivity.
  - apply (proj2 (import_aip_refuses_bad_bags Demo.env "/tmp/nomets" "L1" None
                    world_with_bad_bags world_with_bad_bags "/tmp/nomets"
                    eq_refl eq_refl)); reflexivity.
Defined.
